(** * Remittance Schedule Tool: receipt scanning, ledger assembly and export

    A shallow embedding of [src/App.tsx] (the [App] component): the receipt
    loop [processReceipts], the extraction post-processing of
    [callScannerGeminiAPI] and the two spreadsheet exporters of
    [downloadScannerExcel], followed by the properties stated about them.

    Conventions of the embedding:
    - a JavaScript string is a [string]; the code units that matter to the
      program (letters, digits, punctuation, white space) are the ASCII ones,
      and [toUpperCase], [trim] and the regular-expression classes act on
      those, which is exact for ASCII text ([isAscii]);
    - an amount is an integer, a [Z]; up to 2^53 - 1 in magnitude
      ([safeInteger]) it is the number that the code holds, and printing and
      adding it are exact;
    - a time value is [option Z]: milliseconds since the epoch, [None] for
      NaN (an Invalid Date); [JsDate.parse] reads the date-only form
      YYYY-MM-DD of a calendar date ([calendarDate]), where engines read
      further forms as well;
    - the local time zone is UTC, so that the calendar fields of a date-only
      string are those written in it (a zone east of Greenwich, such as
      Lagos, gives the same fields), and the default locale is English;
    - a plain object used as a dictionary is an association list of its own
      properties in insertion order; its key order is computed by
      [Obj.keys], and [Obj.lookup] reads a property through
      [Object.prototype];
    - a ledger row is a record of strings and a number: a field that the
      service left out is read as the empty string or zero; the upload
      template calls methods on the tax type and the period of a row and is
      modelled for rows that have both ([hasTaxAndPeriod]);
    - arrays that the code sorts in place live in a store of arrays, so that
      aliasing between the ledger and what an exporter sorts is visible. *)

From Stdlib Require Import ZArith Ascii.
From stdpp Require Import base option list strings gmap sorting.

Local Open Scope list_scope.
Local Open Scope Z_scope.

(** ** JavaScript strings *)

Module JsString.

Definition code (c : ascii) : N := Ascii.N_of_ascii c.

Definition isUpper (c : ascii) : bool := ((65 <=? code c) && (code c <=? 90))%N.
Definition isLower (c : ascii) : bool := ((97 <=? code c) && (code c <=? 122))%N.
Definition isDigit (c : ascii) : bool := ((48 <=? code c) && (code c <=? 57))%N.

(** White space of [trim] and of the class [\s]: TAB, LF, VT, FF, CR, SP. *)
Definition isSpace (c : ascii) : bool :=
  (((9 <=? code c) && (code c <=? 13)) || (code c =? 32))%N.

Definition upperChar (c : ascii) : ascii :=
  if isLower c then Ascii.ascii_of_N (code c - 32) else c.
Definition lowerChar (c : ascii) : ascii :=
  if isUpper c then Ascii.ascii_of_N (code c + 32) else c.

Fixpoint mapChars (f : ascii -> ascii) (s : string) : string :=
  match s with
  | EmptyString => EmptyString
  | String c s' => String (f c) (mapChars f s')
  end.

Definition toUpperCase : string -> string := mapChars upperChar.
Definition toLowerCase : string -> string := mapChars lowerChar.

Fixpoint filterChars (p : ascii -> bool) (s : string) : string :=
  match s with
  | EmptyString => EmptyString
  | String c s' => if p c then String c (filterChars p s') else filterChars p s'
  end.

Fixpoint allChars (p : ascii -> bool) (s : string) : bool :=
  match s with
  | EmptyString => true
  | String c s' => p c && allChars p s'
  end.

Fixpoint trimStart (s : string) : string :=
  match s with
  | EmptyString => EmptyString
  | String c s' => if isSpace c then trimStart s' else s
  end.

(** [trimEnd] keeps a character when it is not white space or when something
    that is kept follows it. *)
Fixpoint trimEnd (s : string) : string :=
  match s with
  | EmptyString => EmptyString
  | String c s' =>
      match trimEnd s' with
      | EmptyString => if isSpace c then EmptyString else String c EmptyString
      | t => String c t
      end
  end.

Definition trim (s : string) : string := trimEnd (trimStart s).

(** [s.includes(sub)] *)
Fixpoint includes (s sub : string) : bool :=
  String.prefix sub s
  || match s with
     | EmptyString => false
     | String _ s' => includes s' sub
     end.

(** [s.split(sep)] for a one-character separator: never empty. *)
Fixpoint split (sep : ascii) (s : string) : list string :=
  match s with
  | EmptyString => [EmptyString]
  | String c s' =>
      if Ascii.eqb c sep then EmptyString :: split sep s'
      else match split sep s' with
           | [] => [String c EmptyString]
           | p :: ps => String c p :: ps
           end
  end.

Fixpoint join (sep : string) (l : list string) : string :=
  match l with
  | [] => EmptyString
  | [x] => x
  | x :: l' => x +:+ sep +:+ join sep l'
  end.

(** [s.slice(-n)]: the last [n] characters, the whole string when shorter. *)
Definition sliceLast (n : nat) (s : string) : string :=
  String.substring (String.length s - n) n s.

(** [s.padStart(n, "0")] *)
Fixpoint zeros (n : nat) : string :=
  match n with
  | O => EmptyString
  | S n' => String "0" (zeros n')
  end.
Definition padStart0 (n : nat) (s : string) : string :=
  zeros (n - String.length s) +:+ s.

(** A non-empty string is truthy. *)
Definition truthy (s : string) : bool :=
  match s with
  | EmptyString => false
  | _ => true
  end.

(** [a || b] on strings. *)
Definition orElse (a b : string) : string := if truthy a then a else b.

(** [s.replace(/\s+/g, "_")]: every maximal run of white space becomes one
    underscore. *)
Fixpoint collapseSpaces (inRun : bool) (s : string) : string :=
  match s with
  | EmptyString => EmptyString
  | String c s' =>
      if isSpace c
      then (if inRun then collapseSpaces true s'
            else String "_" (collapseSpaces true s'))
      else String c (collapseSpaces false s')
  end.

End JsString.

(** ** JavaScript numbers that are integers *)

Module JsNumber.

Definition digitChar (d : Z) : ascii := Ascii.ascii_of_N (48 + Z.to_N d).

(** Decimal digits of a non-negative integer, most significant first; the
    fuel is the number of binary digits, which is never too small. *)
Fixpoint digitsAux (fuel : nat) (n : Z) (acc : string) : string :=
  match fuel with
  | O => acc
  | S fuel' =>
      let acc' := String (digitChar (n mod 10)) acc in
      if n <? 10 then acc' else digitsAux fuel' (n / 10) acc'
  end.

Definition digits (n : Z) : string :=
  digitsAux (S (Z.to_nat (Z.log2 n))) n EmptyString.

(** [String(n)], [`${n}`], [n.toString()] *)
Definition toString (n : Z) : string :=
  if n <? 0 then String "-" (digits (- n)) else digits n.

Definition digitVal (c : ascii) : Z := Z.of_N (JsString.code c) - 48.

(** The value of a string of decimal digits. *)
Fixpoint parseDigitsAux (acc : Z) (s : string) : option Z :=
  match s with
  | EmptyString => Some acc
  | String c s' =>
      if JsString.isDigit c then parseDigitsAux (10 * acc + digitVal c) s'
      else None
  end.

Definition parseDigits (s : string) : option Z :=
  match s with
  | EmptyString => None
  | _ => parseDigitsAux 0 s
  end.

End JsNumber.

(** ** JavaScript dates

    [new Date(s)] is modelled for the date-only form [YYYY-MM-DD], which is
    the form the extraction prompt asks for: such a string denotes midnight
    UTC of that calendar day.  Any other string is an Invalid Date here;
    engines accept further forms, which the statements leave aside. *)

Module JsDate.

Definition msPerDay : Z := 86400000.

Definition isLeap (y : Z) : bool :=
  ((y mod 4 =? 0) && negb (y mod 100 =? 0)) || (y mod 400 =? 0).

(** Day number of 1 January of year [y] (ECMAScript [DayFromYear]). *)
Definition DayFromYear (y : Z) : Z :=
  365 * (y - 1970) + (y - 1969) / 4 - (y - 1901) / 100 + (y - 1601) / 400.

(** Months are numbered from 0, as [getMonth] does. *)
Definition daysInMonth (y m : Z) : Z :=
  if m =? 1 then (if isLeap y then 29 else 28)
  else if (m =? 3) || (m =? 5) || (m =? 8) || (m =? 10) then 30
  else 31.

Definition daysBeforeMonth (y m : Z) : Z :=
  fold_right Z.add 0
    (map (daysInMonth y) (map Z.of_nat (seq 0 (Z.to_nat m)))).

(** ECMAScript [MakeDay]: the month may lie outside [0..11] and the day
    outside the month; both carry over. *)
Definition MakeDay (year month date : Z) : Z :=
  let ym := year + month / 12 in
  let mn := month mod 12 in
  DayFromYear ym + daysBeforeMonth ym mn + date - 1.

(** Calendar fields [(year, month, day of month)] of a day number. *)
Definition civil (day : Z) : Z * Z * Z :=
  let z := day + 719468 in
  let era := z / 146097 in
  let doe := z - era * 146097 in
  let yoe := (doe - doe / 1460 + doe / 36524 - doe / 146096) / 365 in
  let doy := doe - (365 * yoe + yoe / 4 - yoe / 100) in
  let mp := (5 * doy + 2) / 153 in
  let d := doy - (153 * mp + 2) / 5 + 1 in
  let m := if mp <? 10 then mp + 2 else mp - 10 in
  let y := yoe + era * 400 + (if m <=? 1 then 1 else 0) in
  (y, m, d).

(** A [Date] object holds a time value; [None] is NaN. *)
Definition t : Type := option Z.

Definition Day (tv : Z) : Z := tv / msPerDay.
Definition TimeWithinDay (tv : Z) : Z := tv mod msPerDay.

Definition getTime (d : t) : option Z := d.
Definition getFullYear (d : t) : option Z := (fun tv => (civil (Day tv)).1.1) <$> d.
Definition getMonth (d : t) : option Z := (fun tv => (civil (Day tv)).1.2) <$> d.
Definition getDate (d : t) : option Z := (fun tv => (civil (Day tv)).2) <$> d.

(** [d.setMonth(m)]: the day of the month is kept, so a day that the target
    month does not have carries into the following month. *)
Definition setMonth (d : t) (m : option Z) : t :=
  match d, m with
  | Some tv, Some m =>
      let '(y, _, dt) := civil (Day tv) in
      Some (MakeDay y m dt * msPerDay + TimeWithinDay tv)
  | _, _ => None
  end.

Definition parseField (len : nat) (s : string) : option Z :=
  if Nat.eqb (String.length s) len then JsNumber.parseDigits s else None.

(** The year, the month counted from 0 and the day that a string of the
    form [YYYY-MM-DD] writes, when they make a date of the calendar. *)
Definition isoFields (s : string) : option (Z * Z * Z) :=
  match JsString.split "-" s with
  | [ys; ms; ds] =>
      match parseField 4 ys, parseField 2 ms, parseField 2 ds with
      | Some y, Some m, Some d =>
          if (1 <=? m) && (m <=? 12) && (1 <=? d) && (d <=? daysInMonth y (m - 1))
          then Some (y, m - 1, d)
          else None
      | _, _, _ => None
      end
  | _ => None
  end.

(** [new Date(s)] *)
Definition parse (s : string) : t :=
  (fun '(y, m, d) => MakeDay y m d * msPerDay) <$> isoFields s.

Definition shortMonths : list string :=
  ["Jan"; "Feb"; "Mar"; "Apr"; "May"; "Jun";
   "Jul"; "Aug"; "Sep"; "Oct"; "Nov"; "Dec"].

Definition longMonths : list string :=
  ["January"; "February"; "March"; "April"; "May"; "June";
   "July"; "August"; "September"; "October"; "November"; "December"].

Definition monthName (names : list string) (d : t) : string :=
  match getMonth d with
  | Some m => default "Invalid Date" (names !! Z.to_nat m)
  | None => "Invalid Date"
  end.

(** [d.toLocaleString('default', { month: 'short' })] *)
Definition monthShort : t -> string := monthName shortMonths.
(** [d.toLocaleString('default', { month: 'long' })] *)
Definition monthLong : t -> string := monthName longMonths.

(** Printing of a number that may be NaN. *)
Definition numToString (n : option Z) : string :=
  match n with
  | Some z => JsNumber.toString z
  | None => "NaN"
  end.

End JsDate.

(** ** Data model *)

(** The object that [JSON.parse(response.text)] yields: the service is asked
    for every field but any of them may be missing. *)
Module Raw.
Record t : Type := mk {
  companyName : option string;
  paymentDate : option string;
  paymentDateDisplay : option string;
  paymentPeriod : option string;
  receiptNumber : option string;
  taxType : option string;
  amount : option Z
}.
End Raw.

(** [interface ScannerResult]: a row of the ledger. *)
Record ScannerResult : Type := mkScannerResult {
  companyName : string;
  paymentDate : string;
  paymentDateDisplay : string;
  paymentPeriod : string;
  receiptNumber : string;
  taxType : string;
  amount : Z
}.

(** Truthiness of a field that may be missing. *)
Definition present (f : option string) : bool :=
  match f with
  | Some s => JsString.truthy s
  | None => false
  end.

(** Post-processing of the parsed reply in [callScannerGeminiAPI]
    (the statements after [JSON.parse]). *)
Definition derivePeriod (paymentDate : string) : string :=
  let date := JsDate.parse paymentDate in
  let date := JsDate.setMonth date ((fun m => m - 1) <$> JsDate.getMonth date) in
  JsDate.monthShort date +:+ "-"
  +:+ JsString.sliceLast 2 (JsDate.numToString (JsDate.getFullYear date)).

Definition displayDate (paymentDate : string) : string :=
  let date := JsDate.parse paymentDate in
  JsString.padStart0 2 (JsDate.numToString (JsDate.getDate date)) +:+ "/"
  +:+ JsString.padStart0 2
        (JsDate.numToString ((fun m => m + 1) <$> JsDate.getMonth date)) +:+ "/"
  +:+ JsDate.numToString (JsDate.getFullYear date).

Definition normalize (data : Raw.t) : Raw.t :=
  let data :=
    if negb (present (Raw.paymentPeriod data)) && present (Raw.paymentDate data)
    then Raw.mk (Raw.companyName data) (Raw.paymentDate data)
           (Raw.paymentDateDisplay data)
           (Some (derivePeriod (default "" (Raw.paymentDate data))))
           (Raw.receiptNumber data) (Raw.taxType data) (Raw.amount data)
    else data in
  if present (Raw.paymentDate data)
  then Raw.mk (Raw.companyName data) (Raw.paymentDate data)
         (Some (displayDate (default "" (Raw.paymentDate data))))
         (Raw.paymentPeriod data)
         (Raw.receiptNumber data) (Raw.taxType data) (Raw.amount data)
  else data.

(** What one call of the extraction service does for a file: the request or
    the parsing of its reply throws, or a parsed object comes back. *)
Inductive Reply : Type :=
| Threw (message : string)
| Parsed (data : Raw.t).

(** A selected file, together with the reply the service gives for it. *)
Module File.
Record t : Type := mk {
  name : string;
  size : Z;
  type : string;
  reply : Reply
}.
End File.

Definition callScannerGeminiAPI (f : File.t) : Reply :=
  match File.reply f with
  | Threw e => Threw e
  | Parsed data => Parsed (normalize data)
  end.

Inductive MessageType : Type := error | success | warning.

Module Message.
Record t : Type := mk {
  text : string;
  type : MessageType
}.
End Message.

(** An admitted object seen at its declared type; a field that is still
    undefined reads as the empty string or as zero, which are falsy as well.
    In the standard template a missing field and an empty one fare alike but
    for the cell that shows the field; in the upload template a method call
    on an undefined [taxType] or [paymentPeriod] throws, so that the
    template is modelled for rows that have both. *)
Definition asScannerResult (r : Raw.t) : ScannerResult :=
  {| companyName := default "" (Raw.companyName r);
     paymentDate := default "" (Raw.paymentDate r);
     paymentDateDisplay := default "" (Raw.paymentDateDisplay r);
     paymentPeriod := default "" (Raw.paymentPeriod r);
     receiptNumber := default "" (Raw.receiptNumber r);
     taxType := default "" (Raw.taxType r);
     amount := default 0 (Raw.amount r) |}.

(** ** The receipt loop of [processReceipts] *)

Definition maxSize : Z := 19 * 1024 * 1024.

Definition acceptedTypes : list string :=
  ["image/png"; "image/jpeg"; "image/webp"; "application/pdf"].

(** [`${result.amount}`]: the decimal numeral of an integer of magnitude up
    to 2^53 - 1, which is how the number the code holds prints. *)
Definition amountToString (a : option Z) : string :=
  match a with
  | Some z => JsNumber.toString z
  | None => "undefined"
  end.

(** [`${result.receiptNumber.trim()}-${result.amount}`] *)
Definition uniqueKey (receiptNumber : string) (amount : option Z) : string :=
  JsString.trim receiptNumber +:+ "-" +:+ amountToString amount.

(** State of the loop: the set of keys seen, the rows pushed so far and the
    messages appended so far. *)
Record Scan : Type := mkScan {
  uniqueKeys : gset string;
  results : list Raw.t;
  messages : list Message.t
}.

Definition say (s : Scan) (m : Message.t) : Scan :=
  mkScan (uniqueKeys s) (results s) (messages s ++ [m]).

Definition failed (s : Scan) (f : File.t) (message : string) : Scan :=
  say s (Message.mk ("Failed to process file: " +:+ File.name f +:+ ". " +:+ message)
           error).

(** One iteration of [for (const file of selectedFiles)]. *)
Definition step (s : Scan) (f : File.t) : Scan :=
  if maxSize <? File.size f then
    say s (Message.mk ("File skipped (too large): " +:+ File.name f) warning)
  else if negb (bool_decide (File.type f ∈ acceptedTypes)) then
    say s (Message.mk ("Skipped: " +:+ File.name f
                        +:+ ". Scanner accepts PNG, JPG, WebP, or PDF.") warning)
  else
    match callScannerGeminiAPI f with
    | Threw e => failed s f e
    | Parsed result =>
        if present (Raw.companyName result) then
          match Raw.receiptNumber result with
          | None => failed s f "Cannot read properties of undefined (reading 'trim')"
          | Some receiptNumber =>
              let key := uniqueKey receiptNumber (Raw.amount result) in
              if bool_decide (key ∈ uniqueKeys s) then
                say s (Message.mk ("Duplicate Receipt skipped: " +:+ receiptNumber
                                    +:+ " in " +:+ File.name f) warning)
              else
                mkScan ({[key]} ∪ uniqueKeys s) (results s ++ [result])
                  (messages s
                     ++ [Message.mk ("Successfully processed: " +:+ File.name f) success])
          end
        else failed s f "AI did not return valid data."
    end.

Definition scan (files : list File.t) : Scan :=
  fold_left step files (mkScan ∅ [] []).

(** ** [Array.prototype.sort]

    The sort is stable.  A comparator yields a number, NaN ([None]) counting
    as zero.  For a comparator that orders its arguments consistently the
    result is the one stable arrangement, which insertion computes; where
    comparisons yield NaN the arrangement is a permutation that is left to
    the engine. *)

Section Sort.
Context {A : Type} (comparefn : A -> A -> option Z).

Definition SortCompare (x y : A) : Z := default 0 (comparefn x y).

(** [x] goes in front of the first element it does not come after. *)
Fixpoint place (x : A) (l : list A) : list A :=
  match l with
  | [] => [x]
  | y :: l' => if 0 <? SortCompare x y then y :: place x l' else x :: y :: l'
  end.

Fixpoint sort (l : list A) : list A :=
  match l with
  | [] => []
  | x :: l' => place x (sort l')
  end.
End Sort.

Definition minus (a b : option Z) : option Z :=
  match a, b with
  | Some x, Some y => Some (x - y)
  | _, _ => None
  end.

Definition time (row : ScannerResult) : option Z :=
  JsDate.getTime (JsDate.parse (paymentDate row)).

(** [(a, b) => new Date(a.paymentDate).getTime() - new Date(b.paymentDate).getTime()] *)
Definition byPaymentDate (a b : ScannerResult) : option Z :=
  minus (time a) (time b).

(** The comparison of [sort()] without a comparator, on strings. *)
Definition byCodeUnits (a b : string) : option Z :=
  Some (match String.compare a b with
        | Lt => -1
        | Eq => 0
        | Gt => 1
        end).

(** ** Arrays in the store *)

Abbreviation Store := (list (list ScannerResult)).

Definition alloc (a : list ScannerResult) (σ : Store) : nat * Store :=
  (length σ, σ ++ [a]).

Definition deref (σ : Store) (p : nat) : list ScannerResult :=
  default [] (σ !! p).

Definition sortInPlace (p : nat) (σ : Store) : Store :=
  alter (sort byPaymentDate) p σ.

Definition push (p : nat) (row : ScannerResult) (σ : Store) : Store :=
  alter (fun a => a ++ [row]) p σ.

(** ** Component state *)

Inductive GoogleGenAI : Type := Client (apiKey : string).

Record App : Type := mkApp {
  ai : option GoogleGenAI;
  XLSX : bool;
  selectedFiles : list File.t;
  scannerIsLoading : bool;
  scannerResults : nat;
  scannerMessages : list Message.t;
  showDownloadModal : bool;
  store : Store
}.

(** The array that [scannerResults] refers to. *)
Definition ledger (app : App) : list ScannerResult :=
  deref (store app) (scannerResults app).

Definition processReceipts (app : App) : App :=
  match ai app with
  | None =>
      mkApp (ai app) (XLSX app) (selectedFiles app) (scannerIsLoading app)
        (scannerResults app)
        [Message.mk "AI client not initialized." error]
        (showDownloadModal app) (store app)
  | Some _ =>
      let s := scan (selectedFiles app) in
      let '(p, σ) := alloc (map asScannerResult (results s)) (store app) in
      let σ := sortInPlace p σ in
      mkApp (ai app) (XLSX app) (selectedFiles app) false p (messages s)
        (showDownloadModal app) σ
  end.

(** ** Plain objects used as dictionaries

    The own properties are kept in insertion order.  [Object.keys] and
    [for ... in] list the keys that are array indices first, in ascending
    numeric order, and then the other keys in insertion order.  An object
    literal inherits the members of [Object.prototype]: [lookup] reads a
    property as [o[k]] does, an own property first and an inherited member
    otherwise, and [assign] writes one as [o[k] = v] does. *)

Module Obj.

Definition t (V : Type) : Type := list (string * V).

Fixpoint get {V} (k : string) (o : t V) : option V :=
  match o with
  | [] => None
  | (k', v) :: o' => if String.eqb k k' then Some v else get k o'
  end.

(** [o[k] = v]: an existing property keeps its place. *)
Fixpoint set {V} (k : string) (v : V) (o : t V) : t V :=
  match o with
  | [] => [(k, v)]
  | (k', v') :: o' =>
      if String.eqb k k' then (k', v) :: o' else (k', v') :: set k v o'
  end.

(** The canonical numeric strings below [2^32 - 1]. *)
Definition arrayIndex (k : string) : option Z :=
  match JsNumber.parseDigits k with
  | Some n =>
      if String.eqb (JsNumber.toString n) k && (n <? 2 ^ 32 - 1) then Some n
      else None
  | None => None
  end.

Definition byIndex (a b : string) : option Z :=
  minus (arrayIndex a) (arrayIndex b).

Definition ownKeys (ks : list string) : list string :=
  sort byIndex (filter (fun k => is_Some (arrayIndex k)) ks)
  ++ filter (fun k => ¬ is_Some (arrayIndex k)) ks.

Definition keys {V} (o : t V) : list string := ownKeys (map fst o).

(** The names of the members of [Object.prototype]: functions, and the
    accessor [__proto__], whose value is the prototype itself. *)
Definition prototype : list string :=
  ["constructor"; "__defineGetter__"; "__defineSetter__"; "hasOwnProperty";
   "__lookupGetter__"; "__lookupSetter__"; "isPrototypeOf";
   "propertyIsEnumerable"; "toString"; "valueOf"; "__proto__";
   "toLocaleString"].

(** What [o[k]] yields. *)
Inductive Lookup (V : Type) : Type :=
| Own (v : V)
| Inherited (member : string)
| Undefined.
Arguments Own {V} v.
Arguments Inherited {V} member.
Arguments Undefined {V}.

Definition lookup {V} (k : string) (o : t V) : Lookup V :=
  match get k o with
  | Some v => Own v
  | None => if bool_decide (k ∈ prototype) then Inherited k else Undefined
  end.

(** [o[k] = v] for a [v] that is no object: the setter of [__proto__]
    ignores it, any other key becomes or stays an own property. *)
Definition assign {V} (k : string) (v : V) (o : t V) : t V :=
  if String.eqb k "__proto__" then o else set k v o.

End Obj.

(** ** Spreadsheet values

    The workbook library is a capability of the page; a sheet is the array of
    arrays handed to it, each cell a value with its number format.  Fonts,
    borders and fills do not bear on any value and are left out. *)

Inductive Value : Type :=
| VStr (s : string)
| VNum (n : Z)
| VDate (d : JsDate.t)
| VMember (name : string)
| VUndefined.

Record Cell : Type := mkCell {
  v : Value;
  z : option string
}.

Definition Sheet : Type := list (list Cell).
Definition Workbook : Type := list (string * Sheet).

Inductive Effect : Type :=
| Alert (message : string)
| WriteFile (wb : Workbook) (filename : string).

Definition plain (x : Value) : Cell := mkCell x None.
Definition formatted (fmt : string) (x : Value) : Cell := mkCell x (Some fmt).

Inductive TemplateType : Type := standard | upload.

(** ** Upload template *)

Definition uploadHeaders : list string :=
  ["REVENUE ITEM"; "DATE OF PAYMENT"; "AMOUNT PAID"; "RECEIPT NUMBER"; "PERIOD OF PAYMENT"].

Definition monthMap : Obj.t string :=
  [("Jan", "JANUARY"); ("Feb", "FEBRUARY"); ("Mar", "MARCH"); ("Apr", "APRIL");
   ("May", "MAY"); ("Jun", "JUNE"); ("Jul", "JULY"); ("Aug", "AUGUST");
   ("Sep", "SEPTEMBER"); ("Oct", "OCTOBER"); ("Nov", "NOVEMBER"); ("Dec", "DECEMBER");
   ("jan", "JANUARY"); ("feb", "FEBRUARY"); ("mar", "MARCH"); ("apr", "APRIL");
   ("may", "MAY"); ("jun", "JUNE"); ("jul", "JULY"); ("aug", "AUGUST");
   ("sep", "SEPTEMBER"); ("oct", "OCTOBER"); ("nov", "NOVEMBER"); ("dec", "DECEMBER")].

Definition displayTaxType (row : ScannerResult) : string :=
  let upperTax := JsString.toUpperCase (taxType row) in
  if JsString.includes upperTax "LAGOS REVENUE PAYMENT"
     || String.eqb upperTax "REVENUE PAYMENT"
     || String.eqb upperTax "REVENUE RECEIPT"
  then "PAYE"
  else taxType row.

Definition isPaye (row : ScannerResult) : bool :=
  JsString.includes (JsString.toUpperCase (displayTaxType row)) "PAYE".

(** [monthMap[k]]: the name of the month, or a member that [monthMap]
    inherits from [Object.prototype], which is a function or an object and
    no string. *)
Definition monthMapAt (k : string) : Value :=
  match Obj.lookup k monthMap with
  | Obj.Own full => VStr full
  | Obj.Inherited member => VMember member
  | Obj.Undefined => VUndefined
  end.

Definition truthyValue (x : Value) : bool :=
  match x with
  | VStr s => JsString.truthy s
  | VNum n => negb (n =? 0)
  | VDate _ => true
  | VMember _ => true
  | VUndefined => false
  end.

(** [a || b] *)
Definition orValue (a b : Value) : Value := if truthyValue a then a else b.

Definition periodVal (row : ScannerResult) : Value :=
  match JsString.split "-" (paymentPeriod row) with
  | [m; y2] =>
      let y := if Nat.eqb (String.length y2) 2 then "20" +:+ y2 else y2 in
      if isPaye row then
        orValue (monthMapAt m)
          (orValue (monthMapAt (JsString.toLowerCase m))
             (VStr (JsString.toUpperCase m)))
      else VStr y
  | _ =>
      let d := JsDate.parse (paymentDate row) in
      if isPaye row then VStr (JsString.toUpperCase (JsDate.monthLong d))
      else VStr (JsDate.numToString (JsDate.getFullYear d))
  end.

Definition uploadRow (row : ScannerResult) : list Value :=
  [VStr (displayTaxType row);
   VDate (JsDate.parse (paymentDate row));
   VNum (amount row);
   VStr (receiptNumber row);
   periodVal row].

(** Column B of every row but the header gets the date format. *)
Definition uploadCells (values : list Value) : list Cell :=
  imap (fun c x => if Nat.eqb c 1 then formatted "dd/mm/yyyy" x else plain x) values.

Definition uploadSheet (sortedResults : list ScannerResult) : Sheet :=
  map (fun h => plain (VStr h)) uploadHeaders
  :: map (fun row => uploadCells (uploadRow row)) sortedResults.

(** ** Standard template *)

(** [period.match(/(\d{2,4})$/)]: the leftmost position from which two to
    four digits reach the end of the string. *)
Definition trailingDigits (period : string) : option string :=
  let candidates :=
    map (fun i => String.substring i (String.length period - i) period)
      (seq 0 (S (String.length period))) in
  head (filter (fun s => Is_true
                  (Nat.leb 2 (String.length s) && Nat.leb (String.length s) 4
                   && JsString.allChars JsString.isDigit s)) candidates).

Definition getYearFromPeriod (period : string) : string :=
  if negb (JsString.truthy period) then "Unknown"
  else match trailingDigits period with
       | Some m => if Nat.eqb (String.length m) 2 then "20" +:+ m else m
       | None => "Unknown"
       end.

(** One step of [scannerResults.forEach] filling [dataByYear]; a bucket is
    an array of its own, created on first use. *)
Definition bucket (acc : Obj.t nat * Store) (row : ScannerResult) : Obj.t nat * Store :=
  let '(dataByYear, σ) := acc in
  let year := getYearFromPeriod (paymentPeriod row) in
  match Obj.get year dataByYear with
  | Some p => (dataByYear, push p row σ)
  | None =>
      let '(p, σ) := alloc [] σ in
      (Obj.set year p dataByYear, push p row σ)
  end.

(** [acc[k] = (acc[k] || 0) + 1] on the own properties, which is what it
    does for a key that is no member of [Object.prototype]. *)
Definition increment (k : string) (o : Obj.t Z) : Obj.t Z :=
  Obj.set k (default 0 (Obj.get k o) + 1) o.

(** What a property of [companyFrequency] holds: a number, or, for a
    company named like a member of [Object.prototype], a string, namely the
    text of that member followed by a one for every row counted, since [+]
    on a function or an object and a number joins their texts. *)
Inductive Count : Type :=
| Number (n : Z)
| Text (member : string) (ones : nat).

(** A member as a string, in the words of V8: a built-in function under its
    name, the prototype as any plain object. *)
Definition memberText (member : string) : string :=
  if String.eqb member "__proto__" then "[object Object]"
  else "function "
       +:+ (if String.eqb member "constructor" then "Object" else member)
       +:+ "() { [native code] }".

Fixpoint ones (n : nat) : string :=
  match n with
  | O => EmptyString
  | S n' => String "1" (ones n')
  end.

(** [companyFrequency[name] = (companyFrequency[name] || 0) + 1] *)
Definition tally (name : string) (freq : Obj.t Count) : Obj.t Count :=
  Obj.assign name
    (match Obj.lookup name freq with
     | Obj.Own (Number n) => Number (n + 1)
     | Obj.Own (Text member k) => Text member (S k)
     | Obj.Inherited member => Text member 1
     | Obj.Undefined => Number 1
     end) freq.

Definition shortCode (taxType : string) : string :=
  let t := JsString.toUpperCase taxType in
  if JsString.includes t "WHT" || JsString.includes t "WITHHOLDING" then "WHT"
  else if JsString.includes t "VAT" || JsString.includes t "VALUE ADDED" then "VAT"
  else if JsString.includes t "PAYE" || JsString.includes t "PAY AS YOU EARN" then "PAYE"
  else if JsString.includes t "CIT" || JsString.includes t "COMPANY INCOME" then "CIT"
  else if JsString.includes t "EDT" || JsString.includes t "EDUCATION" then "EDT"
  else "TAX".

(** [set.add(x)] on a [Set] listed in insertion order. *)
Definition Set_add (x : string) (s : list string) : list string :=
  if bool_decide (x ∈ s) then s else s ++ [x].

Definition companyFrequency (rows : list ScannerResult) : Obj.t Count :=
  fold_left (fun acc row =>
               if JsString.truthy (companyName row) then tally (companyName row) acc
               else acc) rows [].

Definition extractedTaxTypes (rows : list ScannerResult) : list string :=
  fold_left (fun acc row =>
               if JsString.truthy (taxType row) then Set_add (shortCode (taxType row)) acc
               else acc) rows [].

(** [counts[a] > counts[b]], false when either is undefined. *)
Definition greater (counts : Obj.t Z) (a b : string) : bool :=
  match Obj.get a counts, Obj.get b counts with
  | Some x, Some y => y <? x
  | _, _ => false
  end.

Definition pick (counts : Obj.t Z) (a b : string) : string :=
  if greater counts a b then a else b.

(** The counts for the title of a sheet, on own properties. *)
Definition companyCounts (sheetData : list ScannerResult) : Obj.t Z :=
  fold_left (fun acc row => increment (JsString.orElse (companyName row) "Unknown") acc)
    sheetData [].

Definition titleName (sheetData : list ScannerResult) : string :=
  let counts := companyCounts sheetData in
  fold_left (pick counts) (Obj.keys counts) "NASD PLC".

(** [sheetData.reduce((sum, row) => sum + (row.amount || 0), 0)]: the sum
    of the integers, which the additions of the code give while the
    magnitudes add up to at most 2^53 - 1. *)
Definition total (sheetData : list ScannerResult) : Z :=
  fold_left (fun sum row => sum + amount row) sheetData 0.

Definition standardHeaders : list string :=
  ["PAYMENT DATE"; "PERIOD"; "RECEIPT NUMBER"; "TAX TYPE"; "AMOUNT [N]"].

Definition standardRow (row : ScannerResult) : list Cell :=
  [(if JsString.truthy (paymentDate row)
    then formatted "dd/mm/yyyy" (VDate (JsDate.parse (paymentDate row)))
    else plain VUndefined);
   plain (VStr (paymentPeriod row));
   plain (VStr (receiptNumber row));
   plain (VStr (taxType row));
   formatted "#,##0.00" (VNum (amount row))].

(** Rows 1 to 4, the data from row 5, a spacer and the total row. *)
Definition standardSheet (year : string) (sheetData : list ScannerResult) : Sheet :=
  [ [plain (VStr (titleName sheetData))];
    [plain (VStr ("REMITTANCE SCHEDULE FOR " +:+ year))];
    [];
    map (fun h => plain (VStr h)) standardHeaders ]
  ++ map standardRow sheetData
  ++ [ [];
       [plain (VStr ""); plain (VStr ""); plain (VStr ""); plain (VStr "Total");
        formatted "#,##0.00" (VNum (total sheetData))] ].

(** One step of [for (const year in dataByYear)]: the bucket is sorted in
    place and its sheet appended to the workbook. *)
Definition addSheet (dataByYear : Obj.t nat) (acc : Store * Workbook) (year : string)
  : Store * Workbook :=
  let '(σ, wb) := acc in
  match Obj.get year dataByYear with
  | Some p =>
      let σ := sortInPlace p σ in
      (σ, wb ++ [("Remittance " +:+ year, standardSheet year (deref σ p))])
  | None => (σ, wb)
  end.

(** What [>] compares: a number, a string, or [undefined]. *)
Definition primitive (x : Obj.Lookup Count) : option (Z + string) :=
  match x with
  | Obj.Own (Number n) => Some (inl n)
  | Obj.Own (Text member k) => Some (inr (memberText member +:+ ones k))
  | Obj.Inherited member => Some (inr (memberText member))
  | Obj.Undefined => None
  end.

(** [x > y]: two numbers by value, two strings by code units; a string of
    the kind held here is no numeral, so that against a number, as with
    [undefined], the comparison is one with NaN. *)
Definition more (x y : Obj.Lookup Count) : bool :=
  match primitive x, primitive y with
  | Some (inl n), Some (inl m) => m <? n
  | Some (inr s), Some (inr t) =>
      match String.compare s t with
      | Gt => true
      | _ => false
      end
  | _, _ => false
  end.

(** [(a, b) => companyFrequency[a] > companyFrequency[b] ? a : b] *)
Definition prefer (freq : Obj.t Count) (a b : string) : string :=
  if more (Obj.lookup a freq) (Obj.lookup b freq) then a else b.

Definition dominantCompany (rows : list ScannerResult) : string :=
  let freq := companyFrequency rows in
  match Obj.keys freq with
  | [] => "Unknown_Company"
  | a :: companyNames => fold_left (prefer freq) companyNames a
  end.

Definition allowed (c : ascii) : bool :=
  JsString.isLower c || JsString.isUpper c || JsString.isDigit c || JsString.isSpace c.

(** [replace(/[^a-zA-Z0-9\s]/g, "").trim().replace(/\s+/g, "_")] *)
Definition sanitize (s : string) : string :=
  JsString.collapseSpaces false (JsString.trim (JsString.filterChars allowed s)).

Definition taxTypesStr (rows : list ScannerResult) : string :=
  JsString.orElse (JsString.join "_" (sort byCodeUnits (extractedTaxTypes rows)))
    "Remittance".

Definition filenameBase (rows : list ScannerResult) : string :=
  sanitize (dominantCompany rows) +:+ "_" +:+ taxTypesStr rows +:+ "_Schedule".

Definition standardFilename (rows : list ScannerResult) : string :=
  filenameBase rows +:+ ".xlsx".

(** ** [downloadScannerExcel] *)

Definition withStore (app : App) (σ : Store) : App :=
  mkApp (ai app) (XLSX app) (selectedFiles app) (scannerIsLoading app)
    (scannerResults app) (scannerMessages app) (showDownloadModal app) σ.

Definition downloadScannerExcel (templateType : TemplateType) (app : App)
  : App * list Effect :=
  if negb (XLSX app) then (app, [Alert "Excel library not found!"])
  else
    match templateType with
    | upload =>
        let '(p, σ) := alloc (ledger app) (store app) in
        let σ := sortInPlace p σ in
        let ws := uploadSheet (deref σ p) in
        (withStore app σ, [WriteFile [("Upload", ws)] "Lagos_State_Upload_Schedule.xlsx"])
    | standard =>
        let '(dataByYear, σ) := fold_left bucket (ledger app) ([], store app) in
        let filename := standardFilename (deref σ (scannerResults app)) in
        let '(σ, wb) := fold_left (addSheet dataByYear) (Obj.keys dataByYear) (σ, []) in
        (withStore app σ, [WriteFile wb filename])
    end.

(** ** The download controls *)

(** [{scannerResults.length > 0 && (... Download Schedule ...)}] *)
Definition downloadButtonRendered (app : App) : bool :=
  (0 <? length (ledger app))%nat.

Definition handleDownloadClick (app : App) : App :=
  mkApp (ai app) (XLSX app) (selectedFiles app) (scannerIsLoading app)
    (scannerResults app) (scannerMessages app) true (store app).

Definition handleDownloadConfirm (templateType : TemplateType) (app : App)
  : App * list Effect :=
  downloadScannerExcel templateType
    (mkApp (ai app) (XLSX app) (selectedFiles app) (scannerIsLoading app)
       (scannerResults app) (scannerMessages app) false (store app)).

(** ** Notions used to state the properties *)

(** The extraction of a file that reaches the duplicate check, with its
    receipt number: the file passes the size and media-type checks, the
    service returns an object, its company name is truthy and its receipt
    number is there. *)
Definition admissible (f : File.t) : option (Raw.t * string) :=
  if maxSize <? File.size f then None
  else if negb (bool_decide (File.type f ∈ acceptedTypes)) then None
  else match callScannerGeminiAPI f with
       | Threw _ => None
       | Parsed result =>
           if present (Raw.companyName result)
           then (fun receiptNumber => (result, receiptNumber)) <$> Raw.receiptNumber result
           else None
       end.

(** The five things that can happen to a document, and their tags. *)
Inductive Outcome : Type :=
| Oversized
| RejectedType
| ExtractionFailed
| Duplicate
| Accepted.

Definition classify (seen : gset string) (f : File.t) : Outcome :=
  if maxSize <? File.size f then Oversized
  else if negb (bool_decide (File.type f ∈ acceptedTypes)) then RejectedType
  else match admissible f with
       | None => ExtractionFailed
       | Some (result, receiptNumber) =>
           if bool_decide (uniqueKey receiptNumber (Raw.amount result) ∈ seen)
           then Duplicate else Accepted
       end.

Definition tag (o : Outcome) : MessageType :=
  match o with
  | Oversized | RejectedType | Duplicate => warning
  | ExtractionFailed => error
  | Accepted => success
  end.


(** The day number of a date, counted in years that begin in March and in
    cycles of 400 years, which is how [JsDate.civil] takes it apart. *)
Definition shifted (y m d : Z) : Z :=
  let Y := if m <=? 1 then y - 1 else y in
  let mp := if m <=? 1 then m + 10 else m - 2 in
  (Y / 400) * 146097
  + ((Y mod 400) * 365 + (Y mod 400) / 4 - (Y mod 400) / 100
     + ((153 * mp + 2) / 5 + d - 1)).

(** The month before the one of the date has the day of the date. *)
Definition precedingMonthHasDay (y m d : Z) : Prop :=
  m = 0 \/ d <= JsDate.daysInMonth y (m - 1).

(** The period the specification asks for when it has to be derived: the
    month before the one of the payment date, December of the previous year
    for a January date. *)
Definition precedingMonthPeriod (paymentDate : string) : string :=
  let date := JsDate.parse paymentDate in
  match JsDate.getFullYear date, JsDate.getMonth date with
  | Some y, Some m =>
      let '(y', m') := if m =? 0 then (y - 1, 11) else (y, m - 1) in
      default "" (JsDate.shortMonths !! Z.to_nat m') +:+ "-"
      +:+ JsString.sliceLast 2 (JsNumber.toString y')
  | _, _ => ""
  end.

(** The identity key of an extraction that reaches the duplicate check. *)
Definition keyOf (e : Raw.t * string) : string := uniqueKey e.2 (Raw.amount e.1).

Definition duplicateWarning (receiptNumber : string) (f : File.t) : Message.t :=
  Message.mk ("Duplicate Receipt skipped: " +:+ receiptNumber +:+ " in " +:+ File.name f)
    warning.


(** Of the extractions that reach the duplicate check, the first one of
    every identity key. *)
Fixpoint firstByKey (seen : list string) (es : list (Raw.t * string)) : list Raw.t :=
  match es with
  | [] => []
  | e :: es' =>
      if bool_decide (keyOf e ∈ seen) then firstByKey seen es'
      else e.1 :: firstByKey (keyOf e :: seen) es'
  end.

(** A row whose payment date is a date, and the time value it stands for. *)
Definition validDate (row : ScannerResult) : Prop := is_Some (time row).
Definition timeOf (row : ScannerResult) : Z := default 0 (time row).

(** Ascending order of a numeric key, and of payment dates. *)
Definition ascending {A : Type} (key : A -> Z) (x y : A) : Prop := key x <= key y.

Definition notAfter : ScannerResult -> ScannerResult -> Prop := ascending timeOf.

(** The rows admitted by the loop, in admission order. *)
Definition accepted (files : list File.t) : list ScannerResult :=
  map asScannerResult (results (scan files)).

(** What an export may do to the store: arrays that were there stay as they
    are, and every bucket lies beyond them. *)
Definition preserves (σ0 σ : Store) : Prop := take (length σ0) σ = σ0.

Definition fresh (σ0 : Store) (dataByYear : Obj.t nat) : Prop :=
  forall year p, Obj.get year dataByYear = Some p -> (length σ0 <= p)%nat.

(** The sheets of the workbooks that a list of effects writes. *)
Definition written (effects : list Effect) : Workbook :=
  flat_map (fun e => match e with
                     | WriteFile wb _ => wb
                     | Alert _ => []
                     end) effects.

(** Column [c] of some rows of a sheet, as values. *)
Definition column (c : nat) (rows : list (list Cell)) : list (option Value) :=
  map (fun cells => v <$> cells !! c) rows.

(** The fourth row of a sheet, as values. *)
Definition row4 (sheet : Sheet) : option (list Value) := map v <$> sheet !! 3%nat.

(** A sheet whose fourth row is the header row of the standard template. *)
Definition sheetOk (sheet : string * Sheet) : Prop :=
  row4 sheet.2 = Some (map VStr standardHeaders).

(** No file is written. *)
Definition noArtifact (effects : list Effect) : Prop :=
  forall wb filename, WriteFile wb filename ∉ effects.

(** The header row of a year sheet as the specification lists it. *)
Definition listedHeaders : list string :=
  ["PAYMENT DATE"; "PERIOD"; "RECEIPT NUMBER"; "TAX TYPE"; "AMOUNT"].



Definition countOf (counts : Obj.t Z) (k : string) : Z := default 0 (Obj.get k counts).

(** How many of the rows name the company. *)
Definition named (name : string) (rows : list ScannerResult) : Z :=
  Z.of_nat (length (filter (fun row => companyName row = name) rows)).

(** [r] is the last of the keys with the largest count. *)
Definition lastLargest (counts : Obj.t Z) (ks : list string) (r : string) : Prop :=
  exists before after,
    ks = before ++ r :: after
    /\ Forall (fun k => countOf counts k <= countOf counts r) before
    /\ Forall (fun k => countOf counts k < countOf counts r) after.

(** [a] has a larger count than each of the keys. *)
Definition beats (counts : Obj.t Z) (ks : list string) (a : string) : Prop :=
  Forall (fun k => greater counts a k = true) ks.



(** The position of a month among the three-letter abbreviations, letter
    case set aside. *)
Fixpoint findIndex (p : string -> bool) (l : list string) (i : nat) : option nat :=
  match l with
  | [] => None
  | x :: l' => if p x then Some i else findIndex p l' (S i)
  end.





(** Text of ASCII characters, for which [toUpperCase] is the conversion of
    the letters a to z. *)
Definition isAscii (s : string) : bool :=
  JsString.allChars (fun c => (JsString.code c <? 128)%N) s.

(** A row that has a tax type and a period, as [normalize] leaves every
    row whose reply names a tax type and a period or a payment date. *)
Definition hasTaxAndPeriod (row : ScannerResult) : Prop :=
  JsString.truthy (taxType row) = true /\ JsString.truthy (paymentPeriod row) = true.

(** A payment date of the form YYYY-MM-DD that is a date of the calendar. *)
Definition calendarDate (row : ScannerResult) : Prop :=
  is_Some (JsDate.isoFields (paymentDate row)).

(** The integers that a JavaScript number holds, prints and adds exactly. *)
Definition maxSafeInteger : Z := 2 ^ 53 - 1.




(** A name that no member of [Object.prototype] bears. *)
Definition plainName (name : string) : Prop := name ∉ Obj.prototype.

(** A dictionary of numbers as [companyFrequency] holds it. *)
Definition numbered (o : Obj.t Z) : Obj.t Count :=
  map (fun kv => (kv.1, Number kv.2)) o.

(** The rows counted by company on own properties alone. *)
Definition plainFrequency (rows : list ScannerResult) : Obj.t Z :=
  fold_left (fun acc row =>
               if JsString.truthy (companyName row) then increment (companyName row) acc
               else acc) rows [].


(** The company part of the file name when no row names a company, as the
    specification gives it. *)
Definition listedFallbackBase (codes : string) : string :=
  "Unknown_Company" +:+ "_" +:+ codes +:+ "_Schedule".

(** The year sheet a row belongs to, the years of a ledger in the order in
    which they are first met, and the rows of one year in ledger order. *)
Definition yearOf (row : ScannerResult) : string :=
  getYearFromPeriod (paymentPeriod row).

Definition firstSeen (l : list string) : list string := fold_left (fun s x => Set_add x s) l [].

Definition rowsOfYear (year : string) (rows : list ScannerResult) : list ScannerResult :=
  filter (fun row => yearOf row = year) rows.

(** The workbook of the standard template as a function of the ledger: one
    sheet per year, in key order, over the rows of that year sorted by date. *)
Definition standardWorkbook (rows : list ScannerResult) : Workbook :=
  map (fun year => ("Remittance " +:+ year,
                    standardSheet year (sort byPaymentDate (rowsOfYear year rows))))
    (Obj.ownKeys (firstSeen (map yearOf rows))).

(** What the loop over the ledger has built after the rows [done]: the
    buckets are listed in the order their years were first met, each bucket
    is an array of its own in the store and holds the rows of its year. *)
Definition bucketed (σ0 : Store) (done : list ScannerResult)
    (acc : Obj.t nat * Store) : Prop :=
  map fst acc.1 = firstSeen (map yearOf done)
  /\ (forall year p, Obj.get year acc.1 = Some p ->
        (length σ0 <= p)%nat /\ acc.2 !! p = Some (rowsOfYear year done))
  /\ (forall y1 y2 p, Obj.get y1 acc.1 = Some p -> Obj.get y2 acc.1 = Some p -> y1 = y2)
  /\ preserves σ0 acc.2.

(** ** Sample data *)

Module Sample.

Definition extraction (company date receipt tax : string) (period : option string)
    (amount : Z) : Raw.t :=
  Raw.mk (Some company) (Some date) None period (Some receipt) (Some tax) (Some amount).

Definition png (name : string) (data : Raw.t) : File.t :=
  File.mk name 2048 "image/png" (Parsed data).

(** Two receipts whose numbers and amounts both differ. *)
Definition hyphenA : Raw.t := extraction "Acme" "2024-02-10" "A-" "VAT" (Some "Jan-24") 5.

(** The same receipt scanned twice, the second time with other details. *)
Definition first : Raw.t := extraction "Acme" "2024-02-10" "R1" "VAT" (Some "Jan-24") 950.
Definition again : Raw.t := extraction "Beta" "2024-03-11" " R1 " "PAYE" (Some "Feb-24") 950.
Definition other : Raw.t := extraction "Beta" "2024-01-05" "R2" "PAYE" (Some "Dec-23") 950.

Definition sameDay : Raw.t := extraction "Acme" "2024-02-10" "R3" "WHT" (Some "Jan-24") 10.

(** A payment on the last day of March, its period left out. *)
Definition endOfMarch : Raw.t :=
  Raw.mk (Some "Acme") (Some "2024-03-31") None None (Some "R7") (Some "PAYE") (Some 100).

Definition app (files : list File.t) : App :=
  mkApp (Some (Client "key")) true files false 0 [] false [[]].

(** A component whose ledger holds the given rows. *)
Definition withLedger (rows : list ScannerResult) : App :=
  mkApp (Some (Client "key")) true [] false 0 [] false [rows].

Definition row (company date period receipt tax : string) (amount : Z) : ScannerResult :=
  mkScannerResult company date (displayDate date) period receipt tax amount.

End Sample.

(** ** Reading a file, choosing files, starting up *)

(** [fileToBase64]: what the promise resolves to once the reader holds the
    data URL [result], that is [result.split(',')[1]]; [None] is
    [undefined]. *)
Definition fileToBase64 (result : string) : option string :=
  JsString.split "," result !! 1%nat.

(** The state that the [useState] calls set up. *)
Definition initial (XLSX : bool) : App :=
  mkApp None XLSX [] false 0 [] false [[]].

(** [useEffect(() => { if (process.env.API_KEY) setAi(...) }, [])] *)
Definition mount (API_KEY : option string) (app : App) : App :=
  match API_KEY with
  | Some key =>
      if JsString.truthy key
      then mkApp (Some (Client key)) (XLSX app) (selectedFiles app)
             (scannerIsLoading app) (scannerResults app) (scannerMessages app)
             (showDownloadModal app) (store app)
      else app
  | None => app
  end.

(** [handleFileChange(files)]: [None] is [null]; the new ledger is a new
    empty array. *)
Definition handleFileChange (files : option (list File.t)) (app : App) : App :=
  match files with
  | None => app
  | Some files =>
      let '(p, σ) := alloc [] (store app) in
      mkApp (ai app) (XLSX app) files (scannerIsLoading app) p []
        (showDownloadModal app) σ
  end.

(** [handleDrop]: the files of the drop go to [handleFileChange]. *)
Definition handleDrop (files : option (list File.t)) (app : App) : App :=
  handleFileChange files app.

Definition processFiles (app : App) : App := processReceipts app.

(** [disabled={selectedFiles.length === 0 || scannerIsLoading}] *)
Definition processDisabled (app : App) : bool :=
  Nat.eqb (length (selectedFiles app)) 0 || scannerIsLoading app.

(** ** Further notions used to state properties *)

Definition notComma (c : ascii) : bool := negb (Ascii.eqb c ",").

(** The identity key of a row that the loop has pushed. *)
Definition rawKey (r : Raw.t) : string :=
  uniqueKey (default "" (Raw.receiptNumber r)) (Raw.amount r).

#[global] Instance MessageType_eq_dec : EqDecision MessageType.
Proof. solve_decision. Defined.

(** The messages that report an admitted file. *)
Definition successes (ms : list Message.t) : list Message.t :=
  filter (fun m => Message.type m = success) ms.

(** The first character of a string is the digit zero. *)
Definition leadingZero (s : string) : bool :=
  match s with
  | String c _ => Ascii.eqb c "0"
  | EmptyString => false
  end.

(** The last character of a string. *)
Fixpoint lastChar (s : string) : option ascii :=
  match s with
  | EmptyString => None
  | String c EmptyString => Some c
  | String _ s' => lastChar s'
  end.

(** The string ends in a character that is not a digit, or is empty. *)
Definition endsWithoutDigit (s : string) : bool :=
  match lastChar s with
  | Some c => negb (JsString.isDigit c)
  | None => true
  end.

Definition sumZ (l : list Z) : Z := foldr Z.add 0 l.

(** Reading a year sheet back: its data rows lie between the four heading
    rows and the spacer and total rows; the total is the number in the last
    cell of the last row. *)
Definition dataRows (sheet : Sheet) : list (list Cell) :=
  take (length sheet - 6) (drop 4 sheet).

Definition numberOf (c : option Cell) : option Z :=
  match c with
  | Some (mkCell (VNum n) _) => Some n
  | _ => None
  end.

Definition totalOf (sheet : Sheet) : option Z :=
  last sheet ≫= (fun row => numberOf (last row)).

Definition amountOf (row : list Cell) : Z := default 0 (numberOf (row !! 4%nat)).

(** The numeric value of a year. *)
Definition yearNumber (year : string) : Z := default 0 (JsNumber.parseDigits year).

(** Characters of a word: letters, digits and the underscore. *)
Definition isAlnum (c : ascii) : bool :=
  JsString.isLower c || JsString.isUpper c || JsString.isDigit c.

Definition isWord (c : ascii) : bool := isAlnum c || Ascii.eqb c "_".

Definition sheetSafe (c : ascii) : bool := isAlnum c || Ascii.eqb c " ".

(** The six codes of the file name, in the order of [sort()]. *)
Definition taxCodes : list string := ["CIT"; "EDT"; "PAYE"; "TAX"; "VAT"; "WHT"].

(** The file names of the files that a list of effects writes. *)
Definition filenames (effects : list Effect) : list string :=
  flat_map (fun e => match e with
                     | WriteFile _ filename => [filename]
                     | Alert _ => []
                     end) effects.

(** The year sheets of a ledger as groups of rows. *)
Definition sheetOf (group : string * list ScannerResult) : string * Sheet :=
  ("Remittance " +:+ group.1, standardSheet group.1 group.2).

(** Two to four characters, all of them digits: what [\d{2,4}] matches. *)
Definition yearDigits (s : string) : bool :=
  Nat.leb 2 (String.length s) && Nat.leb (String.length s) 4
  && JsString.allChars JsString.isDigit s.

(** The rows of a ledger grouped by year: the years in the key order of
    [dataByYear], each with its rows in the order of the sort. *)
Definition yearGroups (rows : list ScannerResult) : list (string * list ScannerResult) :=
  map (fun year => (year, sort byPaymentDate (rowsOfYear year rows)))
    (Obj.ownKeys (firstSeen (map yearOf rows))).

(** A year as the sheets are ordered by it: it is an array index. *)
Definition numericYear (year : string) : Prop := is_Some (Obj.arrayIndex year).

(** Words of letters and digits with single underscores between them: no
    underscore at either end and no two in a row.  The flag says that the
    character before was an underscore, or that there was none. *)
Fixpoint words (afterUnderscore : bool) (s : string) : bool :=
  match s with
  | EmptyString => negb afterUnderscore
  | String c s' =>
      if Ascii.eqb c "_" then negb afterUnderscore && words true s'
      else isAlnum c && words false s'
  end.

Definition underscoredWords (s : string) : bool :=
  match s with
  | EmptyString => true
  | _ => words true s
  end.

(** The string does not end in white space. *)
Definition endsWithoutSpace (s : string) : bool :=
  match lastChar s with
  | Some c => negb (JsString.isSpace c)
  | None => true
  end.

(** A file whose reply, if there is one, states the payment date [date]
    in place of its own. *)
Definition redate (date : option string) (f : File.t) : File.t :=
  match File.reply f with
  | Threw _ => f
  | Parsed data =>
      File.mk (File.name f) (File.size f) (File.type f)
        (Parsed (Raw.mk (Raw.companyName data) date (Raw.paymentDateDisplay data)
                   (Raw.paymentPeriod data) (Raw.receiptNumber data)
                   (Raw.taxType data) (Raw.amount data)))
  end.

(** What a reply says of the payment, the date apart. *)
Definition undated (r : Raw.t) : option string * option string * option string * option Z :=
  (Raw.companyName r, Raw.receiptNumber r, Raw.taxType r, Raw.amount r).

(** A row as a complete reply about a company leaves it: a company whose
    name no member of [Object.prototype] bears, a payment date that is a
    calendar date written YYYY-MM-DD, a tax type, a period and an amount
    above zero, the company and the tax type in ASCII characters.  On such
    rows the embedding and the code agree field by field. *)
Definition wellFormed (row : ScannerResult) : Prop :=
  JsString.truthy (companyName row) = true
  /\ plainName (companyName row)
  /\ isAscii (companyName row) = true
  /\ calendarDate row
  /\ hasTaxAndPeriod row
  /\ isAscii (taxType row) = true
  /\ 0 < amount row.

(** The amounts of the rows add up within the integers that a JavaScript
    number adds exactly. *)
Definition safeTotal (rows : list ScannerResult) : Prop :=
  sumZ (map (fun row => Z.abs (amount row)) rows) <= maxSafeInteger.

(** The place of a code among the six codes. *)
Definition codeRank (code : string) : Z :=
  Z.of_nat (default 6%nat (findIndex (String.eqb code) taxCodes 0)).

(** * Properties *)

(** ** Strings and numbers *)

Local Arguments String.append : simpl nomatch.

Lemma append_assoc (a b c : string) : (a +:+ b) +:+ c = a +:+ b +:+ c.
Proof. induction a as [|x a IH]; simpl; [reflexivity | now f_equal]. Qed.

Lemma prefix_append (a b : string) : String.prefix a (a +:+ b) = true.
Proof.
  induction a as [|x a IH]; simpl.
  - now destruct b.
  - destruct (Ascii.ascii_dec x x); [exact IH | congruence].
Qed.

Lemma includes_unfold (s sub : string) :
  JsString.includes s sub
  = String.prefix sub s
    || match s with
       | EmptyString => false
       | String _ s' => JsString.includes s' sub
       end.
Proof. destruct s; reflexivity. Qed.

Lemma includes_here (a b : string) : JsString.includes (a +:+ b) a = true.
Proof. rewrite includes_unfold, prefix_append. reflexivity. Qed.

Lemma includes_later (p s sub : string) :
  JsString.includes s sub = true -> JsString.includes (p +:+ s) sub = true.
Proof.
  intros H. induction p as [|x p IH]; [exact H|].
  rewrite includes_unfold. simpl. rewrite IH. apply orb_true_r.
Qed.

Lemma includes_middle (a b c : string) : JsString.includes (a +:+ b +:+ c) b = true.
Proof. apply includes_later, includes_here. Qed.

Lemma append_empty_r (a : string) : a +:+ "" = a.
Proof. induction a as [|x a IH]; simpl; [reflexivity | now f_equal]. Qed.

Lemma includes_end (a b : string) : JsString.includes (a +:+ b) b = true.
Proof.
  apply includes_later. rewrite <- (append_empty_r b) at 1. apply includes_here.
Qed.



Lemma digitsAux_S (fuel : nat) (n : Z) (acc : string) :
  JsNumber.digitsAux (S fuel) n acc
  = if n <? 10 then String (JsNumber.digitChar (n `mod` 10)) acc
    else JsNumber.digitsAux fuel (n `div` 10)
           (String (JsNumber.digitChar (n `mod` 10)) acc).
Proof. reflexivity. Qed.

Lemma digitsAux_acc (fuel : nat) (n : Z) (acc : string) :
  JsNumber.digitsAux fuel n acc = JsNumber.digitsAux fuel n "" +:+ acc.
Proof.
  revert n acc. induction fuel as [|fuel IH]; intros n acc; simpl; [reflexivity|].
  destruct (n <? 10); [reflexivity|].
  rewrite IH, (IH _ (String _ "")), append_assoc. reflexivity.
Qed.

Lemma allChars_append (p : ascii -> bool) (a b : string) :
  JsString.allChars p (a +:+ b) = JsString.allChars p a && JsString.allChars p b.
Proof.
  induction a as [|x a IH]; simpl; [reflexivity|].
  rewrite IH. now rewrite andb_assoc.
Qed.







(** ** Identity keys *)








(** ** The receipt loop *)

Lemma step_admissible (s : Scan) (f : File.t) (e : Raw.t * string) :
  admissible f = Some e ->
  step s f =
    if bool_decide (keyOf e ∈ uniqueKeys s)
    then say s (duplicateWarning e.2 f)
    else mkScan ({[keyOf e]} ∪ uniqueKeys s) (results s ++ [e.1])
           (messages s ++ [Message.mk ("Successfully processed: " +:+ File.name f) success]).
Proof.
  unfold admissible, step.
  destruct (maxSize <? File.size f); [discriminate|].
  destruct (negb (bool_decide (File.type f ∈ acceptedTypes))); [discriminate|].
  destruct (callScannerGeminiAPI f) as [msg | result]; [discriminate|].
  destruct (present (Raw.companyName result)); [|discriminate].
  destruct (Raw.receiptNumber result) as [rn|]; [|discriminate].
  simpl. intros [= <-]. reflexivity.
Qed.

Lemma step_not_admissible (s : Scan) (f : File.t) :
  admissible f = None ->
  exists m, step s f = say s m.
Proof.
  unfold admissible, step.
  destruct (maxSize <? File.size f); [eauto|].
  destruct (negb (bool_decide (File.type f ∈ acceptedTypes))); [eauto|].
  destruct (callScannerGeminiAPI f) as [msg | result]; [unfold failed; eauto|].
  destruct (present (Raw.companyName result)); [|unfold failed; eauto].
  destruct (Raw.receiptNumber result) as [rn|]; [discriminate|].
  unfold failed; eauto.
Qed.

(** Every iteration appends exactly one message: it names the file and
    carries the tag of what happened to the file. *)
Lemma step_message (s : Scan) (f : File.t) :
  exists m,
    messages (step s f) = messages s ++ [m]
    /\ JsString.includes (Message.text m) (File.name f) = true
    /\ Message.type m = tag (classify (uniqueKeys s) f).
Proof.
  assert (forall a b c, JsString.includes (a +:+ b +:+ c +:+ File.name f) (File.name f)
                        = true) as Hlast.
  { intros a b c. apply includes_later, includes_later, includes_end. }
  unfold classify. destruct (admissible f) as [[result rn]|] eqn:Ha.
  - rewrite (step_admissible s f _ Ha).
    unfold admissible in Ha.
    destruct (maxSize <? File.size f); [discriminate|].
    destruct (negb (bool_decide (File.type f ∈ acceptedTypes))); [discriminate|].
    unfold keyOf, duplicateWarning, say; cbn [fst snd].
    destruct (bool_decide (uniqueKey rn (Raw.amount result) ∈ uniqueKeys s));
      (eexists; split; [reflexivity|]; split; [|reflexivity]);
      cbn [Message.text]; [apply Hlast | apply includes_end].
  - unfold admissible in Ha. unfold step, failed, say.
    destruct (maxSize <? File.size f).
    { eexists; split; [reflexivity|]. split; [|reflexivity]. apply includes_end. }
    destruct (negb (bool_decide (File.type f ∈ acceptedTypes))).
    { eexists; split; [reflexivity|]. split; [|reflexivity]. apply includes_middle. }
    destruct (callScannerGeminiAPI f) as [msg | result].
    { eexists; split; [reflexivity|]. split; [|reflexivity]. apply includes_middle. }
    destruct (present (Raw.companyName result)).
    + destruct (Raw.receiptNumber result) as [rn|]; [discriminate|].
      eexists; split; [reflexivity|]. split; [|reflexivity]. apply includes_middle.
    + eexists; split; [reflexivity|]. split; [|reflexivity]. apply includes_middle.
Qed.

Lemma scan_snoc (files : list File.t) (f : File.t) :
  scan (files ++ [f]) = step (scan files) f.
Proof. unfold scan. now rewrite fold_left_app. Qed.

Lemma messages_fold (files : list File.t) (s : Scan) :
  exists ms, messages (fold_left step files s) = messages s ++ ms
             /\ length ms = length files.
Proof.
  revert s. induction files as [|f files IH]; intros s; simpl.
  - exists []. now rewrite app_nil_r.
  - destruct (IH (step s f)) as (ms & E & L).
    destruct (step_message s f) as (m & Em & _).
    exists (m :: ms). rewrite E, Em, <- app_assoc. simpl. now rewrite L.
Qed.

Lemma messages_scan_length (files : list File.t) :
  length (messages (scan files)) = length files.
Proof.
  destruct (messages_fold files (mkScan ∅ [] [])) as (ms & E & L).
  unfold scan. rewrite E. simpl. exact L.
Qed.

Lemma messages_scan_app (l1 l2 : list File.t) :
  exists ms, messages (scan (l1 ++ l2)) = messages (scan l1) ++ ms.
Proof.
  unfold scan. rewrite fold_left_app.
  destruct (messages_fold l2 (fold_left step l1 (mkScan ∅ [] []))) as (ms & E & _).
  eauto.
Qed.

(** The message at position [i] is the one the iteration on file [i] appends. *)
Lemma messages_scan_lookup (files : list File.t) (i : nat) (f : File.t) :
  files !! i = Some f ->
  exists m,
    messages (scan files) !! i = Some m
    /\ JsString.includes (Message.text m) (File.name f) = true
    /\ Message.type m = tag (classify (uniqueKeys (scan (take i files))) f).
Proof.
  intros Hi.
  destruct (step_message (scan (take i files)) f) as (m & Em & Hname & Htag).
  exists m. split; [|split; assumption].
  rewrite <- (take_drop_middle files i f Hi) at 1.
  replace (take i files ++ f :: drop (S i) files)
    with ((take i files ++ [f]) ++ drop (S i) files) by now rewrite <- app_assoc.
  destruct (messages_scan_app (take i files ++ [f]) (drop (S i) files)) as (ms & ->).
  rewrite scan_snoc, Em.
  assert (length (messages (scan (take i files))) = i) as Hlen.
  { rewrite messages_scan_length, length_take.
    apply lookup_lt_Some in Hi. lia. }
  rewrite lookup_app_l by (rewrite length_app, Hlen; simpl; lia).
  rewrite lookup_app_r by (rewrite Hlen; reflexivity).
  rewrite Hlen, Nat.sub_diag. reflexivity.
Qed.

Lemma uniqueKeys_step (s : Scan) (f : File.t) :
  uniqueKeys (step s f)
  = match admissible f with
    | Some e => {[keyOf e]} ∪ uniqueKeys s
    | None => uniqueKeys s
    end.
Proof.
  destruct (admissible f) as [e|] eqn:Ha.
  - rewrite (step_admissible s f e Ha). case_bool_decide as Hin; simpl; [|reflexivity].
    symmetry. apply subseteq_union_1_L, singleton_subseteq_l, Hin.
  - destruct (step_not_admissible s f Ha) as (m & ->). reflexivity.
Qed.



Lemma results_fold (files : list File.t) (s : Scan) (seen : list string) :
  (forall k, k ∈ uniqueKeys s <-> k ∈ seen) ->
  results (fold_left step files s)
  = results s ++ firstByKey seen (omap admissible files).
Proof.
  revert s seen. induction files as [|f files IH]; intros s seen Hseen; simpl.
  - now rewrite app_nil_r.
  - destruct (admissible f) as [e|] eqn:Ha.
    + rewrite (step_admissible s f e Ha). simpl.
      destruct (decide (keyOf e ∈ uniqueKeys s)) as [Hin | Hout].
      * rewrite bool_decide_true by exact Hin.
        rewrite bool_decide_true by (apply Hseen, Hin).
        apply (IH (say s (duplicateWarning e.2 f))), Hseen.
      * rewrite bool_decide_false by exact Hout.
        rewrite bool_decide_false by (rewrite <- Hseen; exact Hout).
        rewrite (IH _ (keyOf e :: seen)); simpl.
        -- now rewrite <- app_assoc.
        -- intros k. rewrite elem_of_union, elem_of_singleton, elem_of_cons, Hseen.
           reflexivity.
    + destruct (step_not_admissible s f Ha) as (m & ->). apply (IH (say s m)), Hseen.
Qed.

(** The rows pushed by the loop are the first extractions of every key, in
    the order of the files. *)
Lemma results_scan (files : list File.t) :
  results (scan files) = firstByKey [] (omap admissible files).
Proof.
  unfold scan. rewrite (results_fold files _ []); [reflexivity|].
  intros k. simpl. split; [intros H; now apply elem_of_empty in H | intros H; inversion H].
Qed.




Lemma scannerMessages_processReceipts (app : App) (client : GoogleGenAI) :
  ai app = Some client ->
  scannerMessages (processReceipts app) = messages (scan (selectedFiles app)).
Proof. intros H. unfold processReceipts. rewrite H. reflexivity. Qed.

(** C9: the loop leaves exactly one message per selected file, in the order
    of the files: the message at position [i] names file [i] and is tagged by
    what happened to that file (oversized and rejected media type: warning;
    failed extraction: error; duplicate: warning; admitted: success).  With
    the client in place these are the messages of the component. *)
Theorem one_message_per_document (files : list File.t) :
  length (messages (scan files)) = length files
  /\ (forall (i : nat) (f : File.t),
        files !! i = Some f ->
        exists m,
          messages (scan files) !! i = Some m
          /\ JsString.includes (Message.text m) (File.name f) = true
          /\ Message.type m = tag (classify (uniqueKeys (scan (take i files))) f))
  /\ (forall (app : App) (client : GoogleGenAI),
        ai app = Some client -> selectedFiles app = files ->
        scannerMessages (processReceipts app) = messages (scan files)).
Proof.
  split; [apply messages_scan_length|]. split; [apply messages_scan_lookup|].
  intros app client Hai <-. now apply (scannerMessages_processReceipts app client).
Qed.

Lemma one_message_per_document_witness :
  let files := [Sample.png "a.png" Sample.first;
                File.mk "big.pdf" 20000000 "application/pdf" (Threw "unused");
                Sample.png "b.png" Sample.again;
                File.mk "c.gif" 10 "image/gif" (Threw "unused");
                File.mk "d.pdf" 10 "application/pdf" (Threw "quota exceeded")] in
  length (scannerMessages (processReceipts (Sample.app files))) = 5%nat
  /\ map Message.type (scannerMessages (processReceipts (Sample.app files)))
     = [success; warning; warning; warning; error]
  /\ exists m, messages (scan files) !! 2%nat = Some m
               /\ JsString.includes (Message.text m) "b.png" = true
               /\ Message.type m = warning.
Proof.
  intros files.
  destruct (one_message_per_document files) as (Hlen & Hlookup & Happ).
  rewrite (Happ (Sample.app files) (Client "key") eq_refl eq_refl).
  split; [exact Hlen|]. split; [vm_compute; reflexivity|].
  destruct (Hlookup 2%nat (Sample.png "b.png" Sample.again) eq_refl)
    as (m & Hm & Hname & Htag).
  exists m. split; [exact Hm|]. split; [exact Hname|].
  rewrite Htag. vm_compute. reflexivity.
Defined.

(** ** Derived payment period *)

Example period_of_january : derivePeriod "2024-01-15" = "Dec-23".
Proof. vm_compute. reflexivity. Qed.

Example period_when_day_exists :
  derivePeriod "2024-03-29" = "Feb-24" /\ derivePeriod "2023-03-28" = "Feb-23"
  /\ derivePeriod "2024-07-30" = "Jun-24".
Proof. vm_compute. repeat split. Qed.

Example period_when_day_is_missing :
  derivePeriod "2023-03-29" = "Mar-23" /\ derivePeriod "2024-05-31" = "May-24"
  /\ derivePeriod "2023-12-31" = "Dec-23".
Proof. vm_compute. repeat split. Qed.

Example display_of_date :
  displayDate "2024-03-05" = "05/03/2024" /\ displayDate "2025-12-31" = "31/12/2025".
Proof. vm_compute. repeat split. Qed.

Example period_rendering :
  precedingMonthPeriod "2024-01-15" = "Dec-23"
  /\ precedingMonthPeriod "2024-03-31" = "Feb-24"
  /\ precedingMonthPeriod "2023-12-31" = "Nov-23".
Proof. vm_compute. repeat split. Qed.

(** C3: the period is derived by [setMonth(getMonth() - 1)], which keeps the
    day of the month.  For a payment dated 31 March 2024 the target, 31
    February, carries over to 2 March, so the period comes out as ["Mar-24"]
    and not as the preceding month ["Feb-24"]. *)
Theorem derived_period_day_overflow :
  Raw.paymentPeriod (normalize Sample.endOfMarch) = Some "Mar-24"
  /\ precedingMonthPeriod "2024-03-31" = "Feb-24"
  /\ JsDate.setMonth (JsDate.parse "2024-03-31") (Some 1) = JsDate.parse "2024-03-02".
Proof. vm_compute. repeat split. Qed.

(** ** The calendar *)

Lemma isLeap_cases (y : Z) :
  (JsDate.isLeap y = true /\ (y mod 4 = 0 /\ y mod 100 <> 0 \/ y mod 400 = 0))
  \/ (JsDate.isLeap y = false /\ ~ (y mod 4 = 0 /\ y mod 100 <> 0 \/ y mod 400 = 0)).
Proof.
  unfold JsDate.isLeap.
  destruct (Z.eqb_spec (y mod 4) 0), (Z.eqb_spec (y mod 100) 0),
    (Z.eqb_spec (y mod 400) 0); simpl; intuition lia.
Qed.

Ltac each_month m :=
  let H := fresh "Hcases" in
  assert (m = 0 \/ m = 1 \/ m = 2 \/ m = 3 \/ m = 4 \/ m = 5 \/ m = 6 \/ m = 7
          \/ m = 8 \/ m = 9 \/ m = 10 \/ m = 11) as H by lia;
  repeat (destruct H as [-> | H]); try subst m.

Lemma MakeDay_shifted (y m d : Z) :
  0 <= m <= 11 -> JsDate.MakeDay y m d + 719468 = shifted y m d.
Proof.
  intros Hm. unfold JsDate.MakeDay, shifted.
  rewrite (Z.div_small m 12), (Z.mod_small m 12), Z.add_0_r by lia.
  unfold JsDate.DayFromYear.
  destruct (isLeap_cases y) as [[Hl Hy] | [Hl Hy]]; each_month m;
    unfold JsDate.daysBeforeMonth, JsDate.daysInMonth; simpl; rewrite ?Hl; simpl;
    (Z.div_mod_to_equations; lia).
Qed.

Lemma yoe_recovered (yoe doy : Z) :
  0 <= yoe <= 399 -> 0 <= doy <= 365 ->
  (doy = 365 -> (yoe + 1) mod 4 = 0 /\ ((yoe + 1) mod 100 <> 0 \/ yoe = 399)) ->
  0 <= yoe * 365 + yoe / 4 - yoe / 100 + doy < 146097
  /\ (yoe * 365 + yoe / 4 - yoe / 100 + doy
      - (yoe * 365 + yoe / 4 - yoe / 100 + doy) / 1460
      + (yoe * 365 + yoe / 4 - yoe / 100 + doy) / 36524
      - (yoe * 365 + yoe / 4 - yoe / 100 + doy) / 146096) / 365 = yoe.
Proof. intros Hy Hd Hleap. Z.div_mod_to_equations. lia. Qed.

Lemma civil_of_parts (day era doe yoe doy mp d : Z) :
  day + 719468 = era * 146097 + doe ->
  0 <= doe < 146097 ->
  (doe - doe / 1460 + doe / 36524 - doe / 146096) / 365 = yoe ->
  doe - (365 * yoe + yoe / 4 - yoe / 100) = doy ->
  (5 * doy + 2) / 153 = mp ->
  doy - (153 * mp + 2) / 5 + 1 = d ->
  JsDate.civil day
  = (yoe + era * 400 + (if (if mp <? 10 then mp + 2 else mp - 10) <=? 1 then 1 else 0),
     if mp <? 10 then mp + 2 else mp - 10, d).
Proof.
  intros Hz Hdoe Hyoe Hdoy Hmp Hd. unfold JsDate.civil. cbv zeta.
  assert ((day + 719468) / 146097 = era) as ->
    by (symmetry; apply Z.div_unique with doe; lia).
  replace (day + 719468 - era * 146097) with doe by lia.
  rewrite Hyoe, Hdoy, Hmp, Hd. reflexivity.
Qed.

(** The calendar fields of the day number of a date are the date. *)
Lemma civil_MakeDay (y m d : Z) :
  0 <= m <= 11 -> 1 <= d <= JsDate.daysInMonth y m ->
  JsDate.civil (JsDate.MakeDay y m d) = (y, m, d).
Proof.
  intros Hm Hd.
  pose proof (MakeDay_shifted y m d Hm) as Hs. unfold shifted in Hs.
  set (Y := if m <=? 1 then y - 1 else y) in *.
  set (mp := if m <=? 1 then m + 10 else m - 2) in *.
  set (yoe := Y mod 400) in *. set (era := Y / 400) in *.
  set (doy := (153 * mp + 2) / 5 + d - 1) in *.
  assert (0 <= yoe <= 399) as Hyoe by (subst yoe; pose proof (Z.mod_pos_bound Y 400); lia).
  assert (Y = 400 * era + yoe) as HY by (subst era yoe; apply Z.div_mod; lia).
  assert (0 <= doy <= 365
          /\ (doy = 365 -> (yoe + 1) mod 4 = 0 /\ ((yoe + 1) mod 100 <> 0 \/ yoe = 399))
          /\ (5 * doy + 2) / 153 = mp
          /\ doy - (153 * mp + 2) / 5 + 1 = d
          /\ (if mp <? 10 then mp + 2 else mp - 10) = m) as (Hdoy & Hleap & Hmp & Hdd & Hmm).
  { unfold JsDate.daysInMonth in Hd. clear Hs.
    destruct (isLeap_cases y) as [[Hl Hly] | [Hl Hly]]; rewrite Hl in Hd; each_month m;
      subst doy mp era yoe Y; simpl in *;
      (Z.div_mod_to_equations; lia). }
  destruct (yoe_recovered yoe doy Hyoe Hdoy Hleap) as [Hdoe Hrec].
  rewrite (civil_of_parts (JsDate.MakeDay y m d) era
             (yoe * 365 + yoe / 4 - yoe / 100 + doy) yoe doy mp d);
    try assumption; try lia.
  rewrite Hmm. f_equal. f_equal. subst Y. destruct (m <=? 1); lia.
Qed.

Lemma daysInMonth_bounds (y m : Z) : 28 <= JsDate.daysInMonth y m <= 31.
Proof.
  unfold JsDate.daysInMonth.
  destruct (m =? 1); [destruct (JsDate.isLeap y); lia|].
  destruct ((m =? 3) || (m =? 5) || (m =? 8) || (m =? 10)); lia.
Qed.

(** A day that the month does not have is a day of the next month. *)
Lemma MakeDay_overflow (y m d : Z) :
  0 <= m <= 10 ->
  JsDate.MakeDay y m d = JsDate.MakeDay y (m + 1) (d - JsDate.daysInMonth y m).
Proof.
  intros Hm. unfold JsDate.MakeDay.
  rewrite (Z.div_small m 12), (Z.mod_small m 12),
    (Z.div_small (m + 1) 12), (Z.mod_small (m + 1) 12), Z.add_0_r by lia.
  assert (JsDate.daysBeforeMonth y (m + 1)
          = JsDate.daysBeforeMonth y m + JsDate.daysInMonth y m) as ->; [|lia].
  each_month m; try lia; unfold JsDate.daysBeforeMonth, JsDate.daysInMonth; simpl;
    destruct (JsDate.isLeap y); lia.
Qed.

(** Month -1 is December of the year before. *)
Lemma MakeDay_before_january (y d : Z) :
  JsDate.MakeDay y (-1) d = JsDate.MakeDay (y - 1) 11 d.
Proof.
  unfold JsDate.MakeDay.
  change ((-1) `div` 12) with (-1). change (11 `div` 12) with 0.
  change ((-1) `mod` 12) with 11. change (11 `mod` 12) with 11.
  replace (y + -1) with (y - 1) by lia. replace (y - 1 + 0) with (y - 1) by lia.
  reflexivity.
Qed.

Lemma isoFields_valid (s : string) (y m d : Z) :
  JsDate.isoFields s = Some (y, m, d) ->
  0 <= m <= 11 /\ 1 <= d <= JsDate.daysInMonth y m.
Proof.
  unfold JsDate.isoFields.
  destruct (JsString.split "-" s) as [|ys [|ms [|ds [|? ?]]]]; try discriminate.
  destruct (JsDate.parseField 4 ys) as [y'|]; [|discriminate].
  destruct (JsDate.parseField 2 ms) as [m'|]; [|discriminate].
  destruct (JsDate.parseField 2 ds) as [d'|]; [|discriminate].
  destruct (Z.leb_spec 1 m'), (Z.leb_spec m' 12), (Z.leb_spec 1 d'),
    (Z.leb_spec d' (JsDate.daysInMonth y' (m' - 1))); simpl; try discriminate.
  intros [= <- <- <-]. lia.
Qed.

Lemma Day_of_midnight (day : Z) :
  JsDate.Day (day * JsDate.msPerDay) = day
  /\ JsDate.TimeWithinDay (day * JsDate.msPerDay) = 0.
Proof.
  unfold JsDate.Day, JsDate.TimeWithinDay, JsDate.msPerDay.
  split; [apply Z.div_mul | apply Z.mod_mul]; lia.
Qed.

Lemma parse_fields (s : string) (y m d : Z) :
  JsDate.isoFields s = Some (y, m, d) ->
  JsDate.parse s = Some (JsDate.MakeDay y m d * JsDate.msPerDay).
Proof. intros H. unfold JsDate.parse. rewrite H. reflexivity. Qed.

Lemma getters_of_time (tv : Z) :
  JsDate.getFullYear (Some tv) = Some (JsDate.civil (JsDate.Day tv)).1.1
  /\ JsDate.getMonth (Some tv) = Some (JsDate.civil (JsDate.Day tv)).1.2
  /\ JsDate.getDate (Some tv) = Some (JsDate.civil (JsDate.Day tv)).2.
Proof. repeat split. Qed.

(** The getters return what the string writes. *)
Lemma getters_of_parse (s : string) (y m d : Z) :
  JsDate.isoFields s = Some (y, m, d) ->
  JsDate.getFullYear (JsDate.parse s) = Some y
  /\ JsDate.getMonth (JsDate.parse s) = Some m
  /\ JsDate.getDate (JsDate.parse s) = Some d.
Proof.
  intros H. destruct (isoFields_valid s y m d H) as [Hm Hd].
  rewrite (parse_fields s y m d H).
  destruct (getters_of_time (JsDate.MakeDay y m d * JsDate.msPerDay)) as (-> & -> & ->).
  rewrite (proj1 (Day_of_midnight _)), (civil_MakeDay y m d Hm Hd). auto.
Qed.

(** The date that [setMonth(getMonth() - 1)] leaves. *)
Lemma setMonth_previous (s : string) (y m d : Z) :
  JsDate.isoFields s = Some (y, m, d) ->
  exists tv,
    JsDate.setMonth (JsDate.parse s) ((fun m => m - 1) <$> JsDate.getMonth (JsDate.parse s))
    = Some tv
    /\ JsDate.civil (JsDate.Day tv)
       = if m =? 0 then (y - 1, 11, d)
         else if d <=? JsDate.daysInMonth y (m - 1) then (y, m - 1, d)
              else (y, m, d - JsDate.daysInMonth y (m - 1)).
Proof.
  intros H. destruct (isoFields_valid s y m d H) as [Hm Hd].
  destruct (getters_of_parse s y m d H) as (_ & -> & _).
  rewrite (parse_fields s y m d H).
  exists (JsDate.MakeDay y (m - 1) d * JsDate.msPerDay). split.
  - unfold JsDate.setMonth. cbn [fmap option_fmap option_map].
    rewrite (proj1 (Day_of_midnight _)), (proj2 (Day_of_midnight _)),
      (civil_MakeDay y m d Hm Hd), Z.add_0_r. reflexivity.
  - rewrite (proj1 (Day_of_midnight _)).
    pose proof (daysInMonth_bounds y (m - 1)) as Hb.
    pose proof (daysInMonth_bounds y m) as Hb'.
    destruct (Z.eqb_spec m 0) as [-> | Hne].
    + change (0 - 1) with (-1).
      rewrite MakeDay_before_january. apply civil_MakeDay; [lia|].
      change (JsDate.daysInMonth (y - 1) 11) with 31. lia.
    + destruct (Z.leb_spec d (JsDate.daysInMonth y (m - 1))) as [Hle | Hgt].
      * apply civil_MakeDay; lia.
      * rewrite MakeDay_overflow by lia. replace (m - 1 + 1) with m by lia.
        apply civil_MakeDay; lia.
Qed.

Lemma monthShort_of_time (tv : Z) :
  JsDate.monthShort (Some tv)
  = default "Invalid Date" (JsDate.shortMonths !! Z.to_nat (JsDate.civil (JsDate.Day tv)).1.2).
Proof. reflexivity. Qed.

(** The derived period is the preceding month exactly when that month has
    the day of the payment date; otherwise it is the month of the payment
    itself. *)
Lemma derivePeriod_agrees_iff (s : string) (y m d : Z) :
  JsDate.isoFields s = Some (y, m, d) ->
  derivePeriod s = precedingMonthPeriod s <-> precedingMonthHasDay y m d.
Proof.
  intros H. destruct (isoFields_valid s y m d H) as [Hm Hd].
  destruct (setMonth_previous s y m d H) as (tv & Hset & Hciv).
  destruct (getters_of_parse s y m d H) as (Hy' & Hm' & _).
  unfold derivePeriod, precedingMonthPeriod, precedingMonthHasDay.
  rewrite Hset, Hy', Hm', monthShort_of_time.
  destruct (getters_of_time tv) as (-> & _). rewrite Hciv. clear Hset Hciv tv.
  destruct (Z.eqb_spec m 0) as [-> | Hne].
  - split; [auto | reflexivity].
  - destruct (Z.leb_spec d (JsDate.daysInMonth y (m - 1))) as [Hle | Hgt].
    + split; [auto | intros _].
      each_month m; try lia; reflexivity.
    + split; [|lia]. intros E. exfalso.
      each_month m; try lia; cbn [fst snd JsDate.numToString] in E;
        vm_compute (default _ _) in E; discriminate E.
Qed.

Lemma derivePeriod_agrees_example :
  JsDate.isoFields "2024-01-15" = Some (2024, 0, 15)
  /\ derivePeriod "2024-01-15" = precedingMonthPeriod "2024-01-15".
Proof.
  split; [reflexivity|].
  apply (derivePeriod_agrees_iff "2024-01-15" 2024 0 15 eq_refl). now left.
Qed.

(** ** Sorting *)

Section SortFacts.
Context {A : Type} (comparefn : A -> A -> option Z).

Lemma place_Permutation (x : A) (l : list A) : place comparefn x l ≡ₚ x :: l.
Proof.
  induction l as [|y l IH]; simpl; [reflexivity|].
  destruct (0 <? SortCompare comparefn x y); [|reflexivity].
  rewrite IH. apply Permutation_swap.
Qed.

Lemma sort_Permutation (l : list A) : sort comparefn l ≡ₚ l.
Proof.
  induction l as [|x l IH]; simpl; [reflexivity|].
  rewrite place_Permutation. now constructor.
Qed.

(** A comparator that is the difference of a numeric key on the elements
    of interest. *)
Context (key : A -> Z) (P : A -> Prop).
Hypothesis comparefn_key :
  forall x y, P x -> P y -> comparefn x y = Some (key x - key y).

Lemma place_sorted (x : A) (l : list A) :
  P x -> Forall P l -> StronglySorted (ascending key) l -> StronglySorted (ascending key) (place comparefn x l).
Proof.
  intros Hx Hl Hs. induction l as [|y l IH]; simpl.
  - repeat constructor.
  - apply Forall_cons in Hl as [Hy Hl].
    apply StronglySorted_cons in Hs as [Hyl Hs].
    unfold SortCompare. rewrite (comparefn_key x y Hx Hy). simpl.
    destruct (Z.ltb_spec 0 (key x - key y)) as [Hlt | Hge].
    + apply StronglySorted_cons. split; [|now apply IH].
      rewrite place_Permutation. constructor; [unfold ascending; lia | exact Hyl].
    + apply StronglySorted_cons. split; [|now apply StronglySorted_cons].
      constructor; [unfold ascending; lia|].
      eapply Forall_impl; [exact Hyl|]. unfold ascending. intros z Hz. simpl in *. lia.
Qed.

Lemma sort_Forall (l : list A) : Forall P l -> Forall P (sort comparefn l).
Proof. intros H. now rewrite sort_Permutation. Qed.

Lemma sort_sorted (l : list A) : Forall P l -> StronglySorted (ascending key) (sort comparefn l).
Proof.
  induction l as [|x l IH]; simpl; intros Hl; [constructor|].
  apply Forall_cons in Hl as [Hx Hl].
  apply place_sorted; [exact Hx | now apply sort_Forall | now apply IH].
Qed.

(** Stability: the elements with one and the same key keep their order. *)
Lemma place_filter (t : Z) (x : A) (l : list A) :
  P x -> Forall P l ->
  filter (fun y => key y = t) (place comparefn x l)
  = filter (fun y => key y = t) (x :: l).
Proof.
  intros Hx Hl. induction l as [|y l IH]; simpl; [reflexivity|].
  apply Forall_cons in Hl as [Hy Hl].
  unfold SortCompare. rewrite (comparefn_key x y Hx Hy). simpl.
  destruct (Z.ltb_spec 0 (key x - key y)) as [Hlt | Hge]; [|reflexivity].
  rewrite (filter_cons _ y), (IH Hl), !(filter_cons _ x), (filter_cons _ y).
  destruct (decide (key x = t)) as [Ex|Nx]; [|reflexivity].
  destruct (decide (key y = t)) as [Ey|Ny]; [lia | reflexivity].
Qed.

Lemma sort_stable (t : Z) (l : list A) :
  Forall P l ->
  filter (fun y => key y = t) (sort comparefn l) = filter (fun y => key y = t) l.
Proof.
  induction l as [|x l IH]; simpl; intros Hl; [reflexivity|].
  apply Forall_cons in Hl as [Hx Hl].
  rewrite place_filter, !(filter_cons _ x), (IH Hl) by (try apply sort_Forall; assumption).
  reflexivity.
Qed.

(** There is one stable arrangement only: two sorted lists in which the
    elements of every key come in the same order are the same list. *)
Lemma stable_sorted_unique (l1 l2 : list A) :
  StronglySorted (ascending key) l1 -> StronglySorted (ascending key) l2 ->
  (forall t, filter (fun y => key y = t) l1 = filter (fun y => key y = t) l2) ->
  l1 = l2.
Proof.
  revert l2. induction l1 as [|x r1 IH]; intros l2 S1 S2 Hf.
  - destruct l2 as [|y r2]; [reflexivity|].
    specialize (Hf (key y)). rewrite filter_cons_True in Hf by reflexivity.
    discriminate Hf.
  - destruct l2 as [|y r2].
    { specialize (Hf (key x)). rewrite filter_cons_True in Hf by reflexivity.
      discriminate Hf. }
    apply StronglySorted_cons in S1 as [Hx S1].
    apply StronglySorted_cons in S2 as [Hy S2].
    assert (key x = key y) as Hk.
    { apply Z.le_antisymm.
      - assert (y ∈ x :: r1) as Hin.
        { apply (list_elem_of_filter (fun z => key z = key y)).
          rewrite (Hf (key y)), filter_cons_True by reflexivity. left. }
        apply elem_of_cons in Hin as [-> | Hin]; [reflexivity|].
        apply (proj1 (Forall_forall _ _) Hx y Hin).
      - assert (x ∈ y :: r2) as Hin.
        { apply (list_elem_of_filter (fun z => key z = key x)).
          rewrite <- (Hf (key x)), filter_cons_True by reflexivity. left. }
        apply elem_of_cons in Hin as [-> | Hin]; [reflexivity|].
        apply (proj1 (Forall_forall _ _) Hy x Hin). }
    pose proof (Hf (key x)) as Hhead.
    rewrite filter_cons_True in Hhead by reflexivity.
    rewrite (filter_cons_True _ y) in Hhead by (symmetry; exact Hk).
    injection Hhead as <- Hrest. f_equal. apply IH; [exact S1 | exact S2|].
    intros t. destruct (decide (key x = t)) as [<- | Hne]; [exact Hrest|].
    specialize (Hf t). now rewrite !filter_cons_False in Hf by exact Hne.
Qed.

(** So [sort] yields what any stable sort yields. *)
Lemma sort_unique (l l' : list A) :
  Forall P l -> StronglySorted (ascending key) l' ->
  (forall t, filter (fun y => key y = t) l' = filter (fun y => key y = t) l) ->
  l' = sort comparefn l.
Proof.
  intros Hl Hs Hf. apply stable_sorted_unique; [exact Hs | now apply sort_sorted|].
  intros t. now rewrite sort_stable.
Qed.

(** Sorting what is sorted changes nothing. *)
Lemma sort_sorted_id (l : list A) :
  Forall P l -> StronglySorted (ascending key) l -> sort comparefn l = l.
Proof.
  induction l as [|x l IH]; simpl; intros Hl Hs; [reflexivity|].
  apply Forall_cons in Hl as [Hx Hl].
  apply StronglySorted_cons in Hs as [Hxl Hs].
  rewrite (IH Hl Hs). destruct l as [|y l]; [reflexivity|]. simpl.
  apply Forall_cons in Hl as [Hy _]. apply Forall_cons in Hxl as [Hxy _].
  unfold SortCompare. rewrite (comparefn_key x y Hx Hy). simpl.
  destruct (Z.ltb_spec 0 (key x - key y)) as [Hlt | Hge]; [unfold ascending in Hxy; lia|].
  reflexivity.
Qed.
End SortFacts.

Lemma byPaymentDate_key (a b : ScannerResult) :
  validDate a -> validDate b -> byPaymentDate a b = Some (timeOf a - timeOf b).
Proof.
  unfold validDate, timeOf, byPaymentDate. intros [x ->] [y ->]. reflexivity.
Qed.

(** ** The store *)

Lemma deref_snoc (a : list ScannerResult) (σ : Store) :
  deref (σ ++ [a]) (length σ) = a.
Proof.
  unfold deref. rewrite lookup_app_r by reflexivity. now rewrite Nat.sub_diag.
Qed.

Lemma deref_alter_eq (f : list ScannerResult -> list ScannerResult) (σ : Store) (p : nat) :
  f [] = [] -> deref (alter f p σ) p = f (deref σ p).
Proof.
  intros Hf. unfold deref. rewrite list_lookup_alter_eq.
  destruct (σ !! p); simpl; [reflexivity | now rewrite Hf].
Qed.

Lemma deref_alter_ne (f : list ScannerResult -> list ScannerResult) (σ : Store) (p q : nat) :
  p <> q -> deref (alter f p σ) q = deref σ q.
Proof. intros H. unfold deref. now rewrite list_lookup_alter_ne. Qed.

Lemma ledger_processReceipts (app : App) (client : GoogleGenAI) :
  ai app = Some client ->
  ledger (processReceipts app) = sort byPaymentDate (accepted (selectedFiles app)).
Proof.
  intros H. unfold processReceipts, ledger, alloc. rewrite H.
  cbn [store scannerResults]. unfold sortInPlace.
  rewrite deref_alter_eq, deref_snoc by reflexivity. reflexivity.
Qed.

Lemma upload_effects (app : App) :
  XLSX app = true ->
  (downloadScannerExcel upload app).2
  = [WriteFile [("Upload", uploadSheet (sort byPaymentDate (ledger app)))]
       "Lagos_State_Upload_Schedule.xlsx"].
Proof.
  intros H. unfold downloadScannerExcel, alloc. rewrite H.
  cbn [negb snd]. unfold sortInPlace.
  rewrite deref_alter_eq, deref_snoc by reflexivity. reflexivity.
Qed.

(** A calendar date written YYYY-MM-DD has a time value, and no other
    string has one here. *)
Lemma calendarDate_validDate (row : ScannerResult) : calendarDate row <-> validDate row.
Proof.
  unfold calendarDate, validDate, time, JsDate.getTime, JsDate.parse.
  destruct (JsDate.isoFields (paymentDate row)) as [[[y m] d]|]; simpl.
  - split; eauto.
  - split; intros [? [=]].
Qed.

Lemma calendarDates_valid (rows : list ScannerResult) :
  Forall calendarDate rows -> Forall validDate rows.
Proof.
  intros H. eapply Forall_impl; [exact H|]. intros row. apply calendarDate_validDate.
Qed.

Lemma parse_timeOf (row : ScannerResult) :
  validDate row -> JsDate.parse (paymentDate row) = Some (timeOf row).
Proof.
  unfold validDate, timeOf, time, JsDate.getTime. now intros [tv ->].
Qed.

Lemma column_map {A : Type} (c : nat) (f : A -> list Cell) (l : list A) :
  column c (map f l) = map (fun x => v <$> f x !! c) l.
Proof. unfold column. now rewrite map_map. Qed.

(** What the upload export writes for a ledger of calendar dates: the
    rows in the one stable arrangement by date. *)
Lemma upload_sorted (app : App) :
  XLSX app = true ->
  Forall calendarDate (ledger app) ->
  exists sorted sheet,
    (downloadScannerExcel upload app).2
    = [WriteFile [("Upload", sheet)] "Lagos_State_Upload_Schedule.xlsx"]
    /\ StronglySorted notAfter sorted
    /\ sorted ≡ₚ ledger app
    /\ (forall t : Z,
          filter (fun row => timeOf row = t) sorted
          = filter (fun row => timeOf row = t) (ledger app))
    /\ (StronglySorted notAfter (ledger app) -> sorted = ledger app)
    /\ length sheet = S (length (ledger app))
    /\ column 1 (drop 1 sheet) = map (fun row => Some (VDate (Some (timeOf row)))) sorted
    /\ column 3 (drop 1 sheet) = map (fun row => Some (VStr (receiptNumber row))) sorted.
Proof.
  intros Hx Hdates. apply calendarDates_valid in Hdates as Hvalid.
  exists (sort byPaymentDate (ledger app)), (uploadSheet (sort byPaymentDate (ledger app))).
  assert (Forall validDate (sort byPaymentDate (ledger app))) as Hvs
      by now apply sort_Forall.
  split; [apply (upload_effects app Hx)|].
  split; [apply (sort_sorted byPaymentDate timeOf validDate byPaymentDate_key), Hvalid|].
  split; [apply sort_Permutation|].
  split; [intros t; apply (sort_stable byPaymentDate timeOf validDate byPaymentDate_key),
                      Hvalid|].
  split; [intros Hs;
          now apply (sort_sorted_id byPaymentDate timeOf validDate byPaymentDate_key)|].
  unfold uploadSheet. cbn [skipn length]. rewrite !drop_0.
  split; [now rewrite length_map, (Permutation_length (sort_Permutation _ _))|].
  rewrite !column_map. split.
  - apply Forall_fmap_ext_1. eapply Forall_impl; [exact Hvs|].
    intros row Hrow. cbn. now rewrite (parse_timeOf row Hrow).
  - reflexivity.
Qed.

(** C2 fails as stated: the loop admits a reply whatever its payment date.
    Of three admitted replies dated 5 March, "soon" and 5 January, in this
    order, the comparator yields NaN wherever "soon" takes part, the sort
    leaves the three rows where they are, and the ledger has the row of
    March before the row of January. *)
Lemma unparseable_date_breaks_order :
  let reply date receipt :=
    Sample.png receipt
      (Sample.extraction "Acme" date receipt "VAT" (Some "Jan-24") 100) in
  let app := processReceipts
               (Sample.app [reply "2024-03-05" "Rmar"; reply "soon" "Rbad";
                            reply "2024-01-05" "Rjan"]) in
  map Message.type (scannerMessages app) = [success; success; success]
  /\ map receiptNumber (ledger app) = ["Rmar"; "Rbad"; "Rjan"]
  /\ map time (ledger app) = [Some 1709596800000; None; Some 1704412800000]
  /\ ~ StronglySorted notAfter (ledger app).
Proof.
  cbv zeta. split; [vm_compute; reflexivity|]. split; [vm_compute; reflexivity|].
  split; [vm_compute; reflexivity|].
  intros Hs.
  match type of Hs with
  | StronglySorted _ ?l =>
      let l' := eval vm_compute in l in change l with l' in Hs
  end.
  apply StronglySorted_inv in Hs as [_ Hall].
  apply Forall_cons in Hall as [_ Hall]. apply Forall_cons in Hall as [Hjan _].
  vm_compute in Hjan. now apply Hjan.
Qed.

(** C2, amended: when the payment date of every admitted row is a calendar
    date written YYYY-MM-DD, the ledger that [processReceipts] leaves holds
    exactly the admitted rows, in non-decreasing order of payment date, rows
    of one date in their order of admission.  The upload exporter sorts a
    copy of whatever ledger it is given with the same comparator: for a
    ledger of such dates whose rows have a tax type and a period, the rows of
    its sheet are the rows of the ledger in non-decreasing order of payment
    date, rows of one date in their order in the ledger, as the date and
    receipt columns show, and a ledger already in that order is written in
    its own order. *)
Theorem ledger_sorted_stable (app : App) (client : GoogleGenAI) :
  ai app = Some client ->
  Forall calendarDate (accepted (selectedFiles app)) ->
  let rows := ledger (processReceipts app) in
  StronglySorted notAfter rows
  /\ rows ≡ₚ accepted (selectedFiles app)
  /\ (forall t : Z,
        filter (fun row => timeOf row = t) rows
        = filter (fun row => timeOf row = t) (accepted (selectedFiles app)))
  /\ (forall other : App,
        XLSX other = true ->
        Forall calendarDate (ledger other) ->
        Forall hasTaxAndPeriod (ledger other) ->
        exists sorted sheet,
          (downloadScannerExcel upload other).2
          = [WriteFile [("Upload", sheet)] "Lagos_State_Upload_Schedule.xlsx"]
          /\ StronglySorted notAfter sorted
          /\ sorted ≡ₚ ledger other
          /\ (forall t : Z,
                filter (fun row => timeOf row = t) sorted
                = filter (fun row => timeOf row = t) (ledger other))
          /\ (StronglySorted notAfter (ledger other) -> sorted = ledger other)
          /\ length sheet = S (length (ledger other))
          /\ column 1 (drop 1 sheet)
             = map (fun row => Some (VDate (Some (timeOf row)))) sorted
          /\ column 3 (drop 1 sheet)
             = map (fun row => Some (VStr (receiptNumber row))) sorted).
Proof.
  intros Hai Hdates rows. subst rows.
  apply calendarDates_valid in Hdates as Hvalid.
  rewrite (ledger_processReceipts app client Hai).
  split; [apply (sort_sorted byPaymentDate timeOf validDate byPaymentDate_key), Hvalid|].
  split; [apply sort_Permutation|].
  split; [intros t; apply (sort_stable byPaymentDate timeOf validDate byPaymentDate_key),
                      Hvalid|].
  intros other Hx Hd _. exact (upload_sorted other Hx Hd).
Qed.

Lemma ledger_sorted_stable_witness :
  let app := Sample.app [Sample.png "a.png" Sample.again;
                         Sample.png "b.png" Sample.hyphenA;
                         Sample.png "c.png" Sample.other;
                         Sample.png "d.png" Sample.sameDay] in
  let other := Sample.withLedger
                 [Sample.row "Acme" "2024-03-05" "Feb-24" "Rmar" "VAT" 100;
                  Sample.row "Acme" "2024-01-05" "Dec-23" "Rjan" "PAYE" 100] in
  map receiptNumber (ledger (processReceipts app)) = ["R2"; "A-"; "R3"; " R1 "]
  /\ StronglySorted notAfter (ledger (processReceipts app))
  /\ exists sheet,
       (downloadScannerExcel upload other).2
       = [WriteFile [("Upload", sheet)] "Lagos_State_Upload_Schedule.xlsx"]
       /\ column 3 (drop 1 sheet) = [Some (VStr "Rjan"); Some (VStr "Rmar")].
Proof.
  intros app other. split; [vm_compute; reflexivity|].
  assert (Forall calendarDate (accepted (selectedFiles app))) as Hv.
  { repeat constructor; eexists; vm_compute; reflexivity. }
  destruct (ledger_sorted_stable app (Client "key") eq_refl Hv) as (Hs & _ & _ & Hup).
  split; [exact Hs|].
  assert (Forall calendarDate (ledger other)) as Hd.
  { repeat constructor; eexists; vm_compute; reflexivity. }
  assert (Forall hasTaxAndPeriod (ledger other)) as Ht.
  { repeat constructor. }
  destruct (Hup other eq_refl Hd Ht) as (sorted & sheet & He & _).
  exists sheet. split; [exact He|].
  assert ((downloadScannerExcel upload other).2
          = [WriteFile [("Upload", uploadSheet (sort byPaymentDate (ledger other)))]
               "Lagos_State_Upload_Schedule.xlsx"]) as Hc by reflexivity.
  rewrite Hc in He. injection He as <-. vm_compute. reflexivity.
Defined.

(** ** Dictionaries *)

Lemma get_set_eq {V} (k : string) (x : V) (o : Obj.t V) :
  Obj.get k (Obj.set k x o) = Some x.
Proof.
  induction o as [|[k' x'] o IH]; simpl.
  - now rewrite String.eqb_refl.
  - destruct (String.eqb_spec k k') as [-> | Hne]; simpl.
    + now rewrite String.eqb_refl.
    + destruct (String.eqb_spec k k'); [contradiction | exact IH].
Qed.

Lemma get_set_ne {V} (k k' : string) (x : V) (o : Obj.t V) :
  k <> k' -> Obj.get k' (Obj.set k x o) = Obj.get k' o.
Proof.
  intros Hne. induction o as [|[k0 x0] o IH]; simpl.
  - destruct (String.eqb_spec k' k); [congruence | reflexivity].
  - destruct (String.eqb_spec k k0) as [-> | Hk]; simpl.
    + destruct (String.eqb_spec k' k0); [congruence | reflexivity].
    + destruct (String.eqb_spec k' k0); [reflexivity | exact IH].
Qed.

Lemma keys_Permutation {V} (o : Obj.t V) : Obj.keys o ≡ₚ map fst o.
Proof.
  unfold Obj.keys, Obj.ownKeys. rewrite sort_Permutation.
  apply filter_app_complement.
Qed.

Lemma get_is_Some {V} (k : string) (o : Obj.t V) :
  is_Some (Obj.get k o) <-> k ∈ map fst o.
Proof.
  induction o as [|[k' x] o IH]; simpl.
  - split; [intros [? [=]] | intros H; inversion H].
  - destruct (String.eqb_spec k k') as [-> | Hne].
    + split; [left | eauto].
    + rewrite IH. split; [now right|].
      intros [-> | H]%elem_of_cons; [contradiction | exact H].
Qed.

Lemma get_keys {V} (k : string) (o : Obj.t V) :
  is_Some (Obj.get k o) <-> k ∈ Obj.keys o.
Proof. now rewrite get_is_Some, keys_Permutation. Qed.

(** ** Exports and the store *)

Lemma preserves_refl (σ : Store) : preserves σ σ.
Proof. apply firstn_all. Qed.

Lemma preserves_length (σ0 σ : Store) : preserves σ0 σ -> (length σ0 <= length σ)%nat.
Proof.
  unfold preserves. intros H. apply (f_equal length) in H.
  rewrite length_take in H. lia.
Qed.

Lemma preserves_alter (f : list ScannerResult -> list ScannerResult) (σ0 σ : Store) (p : nat) :
  preserves σ0 σ -> (length σ0 <= p)%nat -> preserves σ0 (alter f p σ).
Proof. unfold preserves. intros H Hp. now rewrite take_alter_ge. Qed.

Lemma preserves_snoc (σ0 σ : Store) (a : list ScannerResult) :
  preserves σ0 σ -> preserves σ0 (σ ++ [a]).
Proof.
  intros H. pose proof (preserves_length _ _ H) as Hlen. unfold preserves in *.
  rewrite take_app. replace (length σ0 - length σ)%nat with 0%nat by lia.
  simpl. now rewrite app_nil_r.
Qed.

Lemma preserves_deref (σ0 σ : Store) (p : nat) :
  preserves σ0 σ -> (p < length σ0)%nat -> deref σ p = deref σ0 p.
Proof.
  unfold preserves, deref. intros H Hp.
  rewrite <- (lookup_take_lt σ (length σ0) p Hp), H. reflexivity.
Qed.

Lemma bucket_preserves (σ0 : Store) (acc : Obj.t nat * Store) (row : ScannerResult) :
  fresh σ0 acc.1 -> preserves σ0 acc.2 ->
  fresh σ0 (bucket acc row).1 /\ preserves σ0 (bucket acc row).2.
Proof.
  destruct acc as [d σ]. simpl. intros Hf Hp. unfold bucket.
  destruct (Obj.get (getYearFromPeriod (paymentPeriod row)) d) as [p|] eqn:Hget; simpl.
  - split; [exact Hf|]. apply preserves_alter; [exact Hp | eauto].
  - split.
    + intros year p. destruct (decide (getYearFromPeriod (paymentPeriod row) = year)) as [<- | Hne].
      * rewrite get_set_eq. intros [= <-]. now apply preserves_length.
      * rewrite get_set_ne by exact Hne. apply Hf.
    + apply preserves_alter; [now apply preserves_snoc | now apply preserves_length].
Qed.

Lemma buckets_preserve (σ0 : Store) (rows : list ScannerResult) (acc : Obj.t nat * Store) :
  fresh σ0 acc.1 -> preserves σ0 acc.2 ->
  fresh σ0 (fold_left bucket rows acc).1 /\ preserves σ0 (fold_left bucket rows acc).2.
Proof.
  revert acc. induction rows as [|row rows IH]; intros acc Hf Hp; simpl; [auto|].
  destruct (bucket_preserves σ0 acc row Hf Hp). now apply IH.
Qed.

Lemma addSheet_preserves (σ0 : Store) (d : Obj.t nat) (acc : Store * Workbook) (year : string) :
  fresh σ0 d -> preserves σ0 acc.1 -> preserves σ0 (addSheet d acc year).1.
Proof.
  destruct acc as [σ wb]. simpl. intros Hf Hp. unfold addSheet.
  destruct (Obj.get year d) as [p|] eqn:Hget; simpl; [|exact Hp].
  apply preserves_alter; [exact Hp | eauto].
Qed.

Lemma sheets_preserve (σ0 : Store) (d : Obj.t nat) (years : list string)
    (acc : Store * Workbook) :
  fresh σ0 d -> preserves σ0 acc.1 -> preserves σ0 (fold_left (addSheet d) years acc).1.
Proof.
  intros Hf. revert acc. induction years as [|y years IH]; intros acc Hp; simpl; [exact Hp|].
  apply IH. now apply addSheet_preserves.
Qed.

Lemma export_fields (templateType : TemplateType) (app : App) :
  let app' := (downloadScannerExcel templateType app).1 in
  ai app' = ai app /\ XLSX app' = XLSX app /\ selectedFiles app' = selectedFiles app
  /\ scannerIsLoading app' = scannerIsLoading app
  /\ scannerResults app' = scannerResults app
  /\ scannerMessages app' = scannerMessages app
  /\ showDownloadModal app' = showDownloadModal app.
Proof.
  unfold downloadScannerExcel. destruct (XLSX app) eqn:Hx; simpl;
    [|repeat split; auto].
  destruct templateType.
  - destruct (fold_left bucket _ _) as [d σ].
    destruct (fold_left (addSheet d) _ _) as [σ' wb]. simpl. repeat split; auto.
  - simpl. repeat split; auto.
Qed.

Lemma export_preserves (templateType : TemplateType) (app : App) :
  preserves (store app) (store (downloadScannerExcel templateType app).1).
Proof.
  unfold downloadScannerExcel. destruct (XLSX app); simpl; [|apply preserves_refl].
  destruct templateType.
  - pose proof (buckets_preserve (store app) (ledger app) ([], store app)) as Hb.
    destruct (fold_left bucket _ _) as [d σ]. simpl in Hb.
    destruct Hb as [Hf Hp]; [intros ? ? [=] | apply preserves_refl|].
    pose proof (sheets_preserve (store app) d (Obj.keys d) (σ, []) Hf Hp) as Hs.
    destruct (fold_left (addSheet d) _ _) as [σ' wb]. exact Hs.
  - unfold alloc, sortInPlace. simpl.
    apply preserves_alter; [apply preserves_snoc, preserves_refl | reflexivity].
Qed.

Lemma ledger_untouched_by_export (templateType : TemplateType) (app : App) :
  let app' := (downloadScannerExcel templateType app).1 in
  ledger app' = ledger app
  /\ take (length (store app)) (store app') = store app
  /\ scannerResults app' = scannerResults app
  /\ scannerMessages app' = scannerMessages app.
Proof.
  intros app'. subst app'.
  pose proof (export_preserves templateType app) as Hp.
  destruct (export_fields templateType app) as (_ & _ & _ & _ & Hr & Hm & _).
  split; [|split; [exact Hp | split; assumption]].
  unfold ledger. rewrite Hr.
  destruct (decide (scannerResults app < length (store app))%nat) as [Hlt | Hge].
  - now apply preserves_deref.
  - assert (ledger app = []) as Hempty.
    { unfold ledger, deref. rewrite lookup_ge_None_2 by lia. reflexivity. }
    fold (ledger app). rewrite Hempty. clear Hp.
    unfold downloadScannerExcel. destruct (XLSX app); simpl; [|exact Hempty].
    destruct templateType.
    + rewrite Hempty. simpl. exact Hempty.
    + rewrite Hempty. unfold alloc, sortInPlace. simpl.
      destruct (decide (scannerResults app = length (store app))) as [-> | Hne].
      * rewrite deref_alter_eq, deref_snoc by reflexivity. reflexivity.
      * rewrite deref_alter_ne by congruence.
        unfold deref. rewrite lookup_ge_None_2; [reflexivity|].
        rewrite length_app. simpl. lia.
Qed.

(** C10: an export in either mode leaves the ledger as it was, rows and
    order: every array that existed before the export is unchanged, since the
    upload exporter sorts a copy and the standard exporter sorts buckets it
    has just created; no other part of the component state changes. *)
Theorem export_leaves_ledger (templateType : TemplateType) (app : App) :
  let app' := (downloadScannerExcel templateType app).1 in
  ledger app' = ledger app
  /\ take (length (store app)) (store app') = store app
  /\ scannerResults app' = scannerResults app
  /\ scannerMessages app' = scannerMessages app.
Proof. apply ledger_untouched_by_export. Qed.

(** ** The standard export as a function of the ledger *)

Lemma Set_add_elem (x y : string) (s : list string) :
  y ∈ Set_add x s <-> y = x \/ y ∈ s.
Proof.
  unfold Set_add. case_bool_decide as Hin.
  - split; [auto | intros [-> | H]; assumption].
  - rewrite elem_of_app, list_elem_of_singleton. tauto.
Qed.

Lemma Set_add_NoDup (x : string) (s : list string) : NoDup s -> NoDup (Set_add x s).
Proof.
  intros H. unfold Set_add. case_bool_decide as Hin; [exact H|].
  apply NoDup_app. split; [exact H|]. split; [|apply NoDup_singleton].
  intros y Hy ->%list_elem_of_singleton. contradiction.
Qed.

Lemma firstSeen_snoc (l : list string) (x : string) :
  firstSeen (l ++ [x]) = Set_add x (firstSeen l).
Proof. unfold firstSeen. now rewrite fold_left_app. Qed.

Lemma firstSeen_elem (l : list string) (y : string) : y ∈ firstSeen l <-> y ∈ l.
Proof.
  induction l as [|x l IH] using rev_ind.
  - reflexivity.
  - rewrite firstSeen_snoc, Set_add_elem, IH, elem_of_app, list_elem_of_singleton. tauto.
Qed.

Lemma firstSeen_NoDup (l : list string) : NoDup (firstSeen l).
Proof.
  induction l as [|x l IH] using rev_ind.
  - constructor.
  - rewrite firstSeen_snoc. now apply Set_add_NoDup.
Qed.

Lemma set_new {V} (k : string) (x : V) (o : Obj.t V) :
  Obj.get k o = None -> Obj.set k x o = o ++ [(k, x)].
Proof.
  induction o as [|[k' x'] o IH]; simpl; [reflexivity|].
  destruct (String.eqb_spec k k'); [discriminate|]. intros H. now rewrite IH.
Qed.

Lemma rowsOfYear_snoc (year : string) (rows : list ScannerResult) (row : ScannerResult) :
  rowsOfYear year (rows ++ [row])
  = rowsOfYear year rows ++ (if decide (yearOf row = year) then [row] else []).
Proof.
  unfold rowsOfYear. rewrite filter_app. reflexivity.
Qed.

Lemma rowsOfYear_none (year : string) (rows : list ScannerResult) :
  year ∉ map yearOf rows -> rowsOfYear year rows = [].
Proof.
  intros H. unfold rowsOfYear. induction rows as [|row rows IH]; [reflexivity|].
  rewrite filter_cons. destruct (decide (yearOf row = year)) as [E | _].
  - destruct H. simpl. rewrite E. left.
  - apply IH. intros Hin. apply H. simpl. now right.
Qed.

Lemma bucketed_step (σ0 : Store) (done : list ScannerResult) (acc : Obj.t nat * Store)
    (row : ScannerResult) :
  bucketed σ0 done acc -> bucketed σ0 (done ++ [row]) (bucket acc row).
Proof.
  destruct acc as [d σ]. intros (Hkeys & Hcells & Hinj & Hpres). cbn [fst snd] in *.
  unfold bucket. fold (yearOf row).
  destruct (Obj.get (yearOf row) d) as [p|] eqn:Hget.
  - destruct (Hcells _ _ Hget) as [Hp Hcell].
    split; [|split; [|split]]; cbn [fst snd].
    + rewrite map_app. cbn [map]. rewrite firstSeen_snoc, <- Hkeys. unfold Set_add.
      rewrite bool_decide_true; [reflexivity|].
      apply get_is_Some. eauto.
    + intros year q Hq. destruct (Hcells _ _ Hq) as [Hq1 Hq2]. split; [exact Hq1|].
      unfold push. rewrite rowsOfYear_snoc.
      destruct (decide (yearOf row = year)) as [<- | Hne].
      * assert (q = p) as -> by congruence.
        rewrite list_lookup_alter_eq, Hcell. reflexivity.
      * rewrite list_lookup_alter_ne, app_nil_r; [exact Hq2|].
        intros ->. apply Hne. eauto.
    + exact Hinj.
    + now apply preserves_alter.
  - pose proof (preserves_length _ _ Hpres) as Hlen.
    assert (yearOf row ∉ map yearOf done) as Hnew.
    { intros Hin. apply firstSeen_elem in Hin. rewrite <- Hkeys in Hin.
      apply get_is_Some in Hin as [? Hin]. congruence. }
    unfold alloc. split; [|split; [|split]]; cbn [fst snd].
    + rewrite (set_new _ _ _ Hget), !map_app. cbn [map fst]. rewrite firstSeen_snoc, <- Hkeys.
      unfold Set_add. rewrite bool_decide_false; [reflexivity|].
      rewrite Hkeys, firstSeen_elem. exact Hnew.
    + intros year q. rewrite rowsOfYear_snoc. unfold push.
      destruct (decide (yearOf row = year)) as [<- | Hne].
      * rewrite get_set_eq. intros [= <-]. split; [exact Hlen|].
        rewrite list_lookup_alter_eq, lookup_app_r, Nat.sub_diag by reflexivity.
        simpl. now rewrite (rowsOfYear_none _ _ Hnew).
      * rewrite get_set_ne by exact Hne. intros Hq.
        destruct (Hcells _ _ Hq) as [Hq1 Hq2]. split; [exact Hq1|].
        apply lookup_lt_Some in Hq2 as Hlt.
        rewrite list_lookup_alter_ne by lia.
        rewrite lookup_app_l, app_nil_r by exact Hlt. exact Hq2.
    + intros y1 y2 q.
      destruct (decide (yearOf row = y1)) as [<- | N1];
        destruct (decide (yearOf row = y2)) as [<- | N2];
        rewrite ?get_set_eq, ?get_set_ne by assumption.
      * reflexivity.
      * intros [= <-] Hq. destruct (Hcells _ _ Hq) as [_ Hq2].
        apply lookup_lt_Some in Hq2. lia.
      * intros Hq [= <-]. destruct (Hcells _ _ Hq) as [_ Hq2].
        apply lookup_lt_Some in Hq2. lia.
      * apply Hinj.
    + apply preserves_alter; [now apply preserves_snoc | exact Hlen].
Qed.

Lemma bucketed_fold (σ0 : Store) (rows done : list ScannerResult)
    (acc : Obj.t nat * Store) :
  bucketed σ0 done acc -> bucketed σ0 (done ++ rows) (fold_left bucket rows acc).
Proof.
  revert done acc. induction rows as [|row rows IH]; intros done acc H; simpl.
  - now rewrite app_nil_r.
  - replace (done ++ row :: rows) with ((done ++ [row]) ++ rows)
      by now rewrite <- app_assoc.
    apply IH, bucketed_step, H.
Qed.

Lemma bucketed_all (σ0 : Store) (rows : list ScannerResult) :
  bucketed σ0 rows (fold_left bucket rows ([], σ0)).
Proof.
  apply (bucketed_fold σ0 rows [] ([], σ0)).
  split; [reflexivity|]. split; [intros ? ? [=]|]. split; [intros ? ? ? [=]|].
  apply preserves_refl.
Qed.

(** The loop over the years sorts each bucket once and puts its sheet after
    the sheets already there. *)
Lemma sheets_fold (d : Obj.t nat) (rows : list ScannerResult) (years : list string)
    (σ : Store) (wb : Workbook) :
  NoDup years ->
  (forall y1 y2 p, Obj.get y1 d = Some p -> Obj.get y2 d = Some p -> y1 = y2) ->
  (forall year, year ∈ years ->
     exists p, Obj.get year d = Some p /\ σ !! p = Some (rowsOfYear year rows)) ->
  (fold_left (addSheet d) years (σ, wb)).2
  = wb ++ map (fun year => ("Remittance " +:+ year,
                            standardSheet year (sort byPaymentDate (rowsOfYear year rows))))
            years.
Proof.
  intros Hnodup Hinj. revert σ wb.
  induction years as [|y years IH]; intros σ wb Hcells; cbn [fold_left map snd].
  - now rewrite app_nil_r.
  - apply NoDup_cons in Hnodup as [Hy Hnodup].
    destruct (Hcells y ltac:(left)) as (p & Hget & Hcell).
    assert (addSheet d (σ, wb) y
            = (sortInPlace p σ,
               wb ++ [("Remittance " +:+ y,
                       standardSheet y (sort byPaymentDate (rowsOfYear y rows)))]))
      as ->.
    { unfold addSheet. rewrite Hget. unfold sortInPlace, deref.
      rewrite list_lookup_alter_eq, Hcell. reflexivity. }
    rewrite (IH Hnodup).
    + now rewrite <- app_assoc.
    + intros year Hin. destruct (Hcells year ltac:(now right)) as (q & Hq & Hqc).
      exists q. split; [exact Hq|]. unfold sortInPlace.
      rewrite list_lookup_alter_ne; [exact Hqc|].
      intros ->. apply Hy. now rewrite (Hinj _ _ _ Hget Hq).
Qed.

Lemma ownKeys_Permutation (ks : list string) : Obj.ownKeys ks ≡ₚ ks.
Proof. unfold Obj.ownKeys. rewrite sort_Permutation. apply filter_app_complement. Qed.

Lemma ledger_after_buckets (app : App) :
  deref (fold_left bucket (ledger app) ([], store app)).2 (scannerResults app)
  = ledger app.
Proof.
  destruct (bucketed_all (store app) (ledger app)) as (_ & _ & _ & Hpres).
  destruct (decide (scannerResults app < length (store app))%nat) as [Hlt | Hge].
  - now apply preserves_deref.
  - assert (ledger app = []) as Hempty.
    { unfold ledger, deref. rewrite lookup_ge_None_2 by lia. reflexivity. }
    rewrite Hempty. simpl. exact Hempty.
Qed.

(** With the library present, the standard export writes one file: the
    workbook [standardWorkbook] of the ledger under the file name computed
    from the ledger. *)
Lemma standard_effects (app : App) :
  XLSX app = true ->
  (downloadScannerExcel standard app).2
  = [WriteFile (standardWorkbook (ledger app)) (standardFilename (ledger app))].
Proof.
  intros Hx. unfold downloadScannerExcel. rewrite Hx. cbn [negb].
  pose proof (bucketed_all (store app) (ledger app)) as Hb.
  pose proof (ledger_after_buckets app) as Hl.
  destruct (fold_left bucket (ledger app) ([], store app)) as [d σ] eqn:Hfold.
  destruct Hb as (Hkeys & Hcells & Hinj & _). cbn [fst snd] in *.
  assert ((fold_left (addSheet d) (Obj.keys d) (σ, [])).2
          = standardWorkbook (ledger app)) as Hs.
  { rewrite (sheets_fold d (ledger app)).
    - unfold standardWorkbook, Obj.keys. rewrite Hkeys. reflexivity.
    - unfold Obj.keys. rewrite ownKeys_Permutation, Hkeys. apply firstSeen_NoDup.
    - exact Hinj.
    - intros year Hin. apply get_keys in Hin as [p Hp].
      exists p. split; [exact Hp | apply (Hcells _ _ Hp)]. }
  destruct (fold_left (addSheet d) (Obj.keys d) (σ, [])) as [σ' wb].
  cbn [fst snd] in *. now rewrite Hl, Hs.
Qed.

(** ** Year sheets *)

Lemma standard_written (app : App) :
  XLSX app = true ->
  written (downloadScannerExcel standard app).2 = standardWorkbook (ledger app).
Proof. intros Hx. rewrite (standard_effects app Hx). apply app_nil_r. Qed.

Lemma standardSheet_row4 (year : string) (sheetData : list ScannerResult) :
  row4 (standardSheet year sheetData) = Some (map VStr standardHeaders).
Proof. reflexivity. Qed.

Lemma standardWorkbook_ok (rows : list ScannerResult) :
  Forall sheetOk (standardWorkbook rows).
Proof. unfold standardWorkbook. apply Forall_map, Forall_forall. reflexivity. Qed.

Lemma standardWorkbook_names (rows : list ScannerResult) :
  map fst (standardWorkbook rows)
  = map (fun year => "Remittance " +:+ year) (Obj.ownKeys (firstSeen (map yearOf rows))).
Proof. unfold standardWorkbook. rewrite map_map. reflexivity. Qed.

(** C8 fails as stated: the fifth header of a year sheet is ["AMOUNT [N]"],
    not ["AMOUNT"]. *)
Lemma header_row_differs :
  let app := Sample.withLedger
               [Sample.row "Acme" "2024-02-10" "Jan-24" "R1" "VAT" 950] in
  map (fun sheet => row4 sheet.2) (written (downloadScannerExcel standard app).2)
  = [Some [VStr "PAYMENT DATE"; VStr "PERIOD"; VStr "RECEIPT NUMBER"; VStr "TAX TYPE";
           VStr "AMOUNT [N]"]]
  /\ ~ Forall (fun sheet => row4 sheet.2 = Some (map VStr listedHeaders))
         (written (downloadScannerExcel standard app).2).
Proof.
  cbv zeta. split; [vm_compute; reflexivity|].
  intros H. vm_compute in H. apply Forall_cons in H as [H _]. discriminate H.
Qed.

(** C8, amended: in every year sheet that the standard exporter produces,
    row 4 holds exactly the headers PAYMENT DATE, PERIOD, RECEIPT NUMBER,
    TAX TYPE, AMOUNT [N], in that order; and every row of the ledger has the
    sheet of its year. *)
Theorem standard_sheet_headers (app : App) :
  Forall (fun sheet =>
            row4 sheet.2
            = Some [VStr "PAYMENT DATE"; VStr "PERIOD"; VStr "RECEIPT NUMBER";
                    VStr "TAX TYPE"; VStr "AMOUNT [N]"])
    (written (downloadScannerExcel standard app).2)
  /\ (XLSX app = true ->
      forall row, row ∈ ledger app ->
        "Remittance " +:+ getYearFromPeriod (paymentPeriod row)
        ∈ map fst (written (downloadScannerExcel standard app).2)).
Proof.
  destruct (XLSX app) eqn:Hx.
  - rewrite (standard_written app Hx). split; [apply standardWorkbook_ok|].
    intros _ row Hrow. rewrite standardWorkbook_names.
    apply (list_elem_of_fmap_2 (fun year => "Remittance " +:+ year)).
    rewrite ownKeys_Permutation, firstSeen_elem.
    apply (list_elem_of_fmap_2 yearOf), Hrow.
  - unfold downloadScannerExcel. rewrite Hx. simpl. split; [constructor | discriminate].
Qed.

Lemma standard_sheet_headers_witness :
  let app := Sample.withLedger
               [Sample.row "Acme" "2024-02-10" "Jan-24" "R1" "VAT" 950;
                Sample.row "Acme" "2025-01-10" "Dec-2024" "R2" "VAT" 100;
                Sample.row "Acme" "2025-02-10" "Jan-25" "R3" "VAT" 100] in
  "Remittance 2025" ∈ map fst (written (downloadScannerExcel standard app).2).
Proof.
  intros app.
  refine (proj2 (standard_sheet_headers app) eq_refl
            (Sample.row "Acme" "2025-02-10" "Jan-25" "R3" "VAT" 100) _).
  vm_compute. do 2 right. left.
Defined.
(** ** Export on an empty ledger *)

(** The file that an export writes is determined by the ledger. *)
Lemma effects_of_ledger (templateType : TemplateType) (app1 app2 : App) :
  XLSX app1 = XLSX app2 -> ledger app1 = ledger app2 ->
  (downloadScannerExcel templateType app1).2 = (downloadScannerExcel templateType app2).2.
Proof.
  intros Hx Hl. destruct (XLSX app2) eqn:Hx2.
  - destruct templateType.
    + now rewrite (standard_effects app1 Hx), (standard_effects app2 Hx2), Hl.
    + now rewrite (upload_effects app1 Hx), (upload_effects app2 Hx2), Hl.
  - unfold downloadScannerExcel. now rewrite Hx, Hx2.
Qed.

(** A button of the dialog writes what the export writes. *)
Lemma confirm_effects (templateType : TemplateType) (app : App) :
  (handleDownloadConfirm templateType app).2 = (downloadScannerExcel templateType app).2.
Proof. unfold handleDownloadConfirm. now apply effects_of_ledger. Qed.

(** A new selection while the dialog is open: the dialog stays open over
    an empty ledger. *)
Lemma stale_dialog (files : list File.t) (app : App) :
  let stale := handleFileChange (Some files) (handleDownloadClick app) in
  showDownloadModal stale = true /\ ledger stale = [] /\ XLSX stale = XLSX app.
Proof.
  cbv zeta. split; [reflexivity|]. split; [|reflexivity].
  unfold handleFileChange, handleDownloadClick, ledger, alloc. cbn [store scannerResults].
  apply deref_snoc.
Qed.

(** C5 fails as stated: the export routine has no check for an empty
    ledger; called in upload mode on an empty ledger it writes
    [Lagos_State_Upload_Schedule.xlsx] with the header row alone.  The page
    gets there: the dialog is opened over a ledger of one row, a new
    selection empties the ledger and leaves the dialog open, and its upload
    button writes the file. *)
Lemma empty_ledger_upload_writes :
  let stale :=
    handleFileChange (Some [])
      (handleDownloadClick
         (Sample.withLedger [Sample.row "Acme" "2024-02-10" "Jan-24" "R1" "VAT" 950])) in
  ledger (Sample.withLedger []) = []
  /\ (downloadScannerExcel upload (Sample.withLedger [])).2
     = [WriteFile [("Upload", [map (fun h => plain (VStr h)) uploadHeaders])]
          "Lagos_State_Upload_Schedule.xlsx"]
  /\ ~ noArtifact (downloadScannerExcel upload (Sample.withLedger [])).2
  /\ showDownloadModal stale = true
  /\ ledger stale = []
  /\ (handleDownloadConfirm upload stale).2
     = [WriteFile [("Upload", [map (fun h => plain (VStr h)) uploadHeaders])]
          "Lagos_State_Upload_Schedule.xlsx"].
Proof.
  cbv zeta. split; [reflexivity|]. split; [reflexivity|].
  split; [|repeat split].
  intros H. eapply H. vm_compute. left.
Qed.

(** C5, amended: the export routine does not look at the size of the
    ledger, and no failure is raised for an empty one.  The page renders the
    download button only while the ledger is not empty; the dialog, however,
    stays open when a new selection empties the ledger, and its buttons then
    export the empty ledger: with the spreadsheet library present the writer
    is handed a sheet with the header row only in upload mode and a workbook
    without sheets in standard mode.  The export fails, with an alert and
    without writing a file, when the library is missing; with the library
    present it hands a workbook to the writer for every ledger in standard
    mode, and in upload mode for every ledger whose rows have a tax type and
    a period.  In no case does an export change the ledger, the messages or
    the selected files. *)
Theorem export_precondition (templateType : TemplateType) (app : App) :
  (ledger app = [] -> downloadButtonRendered app = false)
  /\ (forall files,
        let stale := handleFileChange (Some files) (handleDownloadClick app) in
        showDownloadModal stale = true
        /\ ledger stale = []
        /\ downloadButtonRendered stale = false
        /\ (XLSX app = true ->
            (handleDownloadConfirm upload stale).2
            = [WriteFile [("Upload", [map (fun h => plain (VStr h)) uploadHeaders])]
                 "Lagos_State_Upload_Schedule.xlsx"]
            /\ exists filename,
                 (handleDownloadConfirm standard stale).2 = [WriteFile [] filename]))
  /\ (XLSX app = false ->
      downloadScannerExcel templateType app = (app, [Alert "Excel library not found!"])
      /\ noArtifact (downloadScannerExcel templateType app).2)
  /\ (XLSX app = true ->
      (templateType = upload -> Forall hasTaxAndPeriod (ledger app)) ->
      ~ noArtifact (downloadScannerExcel templateType app).2)
  /\ (XLSX app = true -> ledger app = [] ->
      (downloadScannerExcel upload app).2
      = [WriteFile [("Upload", [map (fun h => plain (VStr h)) uploadHeaders])]
           "Lagos_State_Upload_Schedule.xlsx"]
      /\ exists filename, (downloadScannerExcel standard app).2 = [WriteFile [] filename])
  /\ ledger (downloadScannerExcel templateType app).1 = ledger app
  /\ scannerMessages (downloadScannerExcel templateType app).1 = scannerMessages app
  /\ scannerResults (downloadScannerExcel templateType app).1 = scannerResults app
  /\ selectedFiles (downloadScannerExcel templateType app).1 = selectedFiles app.
Proof.
  assert (forall app', XLSX app' = true -> ledger app' = [] ->
            (downloadScannerExcel upload app').2
            = [WriteFile [("Upload", [map (fun h => plain (VStr h)) uploadHeaders])]
                 "Lagos_State_Upload_Schedule.xlsx"]
            /\ exists filename,
                 (downloadScannerExcel standard app').2 = [WriteFile [] filename])
    as Hempty.
  { intros app' Hx He. split.
    - rewrite (upload_effects app' Hx), He. reflexivity.
    - rewrite (standard_effects app' Hx), He. eexists. reflexivity. }
  split; [|split; [|split; [|split; [|split]]]].
  - unfold downloadButtonRendered. now intros ->.
  - intros files stale. destruct (stale_dialog files app) as (Hm & Hl & Hx).
    fold stale in Hm, Hl, Hx.
    split; [exact Hm|]. split; [exact Hl|].
    split; [unfold downloadButtonRendered; now rewrite Hl|].
    intros Hxa. rewrite !confirm_effects. apply Hempty; [congruence | exact Hl].
  - intros Hx. unfold downloadScannerExcel, noArtifact. rewrite Hx. simpl.
    split; [reflexivity|]. intros wb filename Hin.
    apply list_elem_of_singleton in Hin. discriminate Hin.
  - intros Hx _ Hno. destruct templateType.
    + rewrite (standard_effects app Hx) in Hno. eapply Hno. left.
    + rewrite (upload_effects app Hx) in Hno. eapply Hno. left.
  - apply Hempty.
  - destruct (ledger_untouched_by_export templateType app) as (Hl & _).
    destruct (export_fields templateType app) as (_ & _ & Hf & _ & Hr & Hm & _).
    auto.
Qed.

Lemma export_precondition_witness :
  let opened := Sample.withLedger [Sample.row "Acme" "2024-02-10" "Jan-24" "R1" "VAT" 950] in
  downloadButtonRendered (Sample.withLedger []) = false
  /\ (handleDownloadConfirm upload
        (handleFileChange (Some []) (handleDownloadClick opened))).2
     = [WriteFile [("Upload", [map (fun h => plain (VStr h)) uploadHeaders])]
          "Lagos_State_Upload_Schedule.xlsx"]
  /\ downloadScannerExcel standard (mkApp None false [] false 0 [] false [[]])
     = (mkApp None false [] false 0 [] false [[]], [Alert "Excel library not found!"])
  /\ ~ noArtifact (downloadScannerExcel upload opened).2
  /\ (downloadScannerExcel upload (Sample.withLedger [])).2
     = [WriteFile [("Upload", [map (fun h => plain (VStr h)) uploadHeaders])]
          "Lagos_State_Upload_Schedule.xlsx"].
Proof.
  intros opened. split; [|split; [|split; [|split]]].
  - exact (proj1 (export_precondition upload (Sample.withLedger [])) eq_refl).
  - exact (proj1 (proj2 (proj2 (proj2 (proj1 (proj2 (export_precondition upload opened))
                                         []))) eq_refl)).
  - exact (proj1 (proj1 (proj2 (proj2 (export_precondition standard
                                  (mkApp None false [] false 0 [] false [[]])))) eq_refl)).
  - refine (proj1 (proj2 (proj2 (proj2 (export_precondition upload opened)))) eq_refl _).
    intros _. repeat constructor.
  - exact (proj1 (proj1 (proj2 (proj2 (proj2 (proj2 (export_precondition upload
                                                       (Sample.withLedger []))))))
                    eq_refl eq_refl)).
Defined.

(** ** Most frequent company *)

Section PickFacts.
Context (counts : Obj.t Z).

Lemma greater_spec (a b : string) :
  greater counts a b = true
  <-> is_Some (Obj.get a counts) /\ is_Some (Obj.get b counts)
      /\ countOf counts b < countOf counts a.
Proof.
  unfold greater, countOf.
  destruct (Obj.get a counts) as [x|], (Obj.get b counts) as [y|]; simpl.
  - rewrite Z.ltb_lt. split; [eauto | tauto].
  - split; [discriminate | intros (_ & [? [=]] & _)].
  - split; [discriminate | intros ([? [=]] & _)].
  - split; [discriminate | intros ([? [=]] & _)].
Qed.

Lemma greater_false (a b : string) :
  is_Some (Obj.get a counts) -> is_Some (Obj.get b counts) ->
  greater counts a b = false -> countOf counts a <= countOf counts b.
Proof.
  intros Ha Hb Hg. destruct (Z.le_gt_cases (countOf counts a) (countOf counts b)) as [H|H];
    [exact H|].
  assert (greater counts a b = true) as Ht by (apply greater_spec; auto).
  congruence.
Qed.

Lemma pick_step (done : list string) (a b : string) :
  Forall (fun k => is_Some (Obj.get k counts)) (done ++ [b]) ->
  lastLargest counts done a \/ beats counts done a ->
  lastLargest counts (done ++ [b]) (pick counts a b)
  \/ beats counts (done ++ [b]) (pick counts a b).
Proof.
  intros Hsome Hinv.
  apply Forall_app in Hsome as [Hdone Hb]. apply Forall_cons in Hb as [Hb _].
  unfold pick. destruct (greater counts a b) eqn:Hg.
  - apply greater_spec in Hg as Hg'. destruct Hg' as (_ & _ & Hlt).
    destruct Hinv as [(l1 & l2 & -> & H1 & H2) | Hbeats].
    + left. exists l1, (l2 ++ [b]). rewrite <- app_assoc. simpl.
      split; [reflexivity|]. split; [exact H1|].
      apply Forall_app. split; [exact H2 | now constructor].
    + right. apply Forall_app. split; [exact Hbeats | now constructor].
  - left. exists done, []. split; [reflexivity|]. split; [|constructor].
    destruct Hinv as [(l1 & l2 & -> & H1 & H2) | Hbeats].
    + assert (countOf counts a <= countOf counts b) as Hab.
      { apply greater_false; [|exact Hb | exact Hg].
        apply Forall_app in Hdone as [_ Ha]. now apply Forall_cons in Ha as [Ha _]. }
      apply Forall_app. split; [|constructor].
      * eapply Forall_impl; [exact H1|]. simpl. intros; lia.
      * exact Hab.
      * eapply Forall_impl; [exact H2|]. simpl. intros; lia.
    + apply Forall_forall. intros k Hk.
      pose proof (proj1 (Forall_forall _ _) Hbeats k Hk) as Hgk.
      apply greater_spec in Hgk as (Ha & _ & Hlt).
      pose proof (greater_false a b Ha Hb Hg). lia.
Qed.

Lemma pick_fold (rest done : list string) (a : string) :
  Forall (fun k => is_Some (Obj.get k counts)) (done ++ rest) ->
  lastLargest counts done a \/ beats counts done a ->
  lastLargest counts (done ++ rest) (fold_left (pick counts) rest a)
  \/ beats counts (done ++ rest) (fold_left (pick counts) rest a).
Proof.
  revert done a. induction rest as [|b rest IH]; intros done a Hsome Hinv; simpl.
  - now rewrite app_nil_r.
  - replace (done ++ b :: rest) with ((done ++ [b]) ++ rest) in *
      by now rewrite <- app_assoc.
    apply IH; [exact Hsome|]. apply pick_step; [|exact Hinv].
    now apply Forall_app in Hsome as [Hsome _].
Qed.

(** Folding [pick] over all the keys of the dictionary yields the last of
    the keys with the largest count, whatever the starting value. *)
Lemma pick_keys (ks : list string) (a : string) :
  ks <> [] ->
  (forall k, k ∈ ks <-> is_Some (Obj.get k counts)) ->
  lastLargest counts ks (fold_left (pick counts) ks a).
Proof.
  intros Hne Hks.
  destruct (pick_fold ks [] a) as [H | H]; simpl.
  - apply Forall_forall. intros k Hk. now apply Hks.
  - right. constructor.
  - exact H.
  - simpl in H. destruct ks as [|k ks]; [contradiction|].
    set (r := fold_left (pick counts) (k :: ks) a) in *.
    pose proof (proj1 (Forall_forall _ _) H k ltac:(left)) as Hk.
    apply greater_spec in Hk as (Hr & _ & _).
    apply Hks in Hr.
    pose proof (proj1 (Forall_forall _ _) H r Hr) as Hrr.
    apply greater_spec in Hrr as (_ & _ & Hlt). lia.
Qed.
End PickFacts.













(** ** File name of the standard template *)

Lemma named_cons (name : string) (row : ScannerResult) (rows : list ScannerResult) :
  named name (row :: rows)
  = (if decide (companyName row = name) then 1 else 0) + named name rows.
Proof.
  unfold named. rewrite filter_cons.
  destruct (decide (companyName row = name)); simpl length; lia.
Qed.

Lemma frequency_fold (rows : list ScannerResult) (acc : Obj.t Z) (name : string) :
  Obj.get name
    (fold_left (fun acc row =>
                  if JsString.truthy (companyName row) then increment (companyName row) acc
                  else acc) rows acc)
  = if JsString.truthy name && negb (named name rows =? 0)
    then Some (countOf acc name + named name rows)
    else Obj.get name acc.
Proof.
  revert acc. induction rows as [|row rows IH]; intros acc; simpl.
  - now rewrite andb_false_r.
  - rewrite IH, named_cons.
    assert (0 <= named name rows) as Hn by (unfold named; lia).
    destruct (decide (companyName row = name)) as [E | Hne].
    + rewrite E. destruct (JsString.truthy name) eqn:Ht; simpl; [|reflexivity].
      unfold increment, countOf. rewrite get_set_eq. simpl.
      destruct (Z.eqb_spec (named name rows) 0) as [E0 | N0];
        destruct (Z.eqb_spec (1 + named name rows) 0); try lia; simpl; f_equal; lia.
    + destruct (JsString.truthy (companyName row)); [|reflexivity].
      unfold increment, countOf. rewrite get_set_ne by exact Hne. reflexivity.
Qed.

(** Counting on own properties counts the rows by company. *)
Lemma plainFrequency_get (rows : list ScannerResult) (name : string) :
  Obj.get name (plainFrequency rows)
  = if JsString.truthy name && negb (named name rows =? 0)
    then Some (named name rows) else None.
Proof. unfold plainFrequency. rewrite frequency_fold. reflexivity. Qed.

(** *** Names that [Object.prototype] does not know

    For such names the dictionary holds numbers only, and reading and
    writing it touches own properties only. *)

Lemma get_numbered (k : string) (o : Obj.t Z) :
  Obj.get k (numbered o) = Number <$> Obj.get k o.
Proof.
  induction o as [|[k' x] o IH]; simpl; [reflexivity|].
  destruct (String.eqb k k'); [reflexivity | exact IH].
Qed.

Lemma set_numbered (k : string) (x : Z) (o : Obj.t Z) :
  Obj.set k (Number x) (numbered o) = numbered (Obj.set k x o).
Proof.
  induction o as [|[k' y] o IH]; simpl; [reflexivity|].
  destruct (String.eqb k k'); simpl; [reflexivity | now rewrite IH].
Qed.

Lemma keys_numbered (o : Obj.t Z) : Obj.keys (numbered o) = Obj.keys o.
Proof.
  unfold Obj.keys, numbered. f_equal. rewrite map_map. reflexivity.
Qed.

Lemma plainName_proto (name : string) : plainName name -> String.eqb name "__proto__" = false.
Proof.
  intros Hp. destruct (String.eqb_spec name "__proto__") as [-> | _]; [|reflexivity].
  destruct Hp. apply (bool_decide_unpack _). vm_compute. exact I.
Qed.

Lemma tally_numbered (name : string) (o : Obj.t Z) :
  plainName name -> tally name (numbered o) = numbered (increment name o).
Proof.
  intros Hp. unfold tally, increment, Obj.assign, Obj.lookup.
  rewrite (plainName_proto name Hp), get_numbered.
  destruct (Obj.get name o) as [n|]; simpl.
  - apply set_numbered.
  - rewrite bool_decide_false by exact Hp. apply set_numbered.
Qed.

Lemma companyFrequency_fold (rows : list ScannerResult) (acc : Obj.t Z) :
  Forall (fun row => plainName (companyName row)) rows ->
  fold_left (fun acc row =>
               if JsString.truthy (companyName row) then tally (companyName row) acc
               else acc) rows (numbered acc)
  = numbered
      (fold_left (fun acc row =>
                    if JsString.truthy (companyName row)
                    then increment (companyName row) acc else acc) rows acc).
Proof.
  intros Hp. revert acc. induction Hp as [|row rows Hrow _ IH]; intros acc; simpl;
    [reflexivity|].
  destruct (JsString.truthy (companyName row)); [|apply IH].
  rewrite (tally_numbered _ _ Hrow). apply IH.
Qed.

Lemma companyFrequency_plain (rows : list ScannerResult) :
  Forall (fun row => plainName (companyName row)) rows ->
  companyFrequency rows = numbered (plainFrequency rows).
Proof. intros Hp. exact (companyFrequency_fold rows [] Hp). Qed.

Lemma prefer_numbered (o : Obj.t Z) (a b : string) :
  is_Some (Obj.get a o) -> is_Some (Obj.get b o) ->
  prefer (numbered o) a b = pick o a b.
Proof.
  intros [x Ha] [y Hb]. unfold prefer, pick, more, greater, Obj.lookup.
  rewrite !get_numbered, Ha, Hb. reflexivity.
Qed.

Lemma pick_own (o : Obj.t Z) (a b : string) :
  is_Some (Obj.get a o) -> is_Some (Obj.get b o) -> is_Some (Obj.get (pick o a b) o).
Proof. intros Ha Hb. unfold pick. now destruct (greater o a b). Qed.

Lemma prefer_fold (o : Obj.t Z) (ks : list string) (a : string) :
  is_Some (Obj.get a o) -> Forall (fun k => is_Some (Obj.get k o)) ks ->
  fold_left (prefer (numbered o)) ks a = fold_left (pick o) ks a.
Proof.
  intros Ha Hks. revert a Ha. induction Hks as [|k ks Hk _ IH]; intros a Ha; simpl;
    [reflexivity|].
  rewrite (prefer_numbered o a k Ha Hk). apply IH. now apply pick_own.
Qed.

Lemma pick_same (counts : Obj.t Z) (a : string) : pick counts a a = a.
Proof. unfold pick. now destruct (greater counts a a). Qed.

(** When no company is named like a member of [Object.prototype] and some
    row names a company, the company of the file name is a most frequent
    one, the last such in key order. *)
Lemma dominantCompany_most_frequent (rows : list ScannerResult) :
  Forall (fun row => plainName (companyName row)) rows ->
  Obj.keys (plainFrequency rows) <> [] ->
  lastLargest (plainFrequency rows) (Obj.keys (plainFrequency rows))
    (dominantCompany rows).
Proof.
  intros Hp Hne. unfold dominantCompany.
  rewrite (companyFrequency_plain rows Hp), keys_numbered.
  assert (forall k, k ∈ Obj.keys (plainFrequency rows)
                    <-> is_Some (Obj.get k (plainFrequency rows))) as Hkeys.
  { intros k. symmetry. apply get_keys. }
  destruct (Obj.keys (plainFrequency rows)) as [|a ks] eqn:Hk; [contradiction|].
  rewrite prefer_fold.
  - rewrite <- (pick_same (plainFrequency rows) a) at 2.
    change (fold_left (pick (plainFrequency rows)) ks
              (pick (plainFrequency rows) a a))
      with (fold_left (pick (plainFrequency rows)) (a :: ks) a).
    apply pick_keys; [discriminate | exact Hkeys].
  - apply Hkeys. left.
  - apply Forall_forall. intros k Hin. apply Hkeys. now right.
Qed.

(** In words of the rows: the company of the file name is the company of a
    row, and no company has more rows. *)
Lemma dominantCompany_named (rows : list ScannerResult) :
  rows <> [] ->
  Forall (fun row => JsString.truthy (companyName row) = true
                     /\ plainName (companyName row)) rows ->
  dominantCompany rows ∈ map companyName rows
  /\ forall name, named name rows <= named (dominantCompany rows) rows.
Proof.
  intros Hne Hrows.
  assert (forall name, countOf (plainFrequency rows) name
                       = if JsString.truthy name then named name rows else 0) as Hcount.
  { intros name. unfold countOf. rewrite plainFrequency_get.
    destruct (JsString.truthy name); simpl; [|reflexivity].
    destruct (Z.eqb_spec (named name rows) 0) as [-> | _]; reflexivity. }
  assert (forall name, is_Some (Obj.get name (plainFrequency rows))
                       <-> name ∈ map companyName rows) as Hown.
  { intros name. rewrite plainFrequency_get. unfold named.
    rewrite list_elem_of_fmap. split.
    - destruct (JsString.truthy name); simpl; [|intros [? [=]]].
      destruct (filter _ rows) as [|row l] eqn:Hf; simpl; [intros [? [=]]|]. intros _.
      assert (row ∈ filter (fun row => companyName row = name) rows) as Hin
          by (rewrite Hf; left).
      apply list_elem_of_filter in Hin as [E Hin]. eauto.
    - intros (row & -> & Hin).
      destruct (proj1 (Forall_forall _ _) Hrows row Hin) as [-> _]. simpl.
      assert (row ∈ filter (fun r => companyName r = companyName row) rows) as Hf
          by now apply list_elem_of_filter.
      destruct (filter _ rows); [inversion Hf | simpl; eauto]. }
  assert (Obj.keys (plainFrequency rows) <> []) as Hkeys.
  { destruct rows as [|row rows']; [contradiction|].
    assert (companyName row ∈ Obj.keys (plainFrequency (row :: rows'))) as Hin.
    { apply get_keys, Hown. simpl. left. }
    intros E. rewrite E in Hin. inversion Hin. }
  pose proof (dominantCompany_most_frequent rows
                (Forall_impl _ _ _ Hrows (fun _ H => proj2 H)) Hkeys)
    as (before & after & Hk & Hb & Ha).
  set (r := dominantCompany rows) in *.
  assert (r ∈ map companyName rows) as Hr.
  { apply Hown, get_keys. rewrite Hk. apply elem_of_app. right. left. }
  split; [exact Hr|]. intros name.
  assert (JsString.truthy r = true) as Htr.
  { apply list_elem_of_fmap in Hr as (row & -> & Hin).
    exact (proj1 (proj1 (Forall_forall _ _) Hrows row Hin)). }
  destruct (decide (name ∈ map companyName rows)) as [Hin | Hout].
  - assert (JsString.truthy name = true) as Htn.
    { apply list_elem_of_fmap in Hin as (row & -> & Hin).
      exact (proj1 (proj1 (Forall_forall _ _) Hrows row Hin)). }
    assert (name ∈ Obj.keys (plainFrequency rows)) as Hkin by (apply get_keys, Hown, Hin).
    rewrite Hk in Hkin. pose proof (Hcount name) as Hcn. pose proof (Hcount r) as Hcr.
    rewrite Htn in Hcn. rewrite Htr in Hcr.
    apply elem_of_app in Hkin as [Hkin | Hkin].
    + pose proof (proj1 (Forall_forall _ _) Hb name Hkin). simpl in *. lia.
    + apply elem_of_cons in Hkin as [-> | Hkin]; [lia|].
      pose proof (proj1 (Forall_forall _ _) Ha name Hkin). simpl in *. lia.
  - assert (named name rows = 0) as ->.
    { unfold named. destruct (filter _ rows) as [|row l] eqn:Hf; [reflexivity|].
      assert (row ∈ filter (fun row => companyName row = name) rows) as Hin'
          by (rewrite Hf; left).
      apply list_elem_of_filter in Hin' as [E Hin']. destruct Hout.
      apply list_elem_of_fmap. eauto. }
    unfold named. lia.
Qed.

Lemma filenameBase_parts (rows : list ScannerResult) :
  filenameBase rows
  = sanitize (dominantCompany rows) +:+ "_" +:+ taxTypesStr rows +:+ "_Schedule".
Proof. reflexivity. Qed.

Example filename_of_example :
  filenameBase [Sample.row "Acme Corp!" "2024-02-10" "Jan-24" "R1" "PAYE" 950;
                Sample.row "Beta" "2024-02-11" "Jan-24" "R2" "Value Added Tax" 100;
                Sample.row "Acme Corp!" "2024-02-12" "Jan-24" "R3" "paye" 100]
  = "Acme_Corp_PAYE_VAT_Schedule".
Proof. vm_compute. reflexivity. Qed.

Example filename_without_tax_types :
  filenameBase [Sample.row "Acme" "2024-02-10" "Jan-24" "R1" "" 950]
  = "Acme_Remittance_Schedule".
Proof. vm_compute. reflexivity. Qed.

(** C6: [companyFrequency] is an object literal, so that a company whose
    name is that of a member of [Object.prototype] is not counted as the
    others are: the first reading of [companyFrequency["constructor"]]
    yields the inherited function, to which [+ 1] appends a one, and the
    string that results compares with no number.  Of three admitted
    replies, two for the company "constructor" and one for "Beta", the file
    name is taken from "Beta", where the most frequent company gives
    "constructor_VAT_Schedule".  A company named "__proto__" is not counted
    at all: the ledger is not empty, yet the fallback "Unknown_Company" is
    used, and the sanitizer takes its underscore away.  The example of the
    claim comes out as stated. *)
Theorem inherited_member_miscounts_company :
  let reply company date receipt :=
    Sample.png receipt
      (Sample.extraction company date receipt "VAT" (Some "Jan-24") 100) in
  let app := processReceipts
               (Sample.app [reply "constructor" "2024-02-10" "R1";
                            reply "Beta" "2024-02-11" "R2";
                            reply "constructor" "2024-02-12" "R3"]) in
  let app' := processReceipts (Sample.app [reply "__proto__" "2024-02-10" "R1"]) in
  map companyName (ledger app) = ["constructor"; "Beta"; "constructor"]
  /\ named "constructor" (ledger app) = 2 /\ named "Beta" (ledger app) = 1
  /\ sanitize "constructor" = "constructor"
  /\ companyFrequency (ledger app)
     = [("constructor", Text "constructor" 2); ("Beta", Number 1)]
  /\ dominantCompany (ledger app) = "Beta"
  /\ filenameBase (ledger app) = "Beta_VAT_Schedule"
  /\ (exists wb, (downloadScannerExcel standard app).2
                 = [WriteFile wb "Beta_VAT_Schedule.xlsx"])
  /\ map companyName (ledger app') = ["__proto__"]
  /\ companyFrequency (ledger app') = []
  /\ filenameBase (ledger app') = "UnknownCompany_VAT_Schedule"
  /\ filenameBase [Sample.row "Acme Corp!" "2024-02-10" "Jan-24" "R1" "PAYE" 950;
                   Sample.row "Beta" "2024-02-11" "Jan-24" "R2" "Value Added Tax" 100;
                   Sample.row "Acme Corp!" "2024-02-12" "Jan-24" "R3" "paye" 100]
     = "Acme_Corp_PAYE_VAT_Schedule".
Proof.
  cbv zeta. repeat split; try (vm_compute; reflexivity).
  eexists. vm_compute. reflexivity.
Qed.

(** ** Rows of the upload template *)




Example classifier_samples :
  displayTaxType (Sample.row "Acme" "2024-04-10" "Mar-24" "R1" "Lagos Revenue Payment" 1)
  = "PAYE"
  /\ shortCode "Development Levy" = "TAX"
  /\ getYearFromPeriod "Mar-24" = "2024"
  /\ shortCode "WHT ON DIRECTOR'S FEES" = "WHT"
  /\ periodVal (Sample.row "Acme" "2025-02-10" "Jan-25" "R2" "WHT ON DIRECTOR'S FEES" 1)
     = VStr "2025"
  /\ periodVal (Sample.row "Acme" "2025-02-10" "jan-25" "R3" "PAYE" 1) = VStr "JANUARY".
Proof. vm_compute. repeat split. Qed.







(** * Further properties of the code *)

(** ** Splitting and joining *)

Lemma split_nonempty (sep : ascii) (s : string) : JsString.split sep s <> [].
Proof.
  destruct s as [|c s]; simpl; [discriminate|].
  destruct (Ascii.eqb c sep); [discriminate|].
  destruct (JsString.split sep s); discriminate.
Qed.

Lemma split_without (sep : ascii) (s : string) :
  JsString.allChars (fun c => negb (Ascii.eqb c sep)) s = true ->
  JsString.split sep s = [s].
Proof.
  induction s as [|c s IH]; simpl; [reflexivity|].
  intros [Hc Hs]%andb_true_iff. apply negb_true_iff in Hc. rewrite Hc, (IH Hs).
  reflexivity.
Qed.

Lemma split_at (sep : ascii) (a b : string) :
  JsString.allChars (fun c => negb (Ascii.eqb c sep)) a = true ->
  JsString.split sep (a +:+ String sep b) = a :: JsString.split sep b.
Proof.
  induction a as [|c a IH]; simpl.
  - intros _. now rewrite Ascii.eqb_refl.
  - intros [Hc Ha]%andb_true_iff. apply negb_true_iff in Hc. rewrite Hc, (IH Ha).
    reflexivity.
Qed.

(** Joining the parts of a string with the separator gives the string. *)
Lemma join_split (sep : ascii) (s : string) :
  JsString.join (String sep "") (JsString.split sep s) = s.
Proof.
  induction s as [|c s IH]; [reflexivity|]. simpl JsString.split.
  pose proof (split_nonempty sep s) as Hne.
  destruct (Ascii.eqb_spec c sep) as [-> | Hc].
  - destruct (JsString.split sep s) as [|p ps]; [contradiction|].
    change (JsString.join (String sep "") ("" :: p :: ps))
      with ("" +:+ String sep "" +:+ JsString.join (String sep "") (p :: ps)).
    rewrite IH. reflexivity.
  - destruct (JsString.split sep s) as [|p ps]; [contradiction|].
    destruct ps as [|q ps].
    + simpl in *. now rewrite IH.
    + change (JsString.join (String sep "") (String c p :: q :: ps))
        with (String c (p +:+ String sep "" +:+ JsString.join (String sep "") (q :: ps))).
      f_equal. exact IH.
Qed.

(** X1: a data URL is a header, a comma and the payload.  When the header
    holds no comma, [fileToBase64] resolves to the payload, provided the
    payload holds no comma either (base64 text never does); the header
    alone, with no comma at all, gives [undefined]. *)
Theorem fileToBase64_payload (header payload : string) :
  JsString.allChars notComma header = true ->
  (JsString.allChars notComma payload = true ->
   fileToBase64 (header +:+ "," +:+ payload) = Some payload)
  /\ fileToBase64 header = None.
Proof.
  intros Hh. unfold fileToBase64. split.
  - intros Hp. change ("," +:+ payload) with (String "," payload).
    rewrite (split_at "," header payload Hh), (split_without "," payload Hp).
    reflexivity.
  - rewrite (split_without "," header Hh). reflexivity.
Qed.

Lemma fileToBase64_payload_witness :
  fileToBase64 ("data:image/png;base64" +:+ "," +:+ "iVBORw0KGgo=") = Some "iVBORw0KGgo="
  /\ fileToBase64 "data:image/png;base64" = None.
Proof.
  destruct (fileToBase64_payload "data:image/png;base64" "iVBORw0KGgo=" eq_refl)
    as [Hp Hn].
  split; [apply Hp; reflexivity | exact Hn].
Defined.

(** ** Decimal numerals *)

Lemma isDigit_cases (c : ascii) :
  JsString.isDigit c = true ->
  0 <= JsNumber.digitVal c < 10 /\ JsNumber.digitChar (JsNumber.digitVal c) = c.
Proof.
  destruct c as [[] [] [] [] [] [] [] []]; intros H; try discriminate H;
    (split; [split; [apply Z.leb_le | apply Z.ltb_lt] |]; reflexivity).
Qed.

(** Fuel beyond what is needed changes nothing. *)
Lemma digitsAux_fuel_S (f1 f2 : nat) (n : Z) (acc : string) :
  0 <= n < 2 ^ Z.of_nat (S f1) -> 0 <= n < 2 ^ Z.of_nat (S f2) ->
  JsNumber.digitsAux (S f1) n acc = JsNumber.digitsAux (S f2) n acc.
Proof.
  revert f2 n acc. induction f1 as [|f1 IH]; intros f2 n acc H1 H2.
  - change (2 ^ Z.of_nat 1) with 2 in H1. rewrite !digitsAux_S.
    replace (n <? 10) with true by (symmetry; apply Z.ltb_lt; lia). reflexivity.
  - rewrite !digitsAux_S. destruct (Z.ltb_spec n 10) as [Hlt | Hge]; [reflexivity|].
    destruct f2 as [|f2]; [change (2 ^ Z.of_nat 1) with 2 in H2; lia|].
    rewrite (Nat2Z.inj_succ (S f1)), Z.pow_succ_r in H1 by lia.
    rewrite (Nat2Z.inj_succ (S f2)), Z.pow_succ_r in H2 by lia.
    apply IH; (split; [apply Z.div_pos; lia | apply Z.div_lt_upper_bound; lia]).
Qed.

Lemma digitsAux_fuel (f1 f2 : nat) (n : Z) (acc : string) :
  (0 < f1)%nat -> (0 < f2)%nat ->
  0 <= n < 2 ^ Z.of_nat f1 -> 0 <= n < 2 ^ Z.of_nat f2 ->
  JsNumber.digitsAux f1 n acc = JsNumber.digitsAux f2 n acc.
Proof.
  destruct f1 as [|f1], f2 as [|f2]; try lia. intros _ _. apply digitsAux_fuel_S.
Qed.

Lemma digits_fuel (n : Z) :
  0 <= n -> n < 2 ^ Z.of_nat (S (Z.to_nat (Z.log2 n))).
Proof.
  intros Hn. destruct (Z.eq_dec n 0) as [-> | Hne]; [reflexivity|].
  rewrite Nat2Z.inj_succ, Z2Nat.id by apply Z.log2_nonneg.
  apply Z.log2_spec. lia.
Qed.

(** The numeral of [10 k + d] is the numeral of [k] followed by the digit. *)
Lemma digits_snoc (k d : Z) :
  0 < k -> 0 <= d < 10 ->
  JsNumber.digits (10 * k + d)
  = JsNumber.digits k +:+ String (JsNumber.digitChar d) "".
Proof.
  intros Hk Hd. unfold JsNumber.digits at 1. rewrite digitsAux_S.
  replace (10 * k + d <? 10) with false by (symmetry; apply Z.ltb_ge; lia).
  replace ((10 * k + d) `div` 10) with k by (Z.div_mod_to_equations; lia).
  replace ((10 * k + d) `mod` 10) with d by (Z.div_mod_to_equations; lia).
  rewrite digitsAux_acc. f_equal. unfold JsNumber.digits.
  pose proof (Z.log2_spec (10 * k + d) ltac:(lia)) as [Hlow Hlog].
  pose proof (Z.log2_nonneg (10 * k + d)) as Hnn.
  assert (0 < Z.log2 (10 * k + d)) as Hpos.
  { destruct (Z.eq_dec (Z.log2 (10 * k + d)) 0) as [E | Hne]; [|lia].
    rewrite E in Hlog. change (2 ^ Z.succ 0) with 2 in Hlog. lia. }
  apply digitsAux_fuel; try lia.
  - split; [lia|]. rewrite Z2Nat.id by exact Hnn.
    rewrite Z.pow_succ_r in Hlog by exact Hnn. lia.
  - split; [lia | apply digits_fuel; lia].
Qed.

Lemma digits_one (d : Z) :
  0 <= d < 10 -> JsNumber.digits d = String (JsNumber.digitChar d) "".
Proof.
  intros Hd. unfold JsNumber.digits. rewrite digitsAux_S.
  replace (d <? 10) with true by (symmetry; apply Z.ltb_lt; lia).
  now rewrite Z.mod_small by lia.
Qed.

Lemma parseDigitsAux_canonical (s : string) (acc v : Z) :
  0 < acc ->
  JsNumber.parseDigitsAux acc s = Some v ->
  0 < v /\ JsNumber.digits v = JsNumber.digits acc +:+ s.
Proof.
  revert acc. induction s as [|c s IH]; intros acc Hacc; simpl.
  - intros [= <-]. split; [exact Hacc | now rewrite append_empty_r].
  - destruct (JsString.isDigit c) eqn:Hc; [|discriminate].
    destruct (isDigit_cases c Hc) as [Hv Hchar]. intros H.
    apply IH in H as [Hpos ->]; [|lia]. split; [exact Hpos|].
    rewrite digits_snoc, Hchar, append_assoc by lia. reflexivity.
Qed.

(** Printing the value of a numeral that does not begin with a zero gives
    the numeral back. *)
Lemma toString_parseDigits (s : string) (n : Z) :
  JsNumber.parseDigits s = Some n -> leadingZero s = false ->
  JsNumber.toString n = s.
Proof.
  destruct s as [|c s]; [discriminate|].
  cbn [JsNumber.parseDigits JsNumber.parseDigitsAux leadingZero].
  destruct (JsString.isDigit c) eqn:Hc; [|discriminate].
  destruct (isDigit_cases c Hc) as [Hv Hchar]. intros H Hz.
  replace (10 * 0 + JsNumber.digitVal c) with (JsNumber.digitVal c) in H by lia.
  assert (0 < JsNumber.digitVal c) as Hpos.
  { destruct (Z.eq_dec (JsNumber.digitVal c) 0) as [E | Hne]; [|lia].
    rewrite E in Hchar. rewrite <- Hchar in Hz. discriminate Hz. }
  apply parseDigitsAux_canonical in H as [Hn E]; [|lia].
  unfold JsNumber.toString.
  replace (n <? 0) with false by (symmetry; apply Z.ltb_ge; lia).
  rewrite E, digits_one, Hchar by exact Hv. reflexivity.
Qed.

(** The value of a numeral of [len] digits lies below [10 ^ len]. *)
Lemma parseDigitsAux_bound (s : string) (acc v : Z) :
  0 <= acc ->
  JsNumber.parseDigitsAux acc s = Some v ->
  acc * 10 ^ Z.of_nat (String.length s) <= v
  < (acc + 1) * 10 ^ Z.of_nat (String.length s).
Proof.
  revert acc. induction s as [|c s IH]; intros acc Hacc.
  - simpl. intros [= <-]. lia.
  - cbn [JsNumber.parseDigitsAux String.length].
    destruct (JsString.isDigit c) eqn:Hc; [|discriminate].
    destruct (isDigit_cases c Hc) as [Hv _]. intros H.
    apply IH in H; [|lia].
    rewrite Nat2Z.inj_succ, Z.pow_succ_r by lia.
    pose proof (Z.pow_pos_nonneg 10 (Z.of_nat (String.length s)) ltac:(lia) ltac:(lia)).
    nia.
Qed.

Lemma parseDigits_allDigits (s : string) (n : Z) :
  JsNumber.parseDigits s = Some n -> JsString.allChars JsString.isDigit s = true.
Proof.
  assert (forall s acc v, JsNumber.parseDigitsAux acc s = Some v ->
                          JsString.allChars JsString.isDigit s = true) as Haux.
  { clear. induction s as [|c s IH]; intros acc v; simpl; [reflexivity|].
    destruct (JsString.isDigit c); [apply IH | discriminate]. }
  destruct s as [|c s]; [discriminate|]. apply Haux.
Qed.

Lemma allDigits_parse (s : string) (acc : Z) :
  JsString.allChars JsString.isDigit s = true ->
  is_Some (JsNumber.parseDigitsAux acc s).
Proof.
  revert acc. induction s as [|c s IH]; intros acc; simpl; [eauto|].
  intros [Hc Hs]%andb_true_iff. rewrite Hc. now apply IH.
Qed.

(** ** Post-processing of a reply *)

Lemma truthy_append (a b : string) :
  JsString.truthy b = true -> JsString.truthy (a +:+ b) = true.
Proof. destruct a; [auto | reflexivity]. Qed.

Lemma derivePeriod_truthy (s : string) : JsString.truthy (derivePeriod s) = true.
Proof. unfold derivePeriod. apply truthy_append. reflexivity. Qed.

Lemma normalize_fields (data : Raw.t) :
  Raw.companyName (normalize data) = Raw.companyName data
  /\ Raw.receiptNumber (normalize data) = Raw.receiptNumber data.
Proof.
  destruct data as [cn [[|c s]|] pdd [[|c' s']|] rn tt am]; split; reflexivity.
Qed.

(** X2: the post-processing of a reply never alters the company name, the
    payment date, the receipt number, the tax type or the amount; a period
    that the reply states is kept; a reply without a payment date is returned
    as it is; and post-processing twice is post-processing once. *)
Theorem normalize_keeps_extraction (data : Raw.t) :
  Raw.companyName (normalize data) = Raw.companyName data
  /\ Raw.paymentDate (normalize data) = Raw.paymentDate data
  /\ Raw.receiptNumber (normalize data) = Raw.receiptNumber data
  /\ Raw.taxType (normalize data) = Raw.taxType data
  /\ Raw.amount (normalize data) = Raw.amount data
  /\ (present (Raw.paymentPeriod data) = true ->
      Raw.paymentPeriod (normalize data) = Raw.paymentPeriod data)
  /\ (present (Raw.paymentDate data) = false -> normalize data = data)
  /\ normalize (normalize data) = normalize data.
Proof.
  destruct data as [cn [[|c s]|] pdd [[|c' s']|] rn tt am];
    cbv [normalize present JsString.truthy negb andb from_option id
           Raw.companyName Raw.paymentDate Raw.paymentDateDisplay Raw.paymentPeriod
           Raw.receiptNumber Raw.taxType Raw.amount];
    try (pose proof (derivePeriod_truthy (String c s)) as Ht;
         destruct (derivePeriod (String c s)); [discriminate Ht|]);
    repeat split; try reflexivity; try discriminate.
Qed.

Lemma normalize_keeps_extraction_witness :
  Raw.paymentPeriod (normalize Sample.first) = Some "Jan-24"
  /\ Raw.amount (normalize Sample.first) = Some 950
  /\ normalize (normalize Sample.endOfMarch) = normalize Sample.endOfMarch.
Proof.
  destruct (normalize_keeps_extraction Sample.first) as (_ & _ & _ & _ & Ha & Hp & _).
  destruct (normalize_keeps_extraction Sample.endOfMarch) as (_ & _ & _ & _ & _ & _ & _ & Hi).
  split; [exact (Hp eq_refl) | split; [exact Ha | exact Hi]].
Defined.

(** ** The display date *)

Lemma isoFields_inv (s : string) (y m d : Z) :
  JsDate.isoFields s = Some (y, m, d) ->
  exists ys ms ds,
    JsString.split "-" s = [ys; ms; ds]
    /\ JsDate.parseField 4 ys = Some y
    /\ JsDate.parseField 2 ms = Some (m + 1)
    /\ JsDate.parseField 2 ds = Some d.
Proof.
  unfold JsDate.isoFields.
  destruct (JsString.split "-" s) as [|ys [|ms [|ds [|? ?]]]]; try discriminate.
  destruct (JsDate.parseField 4 ys) as [y'|] eqn:Hy; [|discriminate].
  destruct (JsDate.parseField 2 ms) as [m'|] eqn:Hm; [|discriminate].
  destruct (JsDate.parseField 2 ds) as [d'|] eqn:Hd; [|discriminate].
  destruct ((1 <=? m') && (m' <=? 12) && (1 <=? d')
            && (d' <=? JsDate.daysInMonth y' (m' - 1))); [|discriminate].
  intros [= <- <- <-]. exists ys, ms, ds.
  split; [reflexivity|]. split; [exact Hy|]. split; [|exact Hd].
  rewrite Hm. f_equal. lia.
Qed.

Lemma parseField_inv (len : nat) (s : string) (n : Z) :
  JsDate.parseField len s = Some n ->
  String.length s = len /\ JsNumber.parseDigits s = Some n.
Proof.
  unfold JsDate.parseField. destruct (Nat.eqb_spec (String.length s) len); [auto | discriminate].
Qed.

(** A field of two digits is what [padStart(2, '0')] makes of its value. *)
Lemma padStart_two_digits (s : string) (n : Z) :
  JsDate.parseField 2 s = Some n ->
  JsString.padStart0 2 (JsNumber.toString n) = s.
Proof.
  intros [Hlen Hp]%parseField_inv.
  destruct (leadingZero s) eqn:Hz.
  - destruct s as [|c1 [|c2 [|? ?]]]; try discriminate Hlen.
    cbn [leadingZero] in Hz. apply Ascii.eqb_eq in Hz. subst c1.
    cbn [JsNumber.parseDigits JsNumber.parseDigitsAux] in Hp.
    change (JsString.isDigit "0") with true in Hp. cbv iota in Hp.
    destruct (JsString.isDigit c2) eqn:Hc; [|discriminate].
    destruct (isDigit_cases c2 Hc) as [Hv Hchar]. injection Hp as <-.
    replace (10 * (10 * 0 + JsNumber.digitVal "0") + JsNumber.digitVal c2)
      with (JsNumber.digitVal c2) by (change (JsNumber.digitVal "0") with 0; lia).
    unfold JsNumber.toString.
    replace (JsNumber.digitVal c2 <? 0) with false by (symmetry; apply Z.ltb_ge; lia).
    rewrite digits_one, Hchar by exact Hv. reflexivity.
  - rewrite (toString_parseDigits s n Hp Hz). unfold JsString.padStart0.
    rewrite Hlen. reflexivity.
Qed.

(** A year of four digits from 1000 on prints as it is written. *)
Lemma toString_year (s : string) (n : Z) :
  JsDate.parseField 4 s = Some n -> 1000 <= n -> JsNumber.toString n = s.
Proof.
  intros [Hlen Hp]%parseField_inv Hn. apply toString_parseDigits; [exact Hp|].
  destruct (leadingZero s) eqn:Hz; [exfalso | reflexivity].
  destruct s as [|c s]; [discriminate|].
  cbn [leadingZero] in Hz. apply Ascii.eqb_eq in Hz. subst c.
  cbn [JsNumber.parseDigits JsNumber.parseDigitsAux] in Hp.
  change (JsString.isDigit "0") with true in Hp. cbv iota in Hp.
  change (10 * 0 + JsNumber.digitVal "0") with 0 in Hp.
  apply parseDigitsAux_bound in Hp; [|lia].
  cbn [String.length] in Hlen. injection Hlen as Hlen. rewrite Hlen in Hp.
  change (10 ^ Z.of_nat 3) with 1000 in Hp. lia.
Qed.

Lemma displayDate_fields (s : string) (y m d : Z) :
  JsDate.isoFields s = Some (y, m, d) ->
  displayDate s
  = JsString.padStart0 2 (JsNumber.toString d) +:+ "/"
    +:+ JsString.padStart0 2 (JsNumber.toString (m + 1)) +:+ "/"
    +:+ JsNumber.toString y.
Proof.
  intros H. destruct (getters_of_parse s y m d H) as (Hy & Hm & Hd).
  unfold displayDate. rewrite Hy, Hm, Hd. reflexivity.
Qed.

(** X3: for a payment date [YYYY-MM-DD] that is a date of the calendar, from
    the year 1000 on, the display date is made of the same three texts in
    the order day, month, year, with slashes. *)
Theorem displayDate_reverses_fields (s : string) (y m d : Z) :
  JsDate.isoFields s = Some (y, m, d) -> 1000 <= y ->
  exists ys ms ds,
    s = ys +:+ "-" +:+ ms +:+ "-" +:+ ds
    /\ displayDate s = ds +:+ "/" +:+ ms +:+ "/" +:+ ys.
Proof.
  intros H Hy. rewrite (displayDate_fields s y m d H).
  destruct (isoFields_inv s y m d H) as (ys & ms & ds & Hsplit & Hys & Hms & Hds).
  exists ys, ms, ds. split.
  - rewrite <- (join_split "-" s) at 1. rewrite Hsplit. reflexivity.
  - rewrite (padStart_two_digits ds d Hds), (padStart_two_digits ms (m + 1) Hms),
      (toString_year ys y Hys Hy). reflexivity.
Qed.

Lemma displayDate_reverses_fields_witness :
  exists ys ms ds,
    "2024-03-05" = ys +:+ "-" +:+ ms +:+ "-" +:+ ds
    /\ displayDate "2024-03-05" = ds +:+ "/" +:+ ms +:+ "/" +:+ ys.
Proof.
  apply (displayDate_reverses_fields "2024-03-05" 2024 2 5); [reflexivity | lia].
Defined.

(** ** Dates that do not parse *)

Lemma admissible_parsed (f : File.t) (data : Raw.t) (rn : string) :
  File.size f <= maxSize -> File.type f ∈ acceptedTypes ->
  File.reply f = Parsed data ->
  present (Raw.companyName data) = true -> Raw.receiptNumber data = Some rn ->
  admissible f = Some (normalize data, rn).
Proof.
  intros Hsize Htype Hreply Hcn Hrn. unfold admissible, callScannerGeminiAPI.
  replace (maxSize <? File.size f) with false by (symmetry; apply Z.ltb_ge; exact Hsize).
  rewrite bool_decide_true by exact Htype. cbn [negb]. rewrite Hreply.
  destruct (normalize_fields data) as [-> ->].
  rewrite Hcn, Hrn. reflexivity.
Qed.

(** ** The payment date and admission *)

Lemma normalize_undated (data : Raw.t) : undated (normalize data) = undated data.
Proof.
  destruct data as [cn [[|c s]|] pdd [[|c' s']|] rn tt am]; reflexivity.
Qed.

(** One iteration on a file and on the file with another date: what the
    two runs have in common stays in common. *)
Lemma step_redate (date : option string) (f : File.t) (s s' : Scan) :
  messages s' = messages s -> uniqueKeys s' = uniqueKeys s ->
  map undated (results s') = map undated (results s) ->
  messages (step s' (redate date f)) = messages (step s f)
  /\ uniqueKeys (step s' (redate date f)) = uniqueKeys (step s f)
  /\ map undated (results (step s' (redate date f)))
     = map undated (results (step s f)).
Proof.
  intros Hm Hk Hr. unfold redate.
  destruct (File.reply f) as [e | data] eqn:Hreply.
  { unfold step, callScannerGeminiAPI, failed, say. rewrite Hreply.
    destruct (maxSize <? File.size f); [cbn; now rewrite Hm|].
    destruct (negb (bool_decide (File.type f ∈ acceptedTypes))); cbn; now rewrite Hm. }
  unfold step, callScannerGeminiAPI, failed, say.
  cbn [File.size File.type File.name File.reply]. rewrite Hreply.
  destruct (maxSize <? File.size f); [cbn; now rewrite Hm|].
  destruct (negb (bool_decide (File.type f ∈ acceptedTypes))); [cbn; now rewrite Hm|].
  set (data' := Raw.mk _ date _ _ _ _ _).
  assert (undated (normalize data') = undated (normalize data)) as Hu.
  { rewrite !normalize_undated. reflexivity. }
  pose proof Hu as Hfields. injection Hfields as Hcn Hrn Htt Ham. rewrite Hcn, Hrn, Ham.
  destruct (present (Raw.companyName (normalize data))); [|cbn; now rewrite Hm].
  destruct (Raw.receiptNumber (normalize data)) as [rn|]; [|cbn; now rewrite Hm].
  rewrite Hk.
  destruct (bool_decide (uniqueKey rn (Raw.amount (normalize data)) ∈ uniqueKeys s));
    cbn; rewrite Hm; [auto|].
  split; [reflexivity|]. split; [reflexivity|].
  rewrite !map_app, Hr. cbn [map]. now rewrite Hu.
Qed.

(** X4: the payment date plays no part in admission.  When the replies of a
    batch state other payment dates, any strings or none, the loop leaves
    the same messages and the same identity keys, and it admits the same
    rows, the date of a row and what is computed from it apart. *)
Theorem date_plays_no_part_in_admission (date : File.t -> option string)
    (files : list File.t) :
  let redated := map (fun f => redate (date f) f) files in
  messages (scan redated) = messages (scan files)
  /\ uniqueKeys (scan redated) = uniqueKeys (scan files)
  /\ map undated (results (scan redated)) = map undated (results (scan files)).
Proof.
  cbv zeta. induction files as [|f files IH] using rev_ind; [repeat split|].
  rewrite map_app. cbn [map]. rewrite !scan_snoc.
  destruct IH as (Hm & Hk & Hr). now apply step_redate.
Qed.

(** ** The derived period, case by case *)

(** X5: for a payment date [YYYY-MM-DD] that is a date of the calendar, the
    derived period names December of the year before for a January date;
    otherwise the month before the payment's when that month has the day of
    the payment, and the month of the payment itself when it has not; the
    year is printed with its last two digits. *)
Theorem derived_period_by_cases (s : string) (y m d : Z) :
  JsDate.isoFields s = Some (y, m, d) ->
  derivePeriod s
  = (let '(y', m') :=
       if m =? 0 then (y - 1, 11)
       else if d <=? JsDate.daysInMonth y (m - 1) then (y, m - 1)
            else (y, m) in
     default "Invalid Date" (JsDate.shortMonths !! Z.to_nat m') +:+ "-"
     +:+ JsString.sliceLast 2 (JsNumber.toString y')).
Proof.
  intros H.
  destruct (setMonth_previous s y m d H) as (tv & Hset & Hciv).
  unfold derivePeriod. rewrite Hset, monthShort_of_time.
  destruct (getters_of_time tv) as (-> & _). rewrite Hciv.
  destruct (m =? 0); [reflexivity|].
  destruct (d <=? JsDate.daysInMonth y (m - 1)); reflexivity.
Qed.

Lemma derived_period_by_cases_witness :
  derivePeriod "2024-03-31" = "Mar-24" /\ derivePeriod "2024-03-29" = "Feb-24"
  /\ derivePeriod "2100-01-15" = "Dec-99".
Proof.
  rewrite (derived_period_by_cases "2024-03-31" 2024 2 31 eq_refl),
    (derived_period_by_cases "2024-03-29" 2024 2 29 eq_refl),
    (derived_period_by_cases "2100-01-15" 2100 0 15 eq_refl).
  repeat split.
Defined.

(** ** Invariants of the receipt loop *)

Lemma scan_ind (P : Scan -> Prop) :
  P (mkScan ∅ [] []) -> (forall s f, P s -> P (step s f)) ->
  forall files, P (scan files).
Proof.
  intros H0 Hstep files. induction files as [|f files IH] using rev_ind; [exact H0|].
  rewrite scan_snoc. now apply Hstep.
Qed.

Lemma admissible_sound (f : File.t) (r : Raw.t) (rn : string) :
  admissible f = Some (r, rn) ->
  Raw.receiptNumber r = Some rn /\ present (Raw.companyName r) = true
  /\ keyOf (r, rn) = rawKey r.
Proof.
  unfold admissible.
  destruct (maxSize <? File.size f); [discriminate|].
  destruct (negb (bool_decide (File.type f ∈ acceptedTypes))); [discriminate|].
  destruct (callScannerGeminiAPI f) as [msg | result]; [discriminate|].
  destruct (present (Raw.companyName result)) eqn:Hcn; [|discriminate].
  destruct (Raw.receiptNumber result) as [rn'|] eqn:Hrn; [|discriminate].
  simpl. intros [= <- <-]. unfold keyOf, rawKey. rewrite Hrn. auto.
Qed.

(** What one iteration does, by the outcome for the file: an admitted file
    adds its key, its row and a success message; any other outcome adds a
    message that is not a success message, and nothing else. *)
Lemma step_classified (s : Scan) (f : File.t) :
  match classify (uniqueKeys s) f with
  | Accepted =>
      exists e, admissible f = Some e /\ (keyOf e ∉ uniqueKeys s)
        /\ step s f
           = mkScan ({[keyOf e]} ∪ uniqueKeys s) (results s ++ [e.1])
               (messages s
                  ++ [Message.mk ("Successfully processed: " +:+ File.name f) success])
  | _ => exists m, step s f = say s m /\ Message.type m <> success
  end.
Proof.
  destruct (step_message s f) as (m & Hm & _ & Htag).
  unfold classify in *.
  destruct (admissible f) as [[result rn]|] eqn:Ha.
  - pose proof (step_admissible s f _ Ha) as Hstep.
    unfold admissible in Ha.
    destruct (maxSize <? File.size f); [discriminate|].
    destruct (negb (bool_decide (File.type f ∈ acceptedTypes))); [discriminate|].
    fold (keyOf (result, rn)) in *.
    destruct (decide (keyOf (result, rn) ∈ uniqueKeys s)) as [Hin | Hout].
    + rewrite bool_decide_true in * by exact Hin.
      eexists. split; [exact Hstep | discriminate].
    + rewrite bool_decide_false in * by exact Hout.
      exists (result, rn). split; [reflexivity | split; [exact Hout | exact Hstep]].
  - destruct (step_not_admissible s f Ha) as (m' & Hstep).
    assert (m' = m) as ->.
    { rewrite Hstep in Hm. simpl in Hm. now apply app_inj_tail in Hm as [_ ?]. }
    assert (Message.type m <> success) as Hne.
    { rewrite Htag. destruct (maxSize <? File.size f); [discriminate|].
      destruct (negb (bool_decide (File.type f ∈ acceptedTypes))); discriminate. }
    destruct (maxSize <? File.size f); [eauto|].
    destruct (negb (bool_decide (File.type f ∈ acceptedTypes))); eauto.
Qed.

(** An iteration acts on the keys and the rows through the keys seen so far
    only. *)
Lemma step_shape (f : File.t) :
  exists (K : gset string -> gset string) (R : gset string -> list Raw.t)
         (M : gset string -> Message.t),
    forall s, step s f
              = mkScan (K (uniqueKeys s)) (results s ++ R (uniqueKeys s))
                  (messages s ++ [M (uniqueKeys s)]).
Proof.
  assert (forall m, exists (K : gset string -> gset string) (R : gset string -> list Raw.t)
                           (M : gset string -> Message.t),
             forall s, say s m
                       = mkScan (K (uniqueKeys s)) (results s ++ R (uniqueKeys s))
                           (messages s ++ [M (uniqueKeys s)])) as Hsay.
  { intros m. exists (fun ks => ks), (fun _ => []), (fun _ => m).
    intros s. unfold say. now rewrite app_nil_r. }
  unfold step, failed.
  destruct (maxSize <? File.size f); [apply Hsay|].
  destruct (negb (bool_decide (File.type f ∈ acceptedTypes))); [apply Hsay|].
  destruct (callScannerGeminiAPI f) as [msg | result]; [apply Hsay|].
  destruct (present (Raw.companyName result)); [|apply Hsay].
  destruct (Raw.receiptNumber result) as [rn|]; [|apply Hsay].
  set (key := uniqueKey rn (Raw.amount result)).
  exists (fun ks => if bool_decide (key ∈ ks) then ks else {[key]} ∪ ks),
    (fun ks => if bool_decide (key ∈ ks) then [] else [result]),
    (fun ks => if bool_decide (key ∈ ks)
               then Message.mk ("Duplicate Receipt skipped: " +:+ rn +:+ " in "
                                +:+ File.name f) warning
               else Message.mk ("Successfully processed: " +:+ File.name f) success).
  intros s. unfold say. destruct (bool_decide (key ∈ uniqueKeys s)); [|reflexivity].
  now rewrite app_nil_r.
Qed.

(** A message more in the list changes nothing for the files that follow. *)
Lemma fold_with_message (files : list File.t) (s s' : Scan) (pre post : list Message.t)
    (m : Message.t) :
  uniqueKeys s' = uniqueKeys s -> results s' = results s ->
  messages s = pre ++ post -> messages s' = pre ++ m :: post ->
  uniqueKeys (fold_left step files s') = uniqueKeys (fold_left step files s)
  /\ results (fold_left step files s') = results (fold_left step files s)
  /\ exists post', messages (fold_left step files s) = pre ++ post'
                   /\ messages (fold_left step files s') = pre ++ m :: post'.
Proof.
  revert s s' post. induction files as [|f files IH]; intros s s' post Hk Hr Hm Hm'.
  - simpl. eauto.
  - simpl. destruct (step_shape f) as (K & R & M & Hstep).
    apply (IH (step s f) (step s' f) (post ++ [M (uniqueKeys s)]));
      rewrite !Hstep; simpl; rewrite ?Hk, ?Hr, ?Hm, ?Hm'; try reflexivity.
    + now rewrite <- app_assoc.
    + now rewrite <- app_assoc.
Qed.

Lemma truthy_default (o : option string) : JsString.truthy (default "" o) = present o.
Proof. destruct o; reflexivity. Qed.

Lemma results_named (files : list File.t) :
  Forall (fun r => present (Raw.companyName r) = true
                   /\ is_Some (Raw.receiptNumber r)) (results (scan files)).
Proof.
  apply (scan_ind (fun s => Forall _ (results s))); [constructor|].
  intros s f IH. pose proof (step_classified s f) as H.
  destruct (classify (uniqueKeys s) f);
    try (destruct H as (m & -> & _); exact IH).
  destruct H as ([r rn] & Ha & _ & ->). simpl.
  apply Forall_app. split; [exact IH|]. apply Forall_cons. split; [|constructor].
  destruct (admissible_sound f r rn Ha) as (Hrn & Hcn & _). rewrite Hrn. eauto.
Qed.

(** X6: every row of a ledger that [processReceipts] builds names a company:
    a reply whose company name is missing or empty is never admitted. *)
Theorem ledger_rows_name_company (app : App) (client : GoogleGenAI) :
  ai app = Some client ->
  Forall (fun row => JsString.truthy (companyName row) = true)
    (ledger (processReceipts app)).
Proof.
  intros Hai. rewrite (ledger_processReceipts app client Hai), sort_Permutation.
  unfold accepted. apply Forall_map.
  eapply Forall_impl; [apply results_named|].
  intros r [Hcn _]. simpl. now rewrite truthy_default.
Qed.

Lemma ledger_rows_name_company_witness :
  let nameless := Raw.mk (Some "") (Some "2024-02-10") None (Some "Jan-24") (Some "R5")
                    (Some "VAT") (Some 7) in
  Forall (fun row => JsString.truthy (companyName row) = true)
    (ledger (processReceipts (Sample.app [Sample.png "a.png" nameless;
                                          Sample.png "b.png" Sample.first]))).
Proof.
  intros nameless. apply (ledger_rows_name_company _ (Client "key")). reflexivity.
Defined.

Lemma successes_snoc (ms : list Message.t) (m : Message.t) :
  successes (ms ++ [m])
  = successes ms ++ (if decide (Message.type m = success) then [m] else []).
Proof. unfold successes. rewrite filter_app. reflexivity. Qed.

Lemma results_successes (files : list File.t) :
  length (results (scan files)) = length (successes (messages (scan files))).
Proof.
  apply (scan_ind (fun s => length (results s) = length (successes (messages s))));
    [reflexivity|].
  intros s f IH. pose proof (step_classified s f) as H.
  destruct (classify (uniqueKeys s) f);
    try (destruct H as (m & -> & Hne); simpl; rewrite successes_snoc;
         destruct (decide (Message.type m = success)); [contradiction|];
         now rewrite app_nil_r).
  destruct H as (e & _ & _ & ->). simpl.
  rewrite successes_snoc, !length_app, IH. reflexivity.
Qed.

Lemma successes_length (ms : list Message.t) : (length (successes ms) <= length ms)%nat.
Proof. unfold successes. apply length_filter. Qed.

(** X7: after [processReceipts] the ledger has as many rows as there are
    success messages, at most one per selected file; so the download button
    is shown exactly when some file was reported as processed. *)
Theorem ledger_counts_successes (app : App) (client : GoogleGenAI) :
  ai app = Some client ->
  let app' := processReceipts app in
  length (ledger app') = length (successes (scannerMessages app'))
  /\ (length (ledger app') <= length (selectedFiles app))%nat
  /\ (downloadButtonRendered app' = true
      <-> exists m, m ∈ scannerMessages app' /\ Message.type m = success).
Proof.
  intros Hai app'. subst app'.
  assert (length (ledger (processReceipts app))
          = length (successes (scannerMessages (processReceipts app)))) as Hlen.
  { rewrite (ledger_processReceipts app client Hai),
      (scannerMessages_processReceipts app client Hai), sort_Permutation.
    unfold accepted. rewrite length_map. apply results_successes. }
  split; [exact Hlen|]. split.
  - rewrite Hlen, (scannerMessages_processReceipts app client Hai),
      <- (messages_scan_length (selectedFiles app)).
    apply successes_length.
  - unfold downloadButtonRendered. rewrite Hlen, Nat.ltb_lt. unfold successes. split.
    + intros Hpos.
      destruct (filter _ (scannerMessages (processReceipts app))) as [|m ms] eqn:E;
        [simpl in Hpos; lia|].
      assert (m ∈ filter (fun m => Message.type m = success)
                    (scannerMessages (processReceipts app))) as Hin
        by (rewrite E; left).
      apply list_elem_of_filter in Hin as [Ht Hin]. eauto.
    + intros (m & Hin & Ht).
      assert (m ∈ filter (fun m => Message.type m = success)
                    (scannerMessages (processReceipts app))) as Hf
        by (apply list_elem_of_filter; auto).
      destruct (filter _ (scannerMessages (processReceipts app)));
        [inversion Hf | simpl; lia].
Qed.

Lemma ledger_counts_successes_witness :
  let app := Sample.app [Sample.png "a.png" Sample.first;
                         Sample.png "b.png" Sample.again;
                         Sample.png "c.png" Sample.other] in
  length (ledger (processReceipts app)) = 2%nat
  /\ downloadButtonRendered (processReceipts app) = true.
Proof.
  intros app.
  destruct (ledger_counts_successes app (Client "key") eq_refl) as (Hlen & _ & Hbtn).
  split.
  - rewrite Hlen. reflexivity.
  - apply Hbtn. exists (Message.mk "Successfully processed: a.png" success).
    split; [vm_compute; left | reflexivity].
Defined.

Lemma scan_app (l1 l2 : list File.t) : scan (l1 ++ l2) = fold_left step l2 (scan l1).
Proof. unfold scan. apply fold_left_app. Qed.

(** X8: a file that is not admitted (too large, of a type that is not
    accepted, failed extraction, duplicate) leaves no trace but its own
    message: the rows pushed, and so the ledger, are those of the batch
    without the file, and so is every other message. *)
Theorem skipped_file_leaves_no_trace (l1 l2 : list File.t) (f : File.t) :
  classify (uniqueKeys (scan l1)) f <> Accepted ->
  results (scan (l1 ++ f :: l2)) = results (scan (l1 ++ l2))
  /\ delete (length l1) (messages (scan (l1 ++ f :: l2))) = messages (scan (l1 ++ l2)).
Proof.
  intros Hc. pose proof (step_classified (scan l1) f) as H.
  assert (exists m, step (scan l1) f = say (scan l1) m) as (m & Hstep).
  { destruct (classify (uniqueKeys (scan l1)) f); try contradiction;
      destruct H as (m & Hm & _); eauto. }
  rewrite !scan_app. cbn [fold_left]. rewrite Hstep.
  destruct (fold_with_message l2 (scan l1) (say (scan l1) m) (messages (scan l1)) [] m)
    as (_ & Hr & post & Hm & Hm'); try reflexivity.
  { now rewrite app_nil_r. }
  split; [exact Hr|]. rewrite Hm, Hm'.
  rewrite <- (messages_scan_length l1). apply delete_middle.
Qed.

Lemma skipped_file_leaves_no_trace_witness :
  let l1 := [Sample.png "a.png" Sample.first] in
  let l2 := [Sample.png "c.png" Sample.other] in
  let f := Sample.png "b.png" Sample.again in
  results (scan (l1 ++ f :: l2)) = results (scan (l1 ++ l2))
  /\ delete 1%nat (messages (scan (l1 ++ f :: l2))) = messages (scan (l1 ++ l2)).
Proof.
  intros l1 l2 f. apply (skipped_file_leaves_no_trace l1 l2 f).
  vm_compute. discriminate.
Defined.

(** X9: the rows pushed by the loop have pairwise different identity keys,
    and the set of keys holds exactly the keys of these rows. *)
Theorem pushed_keys_distinct (files : list File.t) :
  NoDup (map rawKey (results (scan files)))
  /\ (forall k, k ∈ uniqueKeys (scan files) <-> k ∈ map rawKey (results (scan files))).
Proof.
  apply (scan_ind (fun s => NoDup (map rawKey (results s))
                            /\ forall k, k ∈ uniqueKeys s <-> k ∈ map rawKey (results s))).
  - split; [constructor|]. intros k. simpl. split; intros H; [|inversion H].
    now apply elem_of_empty in H.
  - intros s f [Hnd Hkeys]. pose proof (step_classified s f) as H.
    destruct (classify (uniqueKeys s) f);
      try (destruct H as (m & -> & _); split; assumption).
    destruct H as ([r rn] & Ha & Hout & ->). simpl.
    destruct (admissible_sound f r rn Ha) as (_ & _ & Hk). rewrite Hk in *.
    rewrite map_app. simpl. split.
    + apply NoDup_app. split; [exact Hnd|]. split; [|apply NoDup_singleton].
      intros k Hin ->%list_elem_of_singleton. apply Hout, Hkeys, Hin.
    + intros k. rewrite elem_of_union, elem_of_singleton, elem_of_app,
        list_elem_of_singleton, Hkeys. tauto.
Qed.

(** ** Choosing files and starting up *)

Lemma ledger_handleFileChange (files : list File.t) (app : App) :
  ledger (handleFileChange (Some files) app) = [].
Proof. unfold handleFileChange, alloc, ledger. simpl. apply deref_snoc. Qed.

Lemma selection_facts (files : list File.t) (app : App) (client : GoogleGenAI) :
  ai app = Some client ->
  ledger (processFiles (handleFileChange (Some files) app)) ≡ₚ accepted files
  /\ scannerMessages (processFiles (handleFileChange (Some files) app))
     = messages (scan files).
Proof.
  intros Hai. unfold processFiles. split.
  - rewrite (ledger_processReceipts (handleFileChange (Some files) app) client Hai).
    apply sort_Permutation.
  - now rewrite (scannerMessages_processReceipts (handleFileChange (Some files) app)
                   client Hai).
Qed.

(** X10: a new selection, by the file input or by a drop, discards the
    previous batch, whatever the state: the ledger is empty, the messages are
    gone and the download button is not shown, while the arrays that existed
    stay as they were; what [processFiles] then builds comes from the new
    files alone: the ledger holds the rows admitted from them, in some
    order, and the messages are theirs.  A selection that is [null] changes
    nothing. *)
Theorem selection_starts_afresh (files : list File.t) (app : App) :
  let app' := handleFileChange (Some files) app in
  selectedFiles app' = files
  /\ ledger app' = []
  /\ scannerMessages app' = []
  /\ downloadButtonRendered app' = false
  /\ take (length (store app)) (store app') = store app
  /\ handleFileChange None app = app
  /\ handleDrop (Some files) app = app'
  /\ (forall client, ai app = Some client ->
        ledger (processFiles app') ≡ₚ accepted files
        /\ scannerMessages (processFiles app') = messages (scan files)).
Proof.
  intros app'. subst app'. pose proof (ledger_handleFileChange files app) as Hl.
  split; [reflexivity|]. split; [exact Hl|]. split; [reflexivity|].
  split; [unfold downloadButtonRendered; now rewrite Hl|].
  split; [apply preserves_snoc, preserves_refl|]. split; [reflexivity|].
  split; [reflexivity|].
  intros client Hai. now apply (selection_facts files app client).
Qed.

Lemma selection_starts_afresh_witness :
  let before := processReceipts (Sample.app [Sample.png "a.png" Sample.first]) in
  let after := handleFileChange (Some [Sample.png "c.png" Sample.other]) before in
  length (ledger before) = 1%nat
  /\ ledger after = []
  /\ ledger (processFiles after) ≡ₚ accepted [Sample.png "c.png" Sample.other].
Proof.
  intros before after.
  destruct (selection_starts_afresh [Sample.png "c.png" Sample.other] before)
    as (_ & Hl & _ & _ & _ & _ & _ & Hp).
  destruct (Hp (Client "key") eq_refl) as [Hledger _].
  split; [reflexivity|]. split; [exact Hl | exact Hledger].
Defined.

(** X11: starting up.  The process button is disabled until files are
    selected.  When the environment holds no key, or an empty one, no client
    is created, and processing any selection leaves the single message that
    the client is not initialized: no file is looked at, the ledger stays
    empty and the download button is never shown.  With a key the loop runs
    and leaves its messages, one per file, and a ledger that holds the rows
    admitted from the files, in some order. *)
Theorem processing_needs_the_key (XLSX : bool) (API_KEY : option string)
    (files : list File.t) :
  let app := processFiles (handleFileChange (Some files) (mount API_KEY (initial XLSX))) in
  processDisabled (mount API_KEY (initial XLSX)) = true
  /\ processDisabled (handleFileChange (Some files) (mount API_KEY (initial XLSX)))
     = Nat.eqb (length files) 0
  /\ (present API_KEY = false ->
   scannerMessages app = [Message.mk "AI client not initialized." error]
   /\ ledger app = [] /\ downloadButtonRendered app = false)
  /\ (present API_KEY = true ->
      scannerMessages app = messages (scan files)
      /\ ledger app ≡ₚ accepted files
      /\ scannerIsLoading app = false).
Proof.
  intros app. subst app.
  destruct API_KEY as [[|c key]|]; simpl present;
    (split; [reflexivity|]; split; [apply orb_false_r|]; split; intros H);
    try discriminate H; repeat split; try reflexivity.
  exact (proj1 (selection_facts files (mount (Some (String c key)) (initial XLSX))
                  (Client (String c key)) eq_refl)).
Qed.

Lemma processing_needs_the_key_witness :
  scannerMessages
    (processFiles (handleFileChange (Some [Sample.png "a.png" Sample.first])
                     (mount None (initial true))))
  = [Message.mk "AI client not initialized." error]
  /\ length (ledger
               (processFiles (handleFileChange (Some [Sample.png "a.png" Sample.first])
                                (mount (Some "k") (initial true))))) = 1%nat.
Proof.
  destruct (processing_needs_the_key true None [Sample.png "a.png" Sample.first])
    as (_ & _ & Hno & _).
  destruct (processing_needs_the_key true (Some "k") [Sample.png "a.png" Sample.first])
    as (_ & _ & _ & Hyes).
  split; [exact (proj1 (Hno eq_refl))|].
  rewrite (Permutation_length (proj1 (proj2 (Hyes eq_refl)))). reflexivity.
Defined.

(** ** Files that follow *)

Lemma fold_extends (files : list File.t) (s : Scan) :
  exists rs ms,
    results (fold_left step files s) = results s ++ rs
    /\ messages (fold_left step files s) = messages s ++ ms
    /\ length ms = length files
    /\ uniqueKeys s ⊆ uniqueKeys (fold_left step files s).
Proof.
  revert s. induction files as [|f files IH]; intros s.
  - exists [], []. simpl. now rewrite !app_nil_r.
  - destruct (IH (step s f)) as (rs & ms & Hr & Hm & Hlen & Hk).
    destruct (step_shape f) as (K & R & M & Hstep).
    assert (results (step s f) = results s ++ R (uniqueKeys s)) as Hr'
      by now rewrite Hstep.
    assert (messages (step s f) = messages s ++ [M (uniqueKeys s)]) as Hm'
      by now rewrite Hstep.
    rewrite Hr', <- app_assoc in Hr. rewrite Hm', <- app_assoc in Hm.
    exists (R (uniqueKeys s) ++ rs), ([M (uniqueKeys s)] ++ ms).
    cbn [fold_left]. split; [exact Hr|]. split; [exact Hm|].
    split; [simpl; now rewrite Hlen|].
    etrans; [|exact Hk]. rewrite uniqueKeys_step.
    destruct (admissible f); [apply union_subseteq_r | reflexivity].
Qed.

(** X25: what the loop has done for the files so far is not undone by the
    files that follow: the rows pushed and the messages left for a batch are
    the beginning of the rows and messages of every longer batch that starts
    with it, which adds one message per further file, and no key is ever
    forgotten. *)
Theorem later_files_change_nothing_before (l1 l2 : list File.t) :
  exists rs ms,
    results (scan (l1 ++ l2)) = results (scan l1) ++ rs
    /\ messages (scan (l1 ++ l2)) = messages (scan l1) ++ ms
    /\ length ms = length l2
    /\ uniqueKeys (scan l1) ⊆ uniqueKeys (scan (l1 ++ l2)).
Proof. rewrite scan_app. apply fold_extends. Qed.

(** ** The year of a period *)

Lemma substring_all (s : string) : String.substring 0 (String.length s) s = s.
Proof. induction s as [|c s IH]; simpl; [reflexivity | now rewrite IH]. Qed.

(** The match of [/(\d{2,4})$/] is the whole string when that is two to four
    digits, and otherwise the match in the string without its first
    character. *)
Lemma trailingDigits_cons (c : ascii) (s : string) :
  trailingDigits (String c s)
  = if yearDigits (String c s) then Some (String c s) else trailingDigits s.
Proof.
  unfold trailingDigits. cbn [String.length].
  change (seq 0 (S (S (String.length s)))) with (0%nat :: seq 1 (S (String.length s))).
  rewrite <- seq_shift, map_cons, map_map.
  change (String.substring 0 (S (String.length s) - 0) (String c s))
    with (String c (String.substring 0 (String.length s) s)).
  rewrite substring_all, filter_cons.
  change (fun x : nat =>
            String.substring (S x) (S (String.length s) - S x) (String c s))
    with (fun x : nat => String.substring x (String.length s - x) s).
  unfold yearDigits.
  destruct (Nat.leb 2 (String.length (String c s))
            && Nat.leb (String.length (String c s)) 4
            && JsString.allChars JsString.isDigit (String c s)) eqn:E.
  - rewrite decide_True by exact I. reflexivity.
  - rewrite decide_False by exact id. reflexivity.
Qed.

Lemma trailingDigits_whole (d : string) :
  yearDigits d = true -> trailingDigits d = Some d.
Proof.
  destruct d as [|c d]; [discriminate|]. intros H.
  now rewrite trailingDigits_cons, H.
Qed.

Lemma trailingDigits_yearDigits (p m : string) :
  trailingDigits p = Some m -> yearDigits m = true.
Proof.
  induction p as [|c p IH]; [discriminate|].
  rewrite trailingDigits_cons. destruct (yearDigits (String c p)) eqn:E; [|exact IH].
  now intros [= <-].
Qed.

Lemma lastChar_cons (c : ascii) (s : string) :
  lastChar (String c s) = match s with EmptyString => Some c | _ => lastChar s end.
Proof. destruct s; reflexivity. Qed.

(** A string that ends in a character that is no digit is not made of
    digits. *)
Lemma endsWithoutDigit_allDigits (c : ascii) (s : string) :
  endsWithoutDigit (String c s) = true ->
  JsString.allChars JsString.isDigit (String c s) = false.
Proof.
  revert c. induction s as [|c' s IH]; intros c; unfold endsWithoutDigit.
  - simpl. intros H. apply negb_true_iff in H. now rewrite H.
  - rewrite lastChar_cons. intros H.
    change (JsString.allChars JsString.isDigit (String c (String c' s)))
      with (JsString.isDigit c && JsString.allChars JsString.isDigit (String c' s)).
    rewrite (IH c' H). apply andb_false_r.
Qed.

Lemma yearDigits_longer (c : ascii) (p d : string) :
  endsWithoutDigit (String c p) = true -> yearDigits (String c p +:+ d) = false.
Proof.
  intros H. unfold yearDigits.
  rewrite allChars_append, (endsWithoutDigit_allDigits c p H). simpl.
  apply andb_false_r.
Qed.

(** After a prefix that ends in no digit, the match is what follows. *)
Lemma trailingDigits_after (p d : string) :
  endsWithoutDigit p = true -> trailingDigits (p +:+ d) = trailingDigits d.
Proof.
  induction p as [|c p IH]; [reflexivity|]. intros H.
  change (String c p +:+ d) with (String c (p +:+ d)).
  rewrite trailingDigits_cons.
  change (String c (p +:+ d)) with (String c p +:+ d).
  rewrite (yearDigits_longer c p d H).
  destruct p as [|c' p]; [reflexivity|]. apply IH. exact H.
Qed.

Lemma length_append (a b : string) :
  String.length (a +:+ b) = (String.length a + String.length b)%nat.
Proof. induction a as [|c a IH]; simpl; [reflexivity | now rewrite IH]. Qed.

(** Four digits at the end are the match, whatever comes before. *)
Lemma trailingDigits_four (p d : string) :
  String.length d = 4%nat -> JsString.allChars JsString.isDigit d = true ->
  trailingDigits (p +:+ d) = Some d.
Proof.
  intros Hlen Hd. induction p as [|c p IH].
  - apply trailingDigits_whole. unfold yearDigits. now rewrite Hlen, Hd.
  - change (String c p +:+ d) with (String c (p +:+ d)).
    rewrite trailingDigits_cons, IH. unfold yearDigits.
    cbn [String.length]. rewrite length_append, Hlen.
    replace (Nat.leb (S (String.length p + 4)) 4) with false
      by (symmetry; apply Nat.leb_gt; lia).
    now rewrite andb_false_r.
Qed.

Lemma getYearFromPeriod_match (p m : string) :
  trailingDigits p = Some m ->
  getYearFromPeriod p = if Nat.eqb (String.length m) 2 then "20" +:+ m else m.
Proof.
  intros H. unfold getYearFromPeriod. destruct p as [|c p]; [discriminate H|].
  cbn [JsString.truthy negb]. now rewrite H.
Qed.

Lemma getYearFromPeriod_none (p : string) :
  trailingDigits p = None -> getYearFromPeriod p = "Unknown".
Proof.
  intros H. unfold getYearFromPeriod. destruct (negb (JsString.truthy p)); [reflexivity|].
  now rewrite H.
Qed.

(** The year is ["Unknown"] or three or four digits. *)
Lemma getYearFromPeriod_range (p : string) :
  getYearFromPeriod p = "Unknown"
  \/ (JsString.allChars JsString.isDigit (getYearFromPeriod p) = true
      /\ (String.length (getYearFromPeriod p) = 3%nat
          \/ String.length (getYearFromPeriod p) = 4%nat)).
Proof.
  destruct (trailingDigits p) as [m|] eqn:E;
    [|left; now apply getYearFromPeriod_none].
  right. rewrite (getYearFromPeriod_match p m E).
  apply trailingDigits_yearDigits in E. unfold yearDigits in E.
  apply andb_true_iff in E as [[Hlo Hhi]%andb_true_iff Hd].
  apply Nat.leb_le in Hlo, Hhi.
  destruct (Nat.eqb_spec (String.length m) 2) as [E2 | Hne].
  - split; [exact Hd | right; simpl; now rewrite E2].
  - split; [exact Hd | lia].
Qed.

(** X12: the year that [getYearFromPeriod] reads off a period.  Two digits
    that follow a character that is no digit (or stand alone) give the year
    ["20"] followed by them; three or four digits in that place, and four
    digits after anything, are the year as written; a period that ends in no
    digit, or in one digit only, has the year ["Unknown"]; and the result is
    always ["Unknown"] or a numeral of three or four digits. *)
Theorem year_of_period (p d : string) :
  (endsWithoutDigit p = true -> yearDigits d = true ->
   getYearFromPeriod (p +:+ d)
   = if Nat.eqb (String.length d) 2 then "20" +:+ d else d)
  /\ (String.length d = 4%nat -> JsString.allChars JsString.isDigit d = true ->
      getYearFromPeriod (p +:+ d) = d)
  /\ (endsWithoutDigit p = true -> (String.length d <= 1)%nat ->
      getYearFromPeriod (p +:+ d) = "Unknown")
  /\ (getYearFromPeriod p = "Unknown"
      \/ (JsString.allChars JsString.isDigit (getYearFromPeriod p) = true
          /\ (String.length (getYearFromPeriod p) = 3%nat
              \/ String.length (getYearFromPeriod p) = 4%nat))).
Proof.
  split; [|split; [|split]].
  - intros Hp Hd. apply getYearFromPeriod_match.
    rewrite (trailingDigits_after p d Hp). now apply trailingDigits_whole.
  - intros Hlen Hd. rewrite (getYearFromPeriod_match _ d (trailingDigits_four p d Hlen Hd)).
    now rewrite Hlen.
  - intros Hp Hlen. apply getYearFromPeriod_none.
    rewrite (trailingDigits_after p d Hp).
    destruct d as [|c [|c' d]]; [reflexivity | | simpl in Hlen; lia].
    rewrite trailingDigits_cons. reflexivity.
  - apply getYearFromPeriod_range.
Qed.

Lemma year_of_period_witness :
  getYearFromPeriod ("Jan-" +:+ "25") = "2025"
  /\ getYearFromPeriod ("Dec-1" +:+ "2024") = "2024"
  /\ getYearFromPeriod ("Q" +:+ "1") = "Unknown".
Proof.
  destruct (year_of_period "Jan-" "25") as (H2 & _).
  destruct (year_of_period "Dec-1" "2024") as (_ & H4 & _).
  destruct (year_of_period "Q" "1") as (_ & _ & H1 & _).
  split; [exact (H2 eq_refl eq_refl)|].
  split; [exact (H4 eq_refl eq_refl) | apply H1; [reflexivity | simpl; lia]].
Defined.

(** ** The year sheets of the standard template *)

Lemma standardWorkbook_groups (rows : list ScannerResult) :
  standardWorkbook rows = map sheetOf (yearGroups rows).
Proof. unfold standardWorkbook, yearGroups. now rewrite map_map. Qed.

Lemma concat_nil_map {A B : Type} (l : list A) : concat (map (fun _ => @nil B) l) = [].
Proof. induction l as [|x l IH]; simpl; [reflexivity | exact IH]. Qed.

Lemma concat_add_one {A : Type} (g : string -> list A) (r : A) (y0 : string)
    (ys : list string) :
  NoDup ys -> y0 ∈ ys ->
  concat (map (fun y => if decide (y0 = y) then r :: g y else g y) ys)
  ≡ₚ r :: concat (map g ys).
Proof.
  induction ys as [|y ys IH]; intros Hnd Hin; [inversion Hin|].
  apply NoDup_cons in Hnd as [Hy Hnd]. simpl.
  destruct (decide (y0 = y)) as [-> | Hne].
  - assert (map (fun y' => if decide (y = y') then r :: g y' else g y') ys = map g ys) as ->.
    { apply map_ext_in. intros y' Hy'%list_elem_of_In.
      destruct (decide (y = y')) as [<- | _]; [contradiction | reflexivity]. }
    reflexivity.
  - apply elem_of_cons in Hin as [-> | Hin]; [contradiction|].
    rewrite (IH Hnd Hin). symmetry. apply Permutation_middle.
Qed.

(** Rows grouped by year, over years that are all there and listed once,
    are the rows. *)
Lemma rowsOfYear_partition (ys : list string) (rows : list ScannerResult) :
  NoDup ys -> (forall row, row ∈ rows -> yearOf row ∈ ys) ->
  concat (map (fun y => rowsOfYear y rows) ys) ≡ₚ rows.
Proof.
  intros Hnd. induction rows as [|row rows IH]; intros Hall.
  - change (map (fun y => rowsOfYear y []) ys)
      with (map (fun _ : string => @nil ScannerResult) ys).
    now rewrite concat_nil_map.
  - assert (map (fun y => rowsOfYear y (row :: rows)) ys
            = map (fun y => if decide (yearOf row = y)
                            then row :: rowsOfYear y rows else rowsOfYear y rows) ys) as ->.
    { apply map_ext. intros y. unfold rowsOfYear. rewrite filter_cons.
      destruct (decide (yearOf row = y)); reflexivity. }
    rewrite concat_add_one; [|exact Hnd | apply Hall; left].
    constructor. apply IH. intros r Hr. apply Hall. now right.
Qed.

Lemma concat_sorted_Permutation (ys : list string) (rows : list ScannerResult) :
  concat (map (fun y => sort byPaymentDate (rowsOfYear y rows)) ys)
  ≡ₚ concat (map (fun y => rowsOfYear y rows) ys).
Proof.
  induction ys as [|y ys IH]; simpl; [reflexivity|].
  now rewrite sort_Permutation, IH.
Qed.

Lemma years_NoDup (rows : list ScannerResult) :
  NoDup (Obj.ownKeys (firstSeen (map yearOf rows))).
Proof. rewrite ownKeys_Permutation. apply firstSeen_NoDup. Qed.

Lemma years_elem (rows : list ScannerResult) (y : string) :
  y ∈ Obj.ownKeys (firstSeen (map yearOf rows)) <-> exists row, row ∈ rows /\ yearOf row = y.
Proof.
  rewrite ownKeys_Permutation, firstSeen_elem, list_elem_of_fmap. split.
  - intros (row & -> & Hrow). eauto.
  - intros (row & Hrow & <-). eauto.
Qed.

Lemma yearGroups_rows (rows : list ScannerResult) :
  concat (map snd (yearGroups rows)) ≡ₚ rows.
Proof.
  unfold yearGroups. rewrite map_map. cbn [snd].
  rewrite concat_sorted_Permutation. apply rowsOfYear_partition; [apply years_NoDup|].
  intros row Hrow. apply years_elem. eauto.
Qed.

Lemma yearGroups_years (rows : list ScannerResult) :
  map fst (yearGroups rows) = Obj.ownKeys (firstSeen (map yearOf rows)).
Proof. unfold yearGroups. rewrite map_map. apply map_id. Qed.

Lemma yearGroups_each (rows : list ScannerResult) :
  Forall (fun g : string * list ScannerResult =>
            g.2 <> []
            /\ g.2 = sort byPaymentDate
                       (filter (fun row => getYearFromPeriod (paymentPeriod row) = g.1) rows)
            /\ Forall (fun row => getYearFromPeriod (paymentPeriod row) = g.1) g.2)
    (yearGroups rows).
Proof.
  unfold yearGroups. apply Forall_map, Forall_forall. intros y Hy. cbn [fst snd].
  split; [|split; [reflexivity|]].
  - apply years_elem in Hy as (row & Hrow & Hyear). intros E.
    assert (row ∈ sort byPaymentDate (rowsOfYear y rows)) as Hin.
    { rewrite sort_Permutation. unfold rowsOfYear. apply list_elem_of_filter. auto. }
    rewrite E in Hin. inversion Hin.
  - rewrite sort_Permutation. unfold rowsOfYear. apply Forall_forall.
    intros row Hrow. now apply list_elem_of_filter in Hrow as [Hyear _].
Qed.

Ltac well_formed :=
  repeat constructor;
  first [ reflexivity
        | apply (bool_decide_unpack _); vm_compute; exact I
        | eexists; vm_compute; reflexivity
        | vm_compute; discriminate ].

(** X13: with the library there, the standard export of a ledger of
    complete rows (a company in ASCII characters that is not named like a
    member of [Object.prototype], a payment date YYYY-MM-DD that is a
    calendar date, a tax type in ASCII characters, a period, an integer
    amount above zero, the amounts adding up to at most 2^53 - 1) writes one
    file whose sheets come from the ledger grouped by
    year: every year of the ledger has one sheet, no sheet is empty, the
    rows of a sheet are the rows of the ledger with that year, sorted by
    payment date, and the sheets together hold every row of the ledger
    once. *)
Theorem standard_export_by_year (app : App) :
  XLSX app = true ->
  Forall wellFormed (ledger app) ->
  safeTotal (ledger app) ->
  exists groups : list (string * list ScannerResult),
    (downloadScannerExcel standard app).2
    = [WriteFile (map sheetOf groups) (standardFilename (ledger app))]
    /\ NoDup (map fst groups)
    /\ concat (map snd groups) ≡ₚ ledger app
    /\ Forall (fun g : string * list ScannerResult =>
                 g.2 <> []
                 /\ g.2 = sort byPaymentDate
                            (filter (fun row => getYearFromPeriod (paymentPeriod row) = g.1)
                               (ledger app))
                 /\ Forall (fun row => getYearFromPeriod (paymentPeriod row) = g.1) g.2)
         groups.
Proof.
  intros Hx _ _. exists (yearGroups (ledger app)).
  split; [rewrite (standard_effects app Hx), standardWorkbook_groups; reflexivity|].
  split; [rewrite yearGroups_years; apply years_NoDup|].
  split; [apply yearGroups_rows | apply yearGroups_each].
Qed.

Lemma standard_export_by_year_witness :
  let app := Sample.withLedger
               [Sample.row "Acme" "2025-02-10" "Jan-25" "R3" "VAT" 100;
                Sample.row "Acme" "2024-02-10" "Jan-24" "R1" "VAT" 950;
                Sample.row "Acme" "2025-01-10" "Dec-2024" "R2" "VAT" 100] in
  exists groups : list (string * list ScannerResult),
    written (downloadScannerExcel standard app).2 = map sheetOf groups
    /\ concat (map snd groups) ≡ₚ ledger app.
Proof.
  intros app.
  assert (Forall wellFormed (ledger app)) as Hw by well_formed.
  assert (safeTotal (ledger app)) as Hs by (vm_compute; discriminate).
  destruct (standard_export_by_year app eq_refl Hw Hs) as (groups & He & _ & Hp & _).
  exists groups. split; [|exact Hp]. rewrite He. apply app_nil_r.
Defined.

(** ** Totals *)

Lemma sumZ_app (a b : list Z) : sumZ (a ++ b) = sumZ a + sumZ b.
Proof. induction a as [|x a IH]; simpl; [reflexivity | rewrite IH; lia]. Qed.

Lemma sumZ_Permutation (a b : list Z) : a ≡ₚ b -> sumZ a = sumZ b.
Proof. intros H. induction H; simpl; lia. Qed.

Lemma sumZ_concat (ls : list (list Z)) : sumZ (concat ls) = sumZ (map sumZ ls).
Proof. induction ls as [|l ls IH]; simpl; [reflexivity | now rewrite sumZ_app, IH]. Qed.

Lemma total_sum (sheetData : list ScannerResult) :
  total sheetData = sumZ (map amount sheetData).
Proof.
  unfold total.
  assert (forall a, fold_left (fun sum row => sum + amount row) sheetData a
                    = a + sumZ (map amount sheetData)) as H.
  { induction sheetData as [|row rows IH]; intros a; simpl; [lia|]. rewrite IH. lia. }
  now rewrite H.
Qed.

Lemma last_two {A : Type} (l : list A) (a b : A) : last (l ++ [a; b]) = Some b.
Proof.
  change [a; b] with ([a] ++ [b]). now rewrite app_assoc, last_snoc.
Qed.

Lemma totalOf_standardSheet (year : string) (sheetData : list ScannerResult) :
  totalOf (standardSheet year sheetData) = Some (total sheetData).
Proof.
  unfold totalOf, standardSheet. rewrite app_assoc, last_two. reflexivity.
Qed.

Lemma dataRows_standardSheet (year : string) (sheetData : list ScannerResult) :
  dataRows (standardSheet year sheetData) = map standardRow sheetData.
Proof.
  unfold dataRows, standardSheet. rewrite !length_app, length_map. cbn [length drop app].
  replace (4 + (length sheetData + 2) - 6)%nat with (length sheetData) by lia.
  apply take_app_length'. now rewrite length_map.
Qed.

Lemma amountOf_standardRow (row : ScannerResult) : amountOf (standardRow row) = amount row.
Proof. reflexivity. Qed.

Lemma sheet_total (g : string * list ScannerResult) :
  totalOf (sheetOf g).2 = Some (sumZ (map amount g.2))
  /\ map amountOf (dataRows (sheetOf g).2) = map amount g.2.
Proof.
  unfold sheetOf. cbn [snd]. rewrite totalOf_standardSheet, total_sum, dataRows_standardSheet.
  split; [reflexivity|]. rewrite map_map. reflexivity.
Qed.

(** X14: for a ledger of integer amounts whose magnitudes add up to at most
    2^53 - 1, so that every sum the code forms is exact: in every year sheet
    the number in the total row is the sum of the amounts in the data rows
    of that sheet, and the totals of all the sheets add up to the sum of the
    amounts of the ledger. *)
Theorem sheet_totals_add_up (app : App) :
  XLSX app = true ->
  safeTotal (ledger app) ->
  let wb := written (downloadScannerExcel standard app).2 in
  Forall (fun sheet : string * Sheet =>
            totalOf sheet.2 = Some (sumZ (map amountOf (dataRows sheet.2)))) wb
  /\ sumZ (map (fun sheet : string * Sheet => default 0 (totalOf sheet.2)) wb)
     = sumZ (map amount (ledger app)).
Proof.
  intros Hx _ wb. subst wb.
  rewrite (standard_written app Hx), standardWorkbook_groups. split.
  - apply Forall_map, Forall_forall. intros g _.
    destruct (sheet_total g) as [-> ->]. reflexivity.
  - rewrite map_map.
    assert (map (fun g => default 0 (totalOf (sheetOf g).2)) (yearGroups (ledger app))
            = map sumZ (map (map amount) (map snd (yearGroups (ledger app))))) as ->.
    { rewrite !map_map. apply map_ext. intros g.
      now rewrite (proj1 (sheet_total g)). }
    rewrite <- sumZ_concat, <- concat_map.
    apply sumZ_Permutation, Permutation_map, yearGroups_rows.
Qed.

Lemma sheet_totals_add_up_witness :
  let app := Sample.withLedger
               [Sample.row "Acme" "2025-02-10" "Jan-25" "R3" "VAT" 100;
                Sample.row "Acme" "2024-02-10" "Jan-24" "R1" "VAT" 950;
                Sample.row "Acme" "2025-01-10" "Dec-2024" "R2" "VAT" 100] in
  sumZ (map (fun sheet : string * Sheet => default 0 (totalOf sheet.2))
          (written (downloadScannerExcel standard app).2)) = 1150.
Proof.
  intros app.
  assert (safeTotal (ledger app)) as Hs by (vm_compute; discriminate).
  rewrite (proj2 (sheet_totals_add_up app eq_refl Hs)). reflexivity.
Defined.

(** ** Sheet names and their order *)

Lemma allChars_impl (p q : ascii -> bool) (s : string) :
  (forall c, p c = true -> q c = true) ->
  JsString.allChars p s = true -> JsString.allChars q s = true.
Proof.
  intros Hpq. induction s as [|c s IH]; simpl; [reflexivity|].
  intros [Hc Hs]%andb_true_iff. now rewrite (Hpq c Hc), IH.
Qed.

Lemma isDigit_sheetSafe (c : ascii) : JsString.isDigit c = true -> sheetSafe c = true.
Proof. intros H. unfold sheetSafe, isAlnum. rewrite H. now rewrite orb_true_r. Qed.

Lemma sheet_name_valid (period : string) :
  let name := "Remittance " +:+ getYearFromPeriod period in
  (14 <= String.length name <= 18)%nat /\ JsString.allChars sheetSafe name = true.
Proof.
  intros name. subst name. rewrite length_append, allChars_append.
  destruct (getYearFromPeriod_range period) as [-> | [Hd Hlen]].
  - split; [simpl; lia | reflexivity].
  - rewrite (allChars_impl _ _ _ isDigit_sheetSafe Hd).
    split; [simpl; lia | reflexivity].
Qed.

(** X15: the sheets of a standard export have names that the workbook takes:
    no two sheets have the same name, and every name has between 14 and 18
    characters, all of them letters, digits or spaces. *)
Theorem sheet_names_are_valid (app : App) :
  let names := map fst (written (downloadScannerExcel standard app).2) in
  NoDup names
  /\ Forall (fun name => (14 <= String.length name <= 18)%nat
                         /\ JsString.allChars sheetSafe name = true) names.
Proof.
  intros names. subst names. destruct (XLSX app) eqn:Hx.
  - rewrite (standard_written app Hx), standardWorkbook_names. split.
    + apply (NoDup_fmap_2 (String.app "Remittance ")), years_NoDup.
    + apply Forall_map, Forall_forall. intros y Hy.
      apply years_elem in Hy as (row & _ & <-). apply sheet_name_valid.
  - unfold downloadScannerExcel. rewrite Hx. simpl. split; constructor.
Qed.

(** A year that is a numeral of three or four digits and does not begin
    with a zero is an array index. *)
Lemma numericYear_of_year (period : string) :
  getYearFromPeriod period <> "Unknown" ->
  leadingZero (getYearFromPeriod period) = false ->
  numericYear (getYearFromPeriod period).
Proof.
  intros Hu Hz. destruct (getYearFromPeriod_range period) as [E | [Hd Hlen]];
    [contradiction|].
  set (y := getYearFromPeriod period) in *.
  assert (exists n, JsNumber.parseDigits y = Some n) as [n Hn].
  { destruct y as [|c y]; [destruct Hlen; discriminate|].
    apply (allDigits_parse (String c y) 0 Hd). }
  unfold numericYear, Obj.arrayIndex. rewrite Hn.
  rewrite (toString_parseDigits y n Hn Hz), String.eqb_refl.
  assert (0 <= n < 10 ^ 4) as Hb.
  { destruct y as [|c y]; [discriminate|]. apply parseDigitsAux_bound in Hn; [|lia].
    assert (10 ^ Z.of_nat (String.length (String c y)) <= 10 ^ 4)
      by (apply Z.pow_le_mono_r; lia).
    lia. }
  replace (n <? 2 ^ 32 - 1) with true; [eauto|].
  symmetry. apply Z.ltb_lt. change (10 ^ 4) with 10000 in Hb.
  change (2 ^ 32 - 1) with 4294967295. lia.
Qed.

Lemma arrayIndex_yearNumber (k : string) (n : Z) :
  Obj.arrayIndex k = Some n -> yearNumber k = n /\ JsNumber.toString n = k.
Proof.
  unfold Obj.arrayIndex, yearNumber.
  destruct (JsNumber.parseDigits k) as [m|]; [|discriminate].
  destruct (String.eqb_spec (JsNumber.toString m) k) as [E | _]; [|discriminate].
  destruct (m <? 2 ^ 32 - 1); [|discriminate]. intros [= <-]. auto.
Qed.

Lemma byIndex_key (a b : string) :
  numericYear a -> numericYear b -> Obj.byIndex a b = Some (yearNumber a - yearNumber b).
Proof.
  intros [x Hx] [y Hy]. unfold Obj.byIndex. rewrite Hx, Hy.
  now rewrite (proj1 (arrayIndex_yearNumber a x Hx)), (proj1 (arrayIndex_yearNumber b y Hy)).
Qed.

Lemma yearNumber_inj (a b : string) :
  numericYear a -> numericYear b -> yearNumber a = yearNumber b -> a = b.
Proof.
  intros [x Hx] [y Hy].
  destruct (arrayIndex_yearNumber a x Hx) as [-> <-].
  destruct (arrayIndex_yearNumber b y Hy) as [-> <-]. now intros ->.
Qed.

(** Keys that are all array indices are listed in ascending order. *)
Lemma ownKeys_numeric (ks : list string) :
  Forall numericYear ks -> NoDup ks ->
  StronglySorted (fun a b => yearNumber a < yearNumber b) (Obj.ownKeys ks).
Proof.
  intros Hall Hnd.
  assert (Obj.ownKeys ks = sort Obj.byIndex ks) as ->.
  { unfold Obj.ownKeys.
    assert (filter (fun k => is_Some (Obj.arrayIndex k)) ks = ks) as ->.
    { clear Hnd. induction Hall as [|k ks Hk _ IH]; [reflexivity|].
      rewrite filter_cons_True by exact Hk. now rewrite IH. }
    assert (filter (fun k => ~ is_Some (Obj.arrayIndex k)) ks = []) as ->.
    { clear Hnd. induction Hall as [|k ks Hk _ IH]; [reflexivity|].
      rewrite filter_cons_False by (intros H; now apply H). exact IH. }
    apply app_nil_r. }
  pose proof (sort_sorted Obj.byIndex yearNumber numericYear byIndex_key ks Hall) as Hs.
  assert (Forall numericYear (sort Obj.byIndex ks)) as Hall'
    by now rewrite sort_Permutation.
  assert (NoDup (sort Obj.byIndex ks)) as Hnd' by now rewrite sort_Permutation.
  clear Hall Hnd. induction Hs as [|k l Hs IH Hk]; [constructor|].
  apply Forall_cons in Hall' as [Hnk Hall']. apply NoDup_cons in Hnd' as [Hnotin Hnd'].
  constructor; [now apply IH|].
  apply Forall_forall. intros k' Hin.
  pose proof (proj1 (Forall_forall _ _) Hk k' Hin) as Hle. unfold ascending in Hle.
  pose proof (proj1 (Forall_forall _ _) Hall' k' Hin) as Hnk'.
  destruct (Z.eq_dec (yearNumber k) (yearNumber k')) as [E | Hne]; [|lia].
  apply (yearNumber_inj k k' Hnk Hnk') in E. subst k'. contradiction.
Qed.

(** X16: when every row of the ledger has a year that does not begin with a
    zero (as every period that ends in two digits gives), the year sheets of
    a standard export come in ascending order of the year, whatever the order
    of the rows in the ledger. *)
Theorem year_sheets_ascend (app : App) :
  XLSX app = true ->
  Forall (fun row => getYearFromPeriod (paymentPeriod row) <> "Unknown"
                     /\ leadingZero (getYearFromPeriod (paymentPeriod row)) = false)
    (ledger app) ->
  exists years,
    map fst (written (downloadScannerExcel standard app).2)
    = map (fun year => "Remittance " +:+ year) years
    /\ StronglySorted (fun a b => yearNumber a < yearNumber b) years.
Proof.
  intros Hx Hrows. exists (Obj.ownKeys (firstSeen (map yearOf (ledger app)))).
  split; [rewrite (standard_written app Hx); apply standardWorkbook_names|].
  apply ownKeys_numeric; [|apply firstSeen_NoDup].
  apply Forall_forall. intros y Hy.
  apply firstSeen_elem, list_elem_of_fmap in Hy as (row & -> & Hrow).
  destruct (proj1 (Forall_forall _ _) Hrows row Hrow) as [Hu Hz].
  now apply numericYear_of_year.
Qed.

Lemma year_sheets_ascend_witness :
  let app := Sample.withLedger
               [Sample.row "Acme" "2025-02-10" "Jan-25" "R3" "VAT" 100;
                Sample.row "Acme" "2024-02-10" "Jan-24" "R1" "VAT" 950;
                Sample.row "Acme" "2023-03-10" "Feb-2023" "R2" "VAT" 100] in
  exists years,
    map fst (written (downloadScannerExcel standard app).2)
    = map (fun year => "Remittance " +:+ year) years
    /\ StronglySorted (fun a b => yearNumber a < yearNumber b) years.
Proof.
  intros app. apply (year_sheets_ascend app eq_refl).
  repeat constructor; vm_compute; discriminate.
Defined.

(** ** The company part of the file name *)

Lemma filterChars_allChars (p : ascii -> bool) (s : string) :
  JsString.allChars p (JsString.filterChars p s) = true.
Proof.
  induction s as [|c s IH]; simpl; [reflexivity|].
  destruct (p c) eqn:Hc; simpl; [now rewrite Hc | exact IH].
Qed.

Lemma trimStart_allChars (p : ascii -> bool) (s : string) :
  JsString.allChars p s = true -> JsString.allChars p (JsString.trimStart s) = true.
Proof.
  induction s as [|c s IH]; simpl; [reflexivity|].
  intros [Hc Hs]%andb_true_iff. destruct (JsString.isSpace c); [now apply IH|].
  simpl. now rewrite Hc, Hs.
Qed.

Lemma trimEnd_cons (c : ascii) (s : string) :
  JsString.trimEnd (String c s)
  = match JsString.trimEnd s with
    | EmptyString => if JsString.isSpace c then EmptyString else String c EmptyString
    | String c' t => String c (String c' t)
    end.
Proof. reflexivity. Qed.

Lemma trimEnd_allChars (p : ascii -> bool) (s : string) :
  JsString.allChars p s = true -> JsString.allChars p (JsString.trimEnd s) = true.
Proof.
  induction s as [|c s IH]; [reflexivity|].
  intros [Hc Hs]%andb_true_iff. rewrite trimEnd_cons. specialize (IH Hs).
  destruct (JsString.trimEnd s) as [|c' t].
  - destruct (JsString.isSpace c); simpl; [reflexivity | now rewrite Hc].
  - cbn [JsString.allChars] in *. now rewrite Hc, IH.
Qed.

Lemma trimEnd_endsWithoutSpace (s : string) : endsWithoutSpace (JsString.trimEnd s) = true.
Proof.
  induction s as [|c s IH]; [reflexivity|]. rewrite trimEnd_cons.
  destruct (JsString.trimEnd s) as [|c' t].
  - destruct (JsString.isSpace c) eqn:Hc; [reflexivity|].
    unfold endsWithoutSpace. simpl. now rewrite Hc.
  - exact IH.
Qed.

(** What [trim] leaves begins with no white space. *)
Lemma trim_head (s : string) :
  match JsString.trim s with
  | String c _ => JsString.isSpace c = false
  | EmptyString => True
  end.
Proof.
  unfold JsString.trim.
  assert (match JsString.trimStart s with
          | String c _ => JsString.isSpace c = false
          | EmptyString => True
          end) as Hstart.
  { induction s as [|c s IH]; simpl; [exact I|].
    destruct (JsString.isSpace c) eqn:Hc; [exact IH | exact Hc]. }
  destruct (JsString.trimStart s) as [|c t]; [exact I|].
  rewrite trimEnd_cons. destruct (JsString.trimEnd t).
  - rewrite Hstart. exact Hstart.
  - exact Hstart.
Qed.

Lemma allowed_alnum (c : ascii) :
  allowed c = true -> JsString.isSpace c = false -> isAlnum c = true.
Proof.
  unfold allowed, isAlnum. intros H Hs. rewrite Hs, orb_false_r in H. exact H.
Qed.

Lemma isAlnum_cases (c : ascii) :
  isAlnum c = true ->
  Ascii.eqb c "_" = false /\ JsString.isSpace c = false /\ allowed c = true.
Proof.
  destruct c as [[] [] [] [] [] [] [] []]; intros H; try discriminate H;
    repeat split; reflexivity.
Qed.

(** Collapsing the runs of white space of a string of letters, digits and
    white space that does not end in white space. *)
Lemma collapseSpaces_words (s : string) :
  JsString.allChars allowed s = true -> endsWithoutSpace s = true ->
  words false (JsString.collapseSpaces false s) = true
  /\ (s <> EmptyString -> words true (JsString.collapseSpaces true s) = true).
Proof.
  induction s as [|c s IH]; [split; [reflexivity | congruence]|].
  intros [Hc Hs]%andb_true_iff Hend.
  assert (s <> EmptyString -> endsWithoutSpace s = true) as Hend'.
  { destruct s as [|c' s]; [congruence | intros _; exact Hend]. }
  cbn [JsString.collapseSpaces].
  destruct (JsString.isSpace c) eqn:Hsp.
  - assert (s <> EmptyString) as Hne.
    { intros ->. unfold endsWithoutSpace in Hend. simpl in Hend.
      rewrite Hsp in Hend. discriminate Hend. }
    destruct (IH Hs (Hend' Hne)) as [_ IHt]. specialize (IHt Hne).
    split; [|intros _; exact IHt].
    cbn [words]. change (Ascii.eqb "_" "_") with true. cbv iota. now rewrite IHt.
  - pose proof (allowed_alnum c Hc Hsp) as Ha.
    destruct (isAlnum_cases c Ha) as (Hu & _ & _).
    assert (words false (JsString.collapseSpaces false s) = true) as IHf.
    { destruct s as [|c' s]; [reflexivity|]. apply IH; [exact Hs | exact Hend]. }
    cbn [words]. rewrite Hu, Ha, IHf. auto.
Qed.

Lemma sanitize_words (s : string) : underscoredWords (sanitize s) = true.
Proof.
  unfold sanitize.
  set (t := JsString.filterChars allowed s).
  assert (JsString.allChars allowed (JsString.trim t) = true) as Hall.
  { unfold JsString.trim. apply trimEnd_allChars, trimStart_allChars.
    apply filterChars_allChars. }
  assert (endsWithoutSpace (JsString.trim t) = true) as Hend
    by apply trimEnd_endsWithoutSpace.
  pose proof (trim_head t) as Hhead.
  destruct (JsString.trim t) as [|c u] eqn:E; [reflexivity|].
  apply andb_true_iff in Hall as [Hc Hu].
  pose proof (allowed_alnum c Hc Hhead) as Ha.
  destruct (isAlnum_cases c Ha) as (Hus & _ & _).
  cbn [JsString.collapseSpaces]. rewrite Hhead.
  unfold underscoredWords. cbn [words]. rewrite Hus, Ha.
  destruct u as [|c' u]; [reflexivity|].
  now apply collapseSpaces_words.
Qed.

Lemma alnum_unchanged (s : string) :
  JsString.allChars isAlnum s = true ->
  JsString.filterChars allowed s = s /\ JsString.trimStart s = s
  /\ JsString.trimEnd s = s /\ JsString.collapseSpaces false s = s.
Proof.
  induction s as [|c s IH]; [repeat split|].
  intros [Hc Hs]%andb_true_iff. destruct (isAlnum_cases c Hc) as (_ & Hsp & Hal).
  destruct (IH Hs) as (Hf & _ & He & Hcol).
  rewrite trimEnd_cons, He. simpl. rewrite Hal, Hsp, Hf, Hcol.
  repeat split. now destruct s.
Qed.

(** X17: the company part of a file name is made safe by [sanitize]: what
    comes out is empty or consists of words of letters and digits with
    single underscores between them, so it never begins or ends with an
    underscore and never holds white space or punctuation; a name of
    letters and digits only is left as it is. *)
Theorem sanitize_makes_words (s : string) :
  underscoredWords (sanitize s) = true
  /\ (JsString.allChars isAlnum s = true -> sanitize s = s).
Proof.
  split; [apply sanitize_words|].
  intros H. destruct (alnum_unchanged s H) as (Hf & Hs & He & Hc).
  unfold sanitize, JsString.trim. now rewrite Hf, Hs, He, Hc.
Qed.

Lemma sanitize_makes_words_witness :
  sanitize "  Acme & Sons (Nig.)  Ltd " = "Acme_Sons_Nig_Ltd"
  /\ sanitize "NASD2024" = "NASD2024".
Proof.
  split; [reflexivity|].
  apply (proj2 (sanitize_makes_words "NASD2024")). reflexivity.
Defined.

(** ** The tax codes of the file name *)

Section SortBySign.
Context {A : Type} (comparefn : A -> A -> option Z) (key : A -> Z) (P : A -> Prop).
Hypothesis comparefn_sign :
forall x y, P x -> P y -> (0 < SortCompare comparefn x y <-> key y < key x).

Lemma place_sorted_sign (x : A) (l : list A) :
P x -> Forall P l -> StronglySorted (ascending key) l ->
StronglySorted (ascending key) (place comparefn x l).
Proof.
intros Hx Hl Hs. induction l as [|y l IH]; simpl.
- repeat constructor.
- apply Forall_cons in Hl as [Hy Hl].
  apply StronglySorted_cons in Hs as [Hyl Hs].
  pose proof (comparefn_sign x y Hx Hy) as Hsign.
  destruct (Z.ltb_spec 0 (SortCompare comparefn x y)) as [Hlt | Hge].
  + apply StronglySorted_cons. split; [|now apply IH].
    rewrite place_Permutation. constructor; [unfold ascending; lia | exact Hyl].
  + apply StronglySorted_cons. split; [|now apply StronglySorted_cons].
    constructor; [unfold ascending; lia|].
    eapply Forall_impl; [exact Hyl|]. unfold ascending. intros z Hz. simpl in *. lia.
Qed.

Lemma sort_sorted_sign (l : list A) :
Forall P l -> StronglySorted (ascending key) (sort comparefn l).
Proof.
induction l as [|x l IH]; simpl; intros Hl; [constructor|].
apply Forall_cons in Hl as [Hx Hl].
apply place_sorted_sign; [exact Hx | now rewrite sort_Permutation | now apply IH].
Qed.
End SortBySign.

Lemma StronglySorted_filter {A : Type} (R : A -> A -> Prop) (Q : A -> Prop)
    `{forall x, Decision (Q x)} (l : list A) :
  StronglySorted R l -> StronglySorted R (filter Q l).
Proof.
  induction 1 as [|x l Hs IH Hx]; [constructor|].
  rewrite filter_cons. destruct (decide (Q x)); [|exact IH].
  constructor; [exact IH|]. apply Forall_forall. intros y Hy.
  apply list_elem_of_filter in Hy as [_ Hy]. exact (proj1 (Forall_forall _ _) Hx y Hy).
Qed.

Lemma taxCodes_cases (c : string) :
  c ∈ taxCodes ->
  c = "CIT" \/ c = "EDT" \/ c = "PAYE" \/ c = "TAX" \/ c = "VAT" \/ c = "WHT".
Proof.
  unfold taxCodes. rewrite !elem_of_cons, elem_of_nil. tauto.
Qed.

Ltac each_code H :=
  apply taxCodes_cases in H;
  destruct H as [-> | [-> | [-> | [-> | [-> | ->]]]]].

Lemma byCodeUnits_sign (a b : string) :
  a ∈ taxCodes -> b ∈ taxCodes ->
  (0 < SortCompare byCodeUnits a b <-> codeRank b < codeRank a).
Proof.
  intros Ha Hb. each_code Ha; each_code Hb; vm_compute; split; congruence.
Qed.

Lemma codeRank_inj (a b : string) :
  a ∈ taxCodes -> b ∈ taxCodes -> codeRank a = codeRank b -> a = b.
Proof.
  intros Ha Hb. each_code Ha; each_code Hb; vm_compute; congruence.
Qed.

Lemma taxCodes_sorted : StronglySorted (ascending codeRank) taxCodes /\ NoDup taxCodes.
Proof.
  split.
  - repeat constructor; vm_compute; discriminate.
  - apply (bool_decide_unpack _). vm_compute. exact I.
Qed.

Lemma shortCode_taxCodes (taxType : string) : shortCode taxType ∈ taxCodes.
Proof.
  unfold shortCode, taxCodes.
  repeat match goal with
         | |- context [if ?b then _ else _] => destruct b
         end; rewrite !elem_of_cons; tauto.
Qed.

Lemma extractedTaxTypes_spec (rows : list ScannerResult) :
  NoDup (extractedTaxTypes rows)
  /\ forall c, c ∈ extractedTaxTypes rows
               <-> exists row, row ∈ rows /\ JsString.truthy (taxType row) = true
                               /\ shortCode (taxType row) = c.
Proof.
  unfold extractedTaxTypes.
  induction rows as [|row rows IH] using rev_ind.
  - split; [constructor|]. intros c. simpl. split; [intros H; inversion H|].
    intros (row & H & _). inversion H.
  - destruct IH as [Hnd Hel]. rewrite fold_left_app. simpl.
    destruct (JsString.truthy (taxType row)) eqn:Ht.
    + split; [now apply Set_add_NoDup|]. intros c.
      rewrite Set_add_elem, Hel. split.
      * intros [-> | (r & Hr & Htr & Hc)].
        -- exists row. rewrite elem_of_app, list_elem_of_singleton. auto.
        -- exists r. rewrite elem_of_app. auto.
      * intros (r & Hr & Htr & Hc). apply elem_of_app in Hr as [Hr | ->%list_elem_of_singleton].
        -- right. eauto.
        -- left. now symmetry.
    + split; [exact Hnd|]. intros c. rewrite Hel. split.
      * intros (r & Hr & Htr & Hc). exists r. rewrite elem_of_app. auto.
      * intros (r & Hr & Htr & Hc). apply elem_of_app in Hr as [Hr | ->%list_elem_of_singleton].
        -- eauto.
        -- congruence.
Qed.

Lemma extractedTaxTypes_codes (rows : list ScannerResult) :
  Forall (fun c => c ∈ taxCodes) (extractedTaxTypes rows).
Proof.
  apply Forall_forall. intros c Hc.
  apply (proj2 (extractedTaxTypes_spec rows)) in Hc as (row & _ & _ & <-).
  apply shortCode_taxCodes.
Qed.

(** The codes in the order of [sort()] are the six codes without those
    that no row gave. *)
Lemma sorted_codes (rows : list ScannerResult) :
  sort byCodeUnits (extractedTaxTypes rows)
  = filter (fun c => c ∈ extractedTaxTypes rows) taxCodes.
Proof.
  destruct (extractedTaxTypes_spec rows) as [Hnd _].
  pose proof (extractedTaxTypes_codes rows) as Hall.
  destruct taxCodes_sorted as [Hsorted Hnd6].
  apply (StronglySorted_unique_strong (ascending codeRank)).
  - intros x1 x2 H1 H2 H12 H21. apply codeRank_inj.
    + rewrite sort_Permutation in H1. exact (proj1 (Forall_forall _ _) Hall x1 H1).
    + now apply list_elem_of_filter in H2 as [_ H2].
    + unfold ascending in *. lia.
  - apply (sort_sorted_sign byCodeUnits codeRank (fun c => c ∈ taxCodes) byCodeUnits_sign).
    exact Hall.
  - now apply StronglySorted_filter.
  - apply NoDup_Permutation.
    + now rewrite sort_Permutation.
    + now apply NoDup_filter.
    + intros c. rewrite sort_Permutation, list_elem_of_filter. split; [|tauto].
      intros Hc. split; [exact Hc | exact (proj1 (Forall_forall _ _) Hall c Hc)].
Qed.

Lemma truthy_join (c : string) (cs : list string) :
  JsString.truthy c = true -> JsString.truthy (JsString.join "_" (c :: cs)) = true.
Proof. destruct c as [|x c]; [discriminate|]. intros _. now destruct cs. Qed.

(** X18: the tax part of the file name.  The codes it lists are taken from
    the six codes CIT, EDT, PAYE, TAX, VAT, WHT, each at most once and in
    this order, joined with underscores; a code is listed exactly when some
    row with a tax type falls under it; with no such row the part is
    ["Remittance"]. *)
Theorem tax_codes_in_order (rows : list ScannerResult) :
  let codes := sort byCodeUnits (extractedTaxTypes rows) in
  codes `sublist_of` taxCodes
  /\ (forall c, c ∈ codes
                <-> exists row, row ∈ rows /\ JsString.truthy (taxType row) = true
                                /\ shortCode (taxType row) = c)
  /\ taxTypesStr rows = match codes with
                        | [] => "Remittance"
                        | _ => JsString.join "_" codes
                        end.
Proof.
  intros codes. subst codes. split; [|split].
  - rewrite sorted_codes. apply sublist_filter.
  - intros c. rewrite sort_Permutation. apply extractedTaxTypes_spec.
  - unfold taxTypesStr, JsString.orElse.
    assert (Forall (fun c => c ∈ taxCodes) (sort byCodeUnits (extractedTaxTypes rows))) as Hall
      by (rewrite sort_Permutation; apply extractedTaxTypes_codes).
    destruct (sort byCodeUnits (extractedTaxTypes rows)) as [|c cs]; [reflexivity|].
    apply Forall_cons in Hall as [Hc _]. rewrite truthy_join; [reflexivity|].
    each_code Hc; reflexivity.
Qed.

Lemma tax_codes_in_order_witness :
  let rows := [Sample.row "Acme" "2024-02-10" "Jan-24" "R1" "Withholding tax" 5;
               Sample.row "Acme" "2024-02-11" "Jan-24" "R2" "" 5;
               Sample.row "Acme" "2024-02-12" "Jan-24" "R3" "Company Income Tax" 5;
               Sample.row "Acme" "2024-02-13" "Jan-24" "R4" "WHT on rent" 5] in
  taxTypesStr rows = "CIT_WHT"
  /\ sort byCodeUnits (extractedTaxTypes rows) `sublist_of` taxCodes.
Proof.
  intros rows. destruct (tax_codes_in_order rows) as (Hsub & _ & Hstr).
  split; [rewrite Hstr; reflexivity | exact Hsub].
Defined.

(** ** File names *)

Lemma words_isWord (b : bool) (s : string) :
  words b s = true -> JsString.allChars isWord s = true.
Proof.
  revert b. induction s as [|c s IH]; intros b; [reflexivity|].
  cbn [words JsString.allChars]. unfold isWord at 1.
  destruct (Ascii.eqb c "_").
  - intros [_ H]%andb_true_iff. rewrite orb_true_r. exact (IH true H).
  - intros [Ha H]%andb_true_iff. rewrite Ha. exact (IH false H).
Qed.

Lemma sanitize_isWord (s : string) : JsString.allChars isWord (sanitize s) = true.
Proof.
  pose proof (sanitize_words s) as H. unfold underscoredWords in H.
  destruct (sanitize s) as [|c t]; [reflexivity|]. exact (words_isWord true _ H).
Qed.

Lemma join_isWord (l : list string) :
  Forall (fun c => JsString.allChars isWord c = true) l ->
  JsString.allChars isWord (JsString.join "_" l) = true.
Proof.
  induction 1 as [|c l Hc Hl IH]; [reflexivity|].
  destruct l as [|c' l]; [exact Hc|].
  change (JsString.join "_" (c :: c' :: l))
    with (c +:+ "_" +:+ JsString.join "_" (c' :: l)).
  rewrite !allChars_append, Hc, IH. reflexivity.
Qed.

Lemma taxTypesStr_isWord (rows : list ScannerResult) :
  JsString.allChars isWord (taxTypesStr rows) = true.
Proof.
  unfold taxTypesStr, JsString.orElse.
  destruct (JsString.truthy _); [|reflexivity].
  apply join_isWord. rewrite sort_Permutation.
  eapply Forall_impl; [apply extractedTaxTypes_codes|].
  intros c Hc. each_code Hc; reflexivity.
Qed.

Lemma standardFilename_shape (rows : list ScannerResult) :
  exists base, standardFilename rows = base +:+ "_Schedule.xlsx"
               /\ JsString.allChars isWord base = true.
Proof.
  exists (sanitize (dominantCompany rows) +:+ "_" +:+ taxTypesStr rows). split.
  - unfold standardFilename, filenameBase. rewrite !append_assoc. reflexivity.
  - rewrite !allChars_append, sanitize_isWord, taxTypesStr_isWord. reflexivity.
Qed.

(** X19: whatever the ledger holds, a file that an export writes has a name
    of the form [base_Schedule.xlsx] in which the base consists of letters,
    digits and underscores only: no white space, no path separator, no
    punctuation from a company name or a tax type gets into the name. *)
Theorem export_file_names (templateType : TemplateType) (app : App) :
  Forall (fun name => exists base, name = base +:+ "_Schedule.xlsx"
                                   /\ JsString.allChars isWord base = true)
    (filenames (downloadScannerExcel templateType app).2).
Proof.
  destruct (XLSX app) eqn:Hx.
  - destruct templateType.
    + rewrite (standard_effects app Hx). repeat constructor.
      apply standardFilename_shape.
    + rewrite (upload_effects app Hx). repeat constructor.
      exists "Lagos_State_Upload". split; reflexivity.
  - unfold downloadScannerExcel. rewrite Hx. constructor.
Qed.

(** ** The upload sheet *)

Lemma uploadCells_row (row : ScannerResult) :
  uploadCells (uploadRow row)
  = [plain (VStr (displayTaxType row));
     formatted "dd/mm/yyyy" (VDate (JsDate.parse (paymentDate row)));
     plain (VNum (amount row));
     plain (VStr (receiptNumber row));
     plain (periodVal row)].
Proof. reflexivity. Qed.

Lemma lookup_map {A B : Type} (f : A -> B) (l : list A) (i : nat) :
  map f l !! i = f <$> (l !! i).
Proof.
  revert i. induction l as [|x l IH]; intros [|i]; simpl; try reflexivity. apply IH.
Qed.

(** X20: with the library there, the upload export of a ledger whose rows
    all have a tax type and a period writes one file,
    [Lagos_State_Upload_Schedule.xlsx], with the single sheet ["Upload"]:
    the header row and one row for every row of the ledger, each of five
    cells; in the data rows the cell of column B, and no other, carries the
    date format, and the header row carries none. *)
Theorem upload_sheet_shape (app : App) :
  XLSX app = true ->
  Forall hasTaxAndPeriod (ledger app) ->
  exists sheet,
    (downloadScannerExcel upload app).2
    = [WriteFile [("Upload", sheet)] "Lagos_State_Upload_Schedule.xlsx"]
    /\ length sheet = S (length (ledger app))
    /\ Forall (fun row => length row = 5%nat) sheet
    /\ sheet !! 0%nat = Some (map (fun h => plain (VStr h)) uploadHeaders)
    /\ (forall r c row cell,
          sheet !! r = Some row -> row !! c = Some cell ->
          z cell = if Nat.ltb 0 r && Nat.eqb c 1 then Some "dd/mm/yyyy" else None).
Proof.
  intros Hx _. exists (uploadSheet (sort byPaymentDate (ledger app))).
  split; [apply (upload_effects app Hx)|]. unfold uploadSheet.
  split; [simpl; now rewrite length_map, (Permutation_length (sort_Permutation _ _))|].
  split; [|split; [reflexivity|]].
  - constructor; [reflexivity|]. apply Forall_map, Forall_forall. reflexivity.
  - intros r c row cell Hr Hc. destruct r as [|r].
    + injection Hr as <-.
      do 5 (destruct c as [|c]; [injection Hc as <-; reflexivity|]). discriminate Hc.
    + change (map (fun row => uploadCells (uploadRow row))
                (sort byPaymentDate (ledger app)) !! r = Some row) in Hr.
      rewrite lookup_map in Hr.
      destruct (sort byPaymentDate (ledger app) !! r) as [x|]; [|discriminate Hr].
      injection Hr as <-. rewrite uploadCells_row in Hc.
      do 5 (destruct c as [|c]; [injection Hc as <-; reflexivity|]). discriminate Hc.
Qed.

Lemma upload_sheet_shape_witness :
  let app := Sample.withLedger
               [Sample.row "Acme" "2025-02-10" "Jan-25" "R3" "VAT" 100;
                Sample.row "Acme" "2024-02-10" "Jan-24" "R1" "PAYE" 950] in
  exists sheet,
    written (downloadScannerExcel upload app).2 = [("Upload", sheet)]
    /\ length sheet = 3%nat.
Proof.
  intros app.
  assert (Forall hasTaxAndPeriod (ledger app)) as Ht by (repeat constructor).
  destruct (upload_sheet_shape app eq_refl Ht) as (sheet & He & Hlen & _).
  exists sheet. split; [now rewrite He | exact Hlen].
Defined.

(** ** Exports one after the other *)

(** X21: an export has no bearing on the exports that follow: after an
    export in either mode, an export in either mode writes what it would
    have written before (the sorting of the year sheets in place does not
    reach the ledger). *)
Theorem exports_do_not_interfere (first second : TemplateType) (app : App) :
  (downloadScannerExcel second (downloadScannerExcel first app).1).2
  = (downloadScannerExcel second app).2.
Proof.
  apply effects_of_ledger.
  - now destruct (export_fields first app) as (_ & -> & _).
  - now destruct (ledger_untouched_by_export first app) as (-> & _).
Qed.

(** ** The download dialog *)

(** X22: the dialog.  The download button only opens the dialog, leaving
    every other part of the state as it was; choosing a template closes it
    again in every case, also when the library is missing, and does what
    [downloadScannerExcel] does for that template: the same effects, the
    same ledger. *)
Theorem dialog_opens_and_closes (templateType : TemplateType) (app : App) :
  let opened := handleDownloadClick app in
  let closed := handleDownloadConfirm templateType opened in
  showDownloadModal opened = true
  /\ ledger opened = ledger app
  /\ scannerMessages opened = scannerMessages app
  /\ showDownloadModal closed.1 = false
  /\ closed.2 = (downloadScannerExcel templateType app).2
  /\ ledger closed.1 = ledger app.
Proof.
  intros opened closed. subst opened closed.
  split; [reflexivity|]. split; [reflexivity|]. split; [reflexivity|].
  unfold handleDownloadConfirm.
  set (app' := mkApp _ _ _ _ _ _ false _).
  split; [|split].
  - now destruct (export_fields templateType app') as (_ & _ & _ & _ & _ & _ & ->).
  - now apply effects_of_ledger.
  - now destruct (ledger_untouched_by_export templateType app') as (-> & _).
Qed.

(** ** From processing to the year sheets *)

Lemma filter_validDate (Q : ScannerResult -> Prop) `{forall row, Decision (Q row)}
    (rows : list ScannerResult) :
  Forall validDate rows -> Forall validDate (filter Q rows).
Proof.
  intros Hv. apply Forall_forall. intros row Hrow.
  apply list_elem_of_filter in Hrow as [_ Hrow].
  exact (proj1 (Forall_forall _ _) Hv row Hrow).
Qed.

(** In a ledger that is in date order, the rows of a year are in date
    order, and sorting them changes nothing. *)
Lemma rowsOfYear_sorted (year : string) (rows : list ScannerResult) :
  Forall validDate rows -> StronglySorted notAfter rows ->
  sort byPaymentDate (rowsOfYear year rows) = rowsOfYear year rows.
Proof.
  intros Hv Hs. unfold rowsOfYear.
  apply (sort_sorted_id byPaymentDate timeOf validDate byPaymentDate_key).
  - now apply filter_validDate.
  - now apply StronglySorted_filter.
Qed.

(** X23: from processing to the standard export.  When the admitted rows
    are complete (a company in ASCII characters that is not named like a
    member of [Object.prototype], a payment date YYYY-MM-DD that is a
    calendar date, a tax type in ASCII characters, a period, an integer
    amount above zero, the amounts adding up to at most 2^53 - 1), every
    year sheet written from the ledger that
    [processReceipts] leaves lists the rows of its year exactly in their
    order in the ledger: the sort of every bucket finds it sorted. *)
Theorem year_sheets_keep_ledger_order (app : App) (client : GoogleGenAI) :
  ai app = Some client -> XLSX app = true ->
  Forall wellFormed (accepted (selectedFiles app)) ->
  safeTotal (accepted (selectedFiles app)) ->
  let rows := ledger (processReceipts app) in
  written (downloadScannerExcel standard (processReceipts app)).2
  = map (fun year =>
           ("Remittance " +:+ year,
            standardSheet year
              (filter (fun row => getYearFromPeriod (paymentPeriod row) = year) rows)))
      (Obj.ownKeys (firstSeen (map (fun row => getYearFromPeriod (paymentPeriod row)) rows))).
Proof.
  intros Hai Hx Hw _ rows. subst rows.
  assert (Forall validDate (accepted (selectedFiles app))) as Hv.
  { apply calendarDates_valid. eapply Forall_impl; [exact Hw|].
    intros row Hrow. exact (proj1 (proj2 (proj2 (proj2 Hrow)))). }
  assert (XLSX (processReceipts app) = true) as Hx'
    by (unfold processReceipts; rewrite Hai; exact Hx).
  rewrite (standard_written _ Hx'). unfold standardWorkbook.
  apply map_ext_in. intros year _. f_equal. f_equal.
  apply rowsOfYear_sorted; rewrite (ledger_processReceipts app client Hai).
  - now apply sort_Forall.
  - now apply (sort_sorted byPaymentDate timeOf validDate byPaymentDate_key).
Qed.

Lemma year_sheets_keep_ledger_order_witness :
  let app := Sample.app [Sample.png "a.png" Sample.again;
                         Sample.png "c.png" Sample.other;
                         Sample.png "d.png" Sample.sameDay] in
  map fst (written (downloadScannerExcel standard (processReceipts app)).2)
  = ["Remittance 2023"; "Remittance 2024"].
Proof.
  intros app.
  rewrite (year_sheets_keep_ledger_order app (Client "key") eq_refl eq_refl).
  - reflexivity.
  - well_formed.
  - vm_compute. discriminate.
Defined.

(** ** Letter case of a tax type *)

Lemma upperChar_facts (c : ascii) :
  JsString.upperChar (JsString.upperChar c) = JsString.upperChar c
  /\ JsString.upperChar (JsString.lowerChar c) = JsString.upperChar c.
Proof. destruct c as [[] [] [] [] [] [] [] []]; split; reflexivity. Qed.

Lemma toUpperCase_idem (s : string) :
  JsString.toUpperCase (JsString.toUpperCase s) = JsString.toUpperCase s.
Proof.
  induction s as [|c s IH]; [reflexivity|].
  unfold JsString.toUpperCase in *. simpl. now rewrite (proj1 (upperChar_facts c)), IH.
Qed.

Lemma toUpperCase_toLowerCase (s : string) :
  JsString.toUpperCase (JsString.toLowerCase s) = JsString.toUpperCase s.
Proof.
  induction s as [|c s IH]; [reflexivity|].
  unfold JsString.toUpperCase, JsString.toLowerCase in *. simpl.
  now rewrite (proj2 (upperChar_facts c)), IH.
Qed.

Lemma shortCode_upper (t t' : string) :
  JsString.toUpperCase t = JsString.toUpperCase t' -> shortCode t = shortCode t'.
Proof. intros H. unfold shortCode. now rewrite H. Qed.

Lemma displayTaxType_upper (row : ScannerResult) :
  JsString.toUpperCase (displayTaxType row)
  = if JsString.includes (JsString.toUpperCase (taxType row)) "LAGOS REVENUE PAYMENT"
       || String.eqb (JsString.toUpperCase (taxType row)) "REVENUE PAYMENT"
       || String.eqb (JsString.toUpperCase (taxType row)) "REVENUE RECEIPT"
    then "PAYE" else JsString.toUpperCase (taxType row).
Proof. unfold displayTaxType. now destruct (_ || _ || _). Qed.

(** X24: the letter case of a tax type does not matter.  The code of the
    file name is the same for a tax type, for its upper-case form and for
    its lower-case form; and two rows whose tax types differ in letter case
    only are both PAYE rows of the upload template, or both are not. *)
Theorem tax_type_case_is_ignored (t : string) (row row' : ScannerResult) :
  shortCode (JsString.toUpperCase t) = shortCode t
  /\ shortCode (JsString.toLowerCase t) = shortCode t
  /\ (JsString.toUpperCase (taxType row) = JsString.toUpperCase (taxType row') ->
      isPaye row = isPaye row').
Proof.
  split; [apply shortCode_upper, toUpperCase_idem|].
  split; [apply shortCode_upper, toUpperCase_toLowerCase|].
  intros H. unfold isPaye. now rewrite !displayTaxType_upper, H.
Qed.

Lemma tax_type_case_is_ignored_witness :
  shortCode "withholding tax" = shortCode "WITHHOLDING TAX"
  /\ isPaye (Sample.row "Acme" "2024-02-10" "Jan-24" "R1" "Lagos revenue payment" 5)
     = isPaye (Sample.row "Beta" "2024-03-10" "Feb-24" "R2" "LAGOS REVENUE PAYMENT" 7).
Proof.
  destruct (tax_type_case_is_ignored "withholding tax"
              (Sample.row "Acme" "2024-02-10" "Jan-24" "R1" "Lagos revenue payment" 5)
              (Sample.row "Beta" "2024-03-10" "Feb-24" "R2" "LAGOS REVENUE PAYMENT" 7))
    as (Hu & _ & Hp).
  split; [symmetry; exact Hu | apply Hp; reflexivity].
Defined.
